(** * StoryWonders: the page-turn state machines and the narration controller

    A shallow embedding of the client scripts of the storybook viewer:

    - [Book]     the DOM book of the book-interaction script
                 (currentPage / totalPages / isAnimating, 600 ms commits);
    - [Viewer]   the main viewer script (currentStory / currentPageIndex /
                 isReadingAloud, speech synthesis, error box) together with
                 the narration override of the fairy-tale voice script;
    - [Flipbook] the story-loading method of the React flipbook component.

    Event handlers are computations in a state-and-exception monad: a
    JavaScript handler mutates the script's variables and the DOM and
    either returns or throws, and what it wrote before throwing stays
    written.  The browser's timer queue and the speech queue are part of
    the state; time is a millisecond counter advanced by explicit events. *)

From Stdlib Require Import ZArith Lia Bool.
From stdpp Require Import base list strings.

Local Open Scope Z_scope.

(** ** JavaScript completions and the handler monad *)

Inductive JsError : Type :=
  | TypeError (msg : string)
  | ReferenceError (msg : string)
  | Error (msg : string).

Inductive Result (A : Type) : Type :=
  | Ok (a : A)
  | Throw (e : JsError).
Arguments Ok {A} a.
Arguments Throw {A} e.

Definition M (S A : Type) : Type := S -> Result A * S.

Definition ret {S A} (a : A) : M S A := fun s => (Ok a, s).

Definition bind {S A B} (m : M S A) (k : A -> M S B) : M S B :=
  fun s => match m s with
           | (Ok a, s') => k a s'
           | (Throw e, s') => (Throw e, s')
           end.

Definition throw {S A} (e : JsError) : M S A := fun s => (Throw e, s).
Definition gets {S A} (f : S -> A) : M S A := fun s => (Ok (f s), s).
Definition modify {S} (f : S -> S) : M S unit := fun s => (Ok tt, f s).
Definition lift {S A} (r : Result A) : M S A := fun s => (r, s).

(** [try { m } catch (e) { h e }] *)
Definition try_catch {S A} (m : M S A) (h : JsError -> M S A) : M S A :=
  fun s => match m s with
           | (Ok a, s') => (Ok a, s')
           | (Throw e, s') => h e s'
           end.

(** [try { m } finally { f }] where [f] does not throw. *)
Definition finally {S A} (m : M S A) (f : S -> S) : M S A :=
  fun s => let '(r, s') := m s in (r, f s').

Declare Scope js_scope.
Delimit Scope js_scope with js.
Notation "x <- m ;; k" := (bind m (fun x => k))
  (at level 100, m at next level, right associativity) : js_scope.
Notation "m ;; k" := (bind m (fun _ => k))
  (at level 100, right associativity) : js_scope.

(** The state a handler leaves behind, and whether it returned. *)
Definition exec {S A} (m : M S A) (s : S) : S := snd (m s).
Definition returns {S A} (m : M S A) (s : S) : bool :=
  match fst (m s) with Ok _ => true | Throw _ => false end.

(** Calling a handler [n] times in a row; an uncaught exception ends one
    call, not the following ones. *)
Fixpoint repeat_call {S} (n : nat) (m : M S unit) (s : S) : S :=
  match n with
  | O => s
  | S n' => repeat_call n' m (exec m s)
  end.

(** ** The timer queue

    [setTimeout(cb, d)] registers [(clock + d, cb)]; the event loop may run
    a registered callback once its due time is reached, earliest due time
    first and in registration order among equal due times. *)

Section Timers.
Context {C : Type}.

Definition Queue : Type := list (Z * C).

Fixpoint earliest (q : Queue) : option Z :=
  match q with
  | [] => None
  | (d, _) :: q' =>
      match earliest q' with
      | None => Some d
      | Some d' => Some (Z.min d d')
      end
  end.

Fixpoint take_due (d : Z) (q : Queue) : option (C * Queue) :=
  match q with
  | [] => None
  | (d', c) :: q' =>
      if d' =? d then Some (c, q')
      else match take_due d q' with
           | Some (c0, r) => Some (c0, (d', c) :: r)
           | None => None
           end
  end.

Definition pop_due (clock : Z) (q : Queue) : option (C * Queue) :=
  match earliest q with
  | Some d => if d <=? clock then take_due d q else None
  | None => None
  end.
End Timers.
Arguments Queue C : clear implicits.

(** * The DOM book (book-interaction script) *)

Module Book.

(** The story payload as this script reads it: [storyData.title],
    [storyData.ageRange], [storyData.pages[i].text] and [.image]. *)
Record StoryPage : Type := { text : string; image : string }.

Record StoryData : Type :=
  { title : string; ageRange : string; pages : list StoryPage }.

(** What [innerHTML] was filled with. *)
Inductive PageContent : Type :=
  | FrontCover (heading cover_image ages : string)
  | StoryLeaf (body illustration : string) (number : Z)
  | BackCover
  | StaticMarkup.

(** A [.page] element: its [data-page] attribute, the three classes the
    script toggles, and the accessibility attributes it writes. *)
Record PageEl : Type :=
  { data_page : option Z;
    turning : bool;
    flipped : bool;
    returning : bool;
    aria_hidden : option bool;
    tabindex : option Z;
    content : PageContent }.

Definition set_turning (x : bool) (e : PageEl) : PageEl :=
  {| data_page := data_page e; turning := x; flipped := flipped e;
     returning := returning e; aria_hidden := aria_hidden e;
     tabindex := tabindex e; content := content e |}.
Definition set_flipped (x : bool) (e : PageEl) : PageEl :=
  {| data_page := data_page e; turning := turning e; flipped := x;
     returning := returning e; aria_hidden := aria_hidden e;
     tabindex := tabindex e; content := content e |}.
Definition set_returning (x : bool) (e : PageEl) : PageEl :=
  {| data_page := data_page e; turning := turning e; flipped := flipped e;
     returning := x; aria_hidden := aria_hidden e;
     tabindex := tabindex e; content := content e |}.
Definition set_access (hidden : bool) (tab : Z) (e : PageEl) : PageEl :=
  {| data_page := data_page e; turning := turning e; flipped := flipped e;
     returning := returning e; aria_hidden := Some hidden;
     tabindex := Some tab; content := content e |}.

(** The text of an optional indicator element: [Some (a, b)] stands for
    "Page a of b" (live region) or "a / b" (page indicator). *)
Definition LiveText : Type := option (Z * Z).

(** The deferred commits registered with [setTimeout]; each closure holds
    the page element it fetched when the turn was requested. *)
Inductive Callback : Type :=
  | CommitPrevious (pageToUnflip : nat)
  | CommitNext (pageToFlip : nat).

(** Script variables, the part of the document the script touches, and the
    browser's timer queue.  [elems] holds every page element ever attached,
    addressed by handle; [book] lists the handles of the [.page] elements
    currently in the document (the children of [.book]) in document order,
    so an element removed from the book is still reachable from a closure.
    An indicator is [None] when the element is not in the document. *)
Record Book : Type :=
  { currentPage : Z;
    totalPages : Z;
    isAnimating : bool;
    touchStartX : Z;
    touchEndX : Z;
    elems : list PageEl;
    book : list nat;
    rotation : option Z;
    liveRegion : option LiveText;
    pageIndicator : option LiveText;
    alerts : list string;
    timers : Queue Callback;
    clock : Z }.

Definition set_currentPage (x : Z) (s : Book) : Book :=
  {|
     currentPage := x; totalPages := totalPages s;
     isAnimating := isAnimating s; touchStartX := touchStartX s;
     touchEndX := touchEndX s; elems := elems s; book := book s;
     rotation := rotation s; liveRegion := liveRegion s;
     pageIndicator := pageIndicator s; alerts := alerts s;
     timers := timers s; clock := clock s |}.
Definition set_totalPages (x : Z) (s : Book) : Book :=
  {|
     currentPage := currentPage s; totalPages := x;
     isAnimating := isAnimating s; touchStartX := touchStartX s;
     touchEndX := touchEndX s; elems := elems s; book := book s;
     rotation := rotation s; liveRegion := liveRegion s;
     pageIndicator := pageIndicator s; alerts := alerts s;
     timers := timers s; clock := clock s |}.
Definition set_isAnimating (x : bool) (s : Book) : Book :=
  {|
     currentPage := currentPage s; totalPages := totalPages s;
     isAnimating := x; touchStartX := touchStartX s;
     touchEndX := touchEndX s; elems := elems s; book := book s;
     rotation := rotation s; liveRegion := liveRegion s;
     pageIndicator := pageIndicator s; alerts := alerts s;
     timers := timers s; clock := clock s |}.
Definition set_touchStartX (x : Z) (s : Book) : Book :=
  {|
     currentPage := currentPage s; totalPages := totalPages s;
     isAnimating := isAnimating s; touchStartX := x;
     touchEndX := touchEndX s; elems := elems s; book := book s;
     rotation := rotation s; liveRegion := liveRegion s;
     pageIndicator := pageIndicator s; alerts := alerts s;
     timers := timers s; clock := clock s |}.
Definition set_touchEndX (x : Z) (s : Book) : Book :=
  {|
     currentPage := currentPage s; totalPages := totalPages s;
     isAnimating := isAnimating s; touchStartX := touchStartX s;
     touchEndX := x; elems := elems s; book := book s;
     rotation := rotation s; liveRegion := liveRegion s;
     pageIndicator := pageIndicator s; alerts := alerts s;
     timers := timers s; clock := clock s |}.
Definition set_elems (x : list PageEl) (s : Book) : Book :=
  {|
     currentPage := currentPage s; totalPages := totalPages s;
     isAnimating := isAnimating s; touchStartX := touchStartX s;
     touchEndX := touchEndX s; elems := x; book := book s;
     rotation := rotation s; liveRegion := liveRegion s;
     pageIndicator := pageIndicator s; alerts := alerts s;
     timers := timers s; clock := clock s |}.
Definition set_book (x : list nat) (s : Book) : Book :=
  {|
     currentPage := currentPage s; totalPages := totalPages s;
     isAnimating := isAnimating s; touchStartX := touchStartX s;
     touchEndX := touchEndX s; elems := elems s; book := x;
     rotation := rotation s; liveRegion := liveRegion s;
     pageIndicator := pageIndicator s; alerts := alerts s;
     timers := timers s; clock := clock s |}.
Definition set_rotation (x : option Z) (s : Book) : Book :=
  {|
     currentPage := currentPage s; totalPages := totalPages s;
     isAnimating := isAnimating s; touchStartX := touchStartX s;
     touchEndX := touchEndX s; elems := elems s; book := book s;
     rotation := x; liveRegion := liveRegion s;
     pageIndicator := pageIndicator s; alerts := alerts s;
     timers := timers s; clock := clock s |}.
Definition set_liveRegion (x : option LiveText) (s : Book) : Book :=
  {|
     currentPage := currentPage s; totalPages := totalPages s;
     isAnimating := isAnimating s; touchStartX := touchStartX s;
     touchEndX := touchEndX s; elems := elems s; book := book s;
     rotation := rotation s; liveRegion := x;
     pageIndicator := pageIndicator s; alerts := alerts s;
     timers := timers s; clock := clock s |}.
Definition set_pageIndicator (x : option LiveText) (s : Book) : Book :=
  {|
     currentPage := currentPage s; totalPages := totalPages s;
     isAnimating := isAnimating s; touchStartX := touchStartX s;
     touchEndX := touchEndX s; elems := elems s; book := book s;
     rotation := rotation s; liveRegion := liveRegion s; pageIndicator := x;
     alerts := alerts s; timers := timers s; clock := clock s |}.
Definition set_alerts (x : list string) (s : Book) : Book :=
  {|
     currentPage := currentPage s; totalPages := totalPages s;
     isAnimating := isAnimating s; touchStartX := touchStartX s;
     touchEndX := touchEndX s; elems := elems s; book := book s;
     rotation := rotation s; liveRegion := liveRegion s;
     pageIndicator := pageIndicator s; alerts := x; timers := timers s;
     clock := clock s |}.
Definition set_timers (x : Queue Callback) (s : Book) : Book :=
  {|
     currentPage := currentPage s; totalPages := totalPages s;
     isAnimating := isAnimating s; touchStartX := touchStartX s;
     touchEndX := touchEndX s; elems := elems s; book := book s;
     rotation := rotation s; liveRegion := liveRegion s;
     pageIndicator := pageIndicator s; alerts := alerts s; timers := x;
     clock := clock s |}.
Definition set_clock (x : Z) (s : Book) : Book :=
  {|
     currentPage := currentPage s; totalPages := totalPages s;
     isAnimating := isAnimating s; touchStartX := touchStartX s;
     touchEndX := touchEndX s; elems := elems s; book := book s;
     rotation := rotation s; liveRegion := liveRegion s;
     pageIndicator := pageIndicator s; alerts := alerts s;
     timers := timers s; clock := x |}.

Definition minSwipeDistance : Z := 50.

Definition setTimeout (cb : Callback) (delay : Z) : M Book unit :=
  modify (fun s => set_timers (timers s ++ [(clock s + delay, cb)]) s).

(** [document.querySelector(`.page[data-page="${k}"]`)]: the first page in
    document order whose attribute equals [k], or null. *)
Definition has_data_page (els : list PageEl) (k : Z) (h : nat) : bool :=
  match els !! h with
  | Some e => match data_page e with Some d => d =? k | None => false end
  | None => false
  end.

Definition querySelectorPage (k : Z) (s : Book) : option nat :=
  List.find (has_data_page (elems s) k) (book s).

(** A write through an element reference. *)
Definition on_element (h : nat) (f : PageEl -> PageEl) : M Book unit :=
  modify (fun s => set_elems (alter f h (elems s)) s).

Definition adjustBookPosition : M Book unit :=
  modify (fun s => set_rotation (Some (Z.min (currentPage s * 2) 10)) s).

Fixpoint mark_pages (cur : Z) (index : Z) (hs : list nat)
    (els : list PageEl) : list PageEl :=
  match hs with
  | [] => els
  | h :: hs' =>
      mark_pages cur (index + 1) hs'
        (alter (set_access (index <? cur)
                  (if index =? cur then 0 else -1)) h els)
  end.

Definition updateAccessibility : M Book unit :=
  modify (fun s =>
    let s1 := set_elems (mark_pages (currentPage s) 0 (book s) (elems s)) s in
    match liveRegion s1 with
    | Some _ =>
        set_liveRegion (Some (Some (currentPage s1 + 1, totalPages s1))) s1
    | None => s1
    end).

Definition updatePageIndicators : M Book unit :=
  modify (fun s =>
    match pageIndicator s with
    | Some _ =>
        set_pageIndicator (Some (Some (currentPage s + 1, totalPages s))) s
    | None => s
    end).

Definition updatePageState : M Book unit :=
  (adjustBookPosition ;; updateAccessibility ;; updatePageIndicators)%js.

Definition goToPreviousPage : M Book unit :=
  (animating <- gets isAnimating ;;
   cur <- gets currentPage ;;
   if animating || (cur <=? 0) then ret tt
   else
     modify (set_isAnimating true) ;;
     modify (set_currentPage (cur - 1)) ;;
     pageToUnflip <- gets (querySelectorPage (cur - 1)) ;;
     match pageToUnflip with
     | None => throw (TypeError "pageToUnflip is null")
     | Some h =>
         on_element h (set_returning true) ;;
         setTimeout (CommitPrevious h) 600
     end)%js.

Definition goToNextPage : M Book unit :=
  (animating <- gets isAnimating ;;
   cur <- gets currentPage ;;
   total <- gets totalPages ;;
   if animating || (cur >=? total - 1) then ret tt
   else
     modify (set_isAnimating true) ;;
     pageToFlip <- gets (querySelectorPage cur) ;;
     match pageToFlip with
     | None => throw (TypeError "pageToFlip is null")
     | Some h =>
         on_element h (set_turning true) ;;
         setTimeout (CommitNext h) 600
     end)%js.

(** The bodies of the two [setTimeout] closures. *)
Definition run_callback (cb : Callback) : M Book unit :=
  match cb with
  | CommitPrevious h =>
      (on_element h (fun e => set_returning false (set_flipped false e)) ;;
       modify (set_isAnimating false) ;;
       updatePageState)%js
  | CommitNext h =>
      (on_element h (fun e => set_turning false (set_flipped true e)) ;;
       modify (fun s => set_currentPage (currentPage s + 1) s) ;;
       modify (set_isAnimating false) ;;
       updatePageState)%js
  end.

Definition handleKeyDown (key : string) : M Book unit :=
  (animating <- gets isAnimating ;;
   if animating then ret tt
   else if String.eqb key "ArrowLeft" then goToPreviousPage
   else if String.eqb key "ArrowRight" then goToNextPage
   else ret tt)%js.

Definition handleSwipe : M Book unit :=
  (s <- gets id ;;
   let swipeDistance := touchEndX s - touchStartX s in
   if Z.abs swipeDistance >? minSwipeDistance then
     if swipeDistance >? 0 then goToPreviousPage else goToNextPage
   else ret tt)%js.

Definition initializeBook : M Book unit :=
  (modify (fun s => set_totalPages (Z.of_nat (length (book s))) s) ;;
   updatePageState)%js.

Definition createPage (k : Z) (c : PageContent) : PageEl :=
  {| data_page := Some k; turning := false; flipped := false;
     returning := false; aria_hidden := None; tabindex := None;
     content := c |}.

Definition appendChild (e : PageEl) : M Book unit :=
  modify (fun s =>
    set_book (book s ++ [length (elems s)]) (set_elems (elems s ++ [e]) s)).

Fixpoint appendStoryPages (i : Z) (ps : list StoryPage) : M Book unit :=
  match ps with
  | [] => ret tt
  | p :: ps' =>
      (appendChild (createPage (i + 1) (StoryLeaf (text p) (image p) (i + 1))) ;;
       appendStoryPages (i + 1) ps')%js
  end.

(** [pages[0].image] is read while the cover's markup is built, before the
    cover is appended: with no first page the read throws and the book is
    left as it was. *)
Definition populateBook (storyData : StoryData) : M Book unit :=
  match pages storyData !! 0%nat with
  | None => throw (TypeError "pages[0] is undefined")
  | Some first =>
      (appendChild (createPage 0
         (FrontCover (title storyData) (image first) (ageRange storyData))) ;;
       appendStoryPages 0 (pages storyData) ;;
       appendChild (createPage (Z.of_nat (length (pages storyData)) + 1)
                      BackCover))%js
  end.

(** The rest of the submit handler once [fetch] has settled; [None] is a
    rejected request or a response that is not ok. *)
Definition storyResponse (r : option StoryData) : M Book unit :=
  try_catch
    (match r with
     | None => throw (Error "Failed to generate story")
     | Some data =>
         (populateBook data ;;
          modify (set_currentPage 0) ;;
          initializeBook)%js
     end)
    (fun _ => modify (fun s =>
       set_alerts (alerts s ++ ["Error generating story. Please try again."]) s)).

(** The "Create New Story" button lives in the back cover. *)
Definition is_back_cover (els : list PageEl) (h : nat) : bool :=
  match els !! h with
  | Some e => match content e with BackCover => true | _ => false end
  | None => false
  end.

Definition createNewStory : M Book unit :=
  (s <- gets id ;;
   if existsb (is_back_cover (elems s)) (book s)
   then modify (set_book [])
   else ret tt)%js.

Definition fireTimer : M Book unit :=
  (s <- gets id ;;
   match pop_due (clock s) (timers s) with
   | Some (cb, rest) => modify (set_timers rest) ;; run_callback cb
   | None => ret tt
   end)%js.

(** The events the script listens to, the response of [fetch], and the
    passing of time.  [initializeBook] registers the touch listeners anew
    for every story, so one touch end may run [handleSwipe] several times;
    a second run in the same event changes nothing (lemma
    [handleSwipe_twice]), and one run is modelled. *)
Inductive Event : Type :=
  | ClickLeftTurn
  | ClickRightTurn
  | KeyDown (key : string)
  | TouchStart (screenX : Z)
  | TouchEnd (screenX : Z)
  | StoryResponse (r : option StoryData)
  | ClickCreateNewStory
  | Elapse (ms : N)
  | TimerFires.

Definition handle (ev : Event) : M Book unit :=
  match ev with
  | ClickLeftTurn => goToPreviousPage
  | ClickRightTurn => goToNextPage
  | KeyDown key => handleKeyDown key
  | TouchStart x => modify (set_touchStartX x)
  | TouchEnd x => (modify (set_touchEndX x) ;; handleSwipe)%js
  | StoryResponse r => storyResponse r
  | ClickCreateNewStory => createNewStory
  | Elapse ms => modify (fun s => set_clock (clock s + Z.of_N ms) s)
  | TimerFires => fireTimer
  end.

Definition step (ev : Event) (s : Book) : Book := exec (handle ev) s.

Definition run (evs : list Event) (s : Book) : Book :=
  fold_left (fun s ev => step ev s) evs s.

(** The document as served, with an empty [.book] and the indicator
    elements present or not, and the state once the script has run
    [initializeBook] on [DOMContentLoaded]. *)
Definition blank (live indicator : bool) : Book :=
  {| currentPage := 0; totalPages := 0; isAnimating := false;
     touchStartX := 0; touchEndX := 0; elems := []; book := [];
     rotation := None;
     liveRegion := if live then Some None else None;
     pageIndicator := if indicator then Some None else None;
     alerts := []; timers := []; clock := 0 |}.

Definition opened (live indicator : bool) : Book :=
  exec initializeBook (blank live indicator).

(** The timer discipline: a commit is pending only while [isAnimating] is
    set, and never more than one. *)
Definition one_turn (s : Book) : Prop :=
  (length (timers s) <= 1)%nat /\ (isAnimating s = false -> timers s = []).

(** The cursor bound of the book, and the bound that also counts the
    forward commit still to run. *)
Definition in_bounds (s : Book) : Prop :=
  0 <= currentPage s <= totalPages s - 1.

Definition forward_pending (q : Queue Callback) : Z :=
  match q with
  | (_, CommitNext _) :: _ => 1
  | _ => 0
  end.

Definition headroom (s : Book) : Prop :=
  0 <= currentPage s /\
  currentPage s + forward_pending (timers s) <= totalPages s - 1.

(** Two states with the same pending commits and the same flag. *)
Definition same_turn (s s' : Book) : Prop :=
  timers s' = timers s /\ isAnimating s' = isAnimating s.

(** A two-page story, the book it loads into, and that book while its
    first page turn is in flight. *)
Definition two_pages : StoryData :=
  {| title := "The Brave Dragon"; ageRange := "4-8";
     pages := [ {| text := "Once upon a time"; image := "/img/1.png" |};
                {| text := "The end"; image := "/img/2.png" |} ] |}.

Definition loaded : Book :=
  run [StoryResponse (Some two_pages)] (opened true true).

Definition turning_first : Book := run [ClickRightTurn] loaded.

Definition on_page_one : Book :=
  run [ClickRightTurn; Elapse 600; TimerFires] loaded.

Definition no_pages : StoryData :=
  {| title := "Untitled"; ageRange := "4-8"; pages := [] |}.

Definition at_back_cover : Book :=
  run [ClickRightTurn; Elapse 600; TimerFires;
       ClickRightTurn; Elapse 600; TimerFires;
       ClickRightTurn; Elapse 600; TimerFires] loaded.

(** On page 1, after "Create New Story" has emptied the book: the form is
    back, the script's variables are as they were. *)
Definition book_cleared : Book := run [ClickCreateNewStory] on_page_one.

(** ** Further notions for the book

    A book is [paged] when its [j]-th child carries [data-page = j], the
    way [populateBook] numbers an empty book, and [intact] when moreover
    [totalPages] counts its children. *)
Definition paged (s : Book) : Prop :=
  forall (j : nat) (h : nat),
    book s !! j = Some h ->
    exists e, elems s !! h = Some e /\ data_page e = Some (Z.of_nat j).

Definition intact (s : Book) : Prop :=
  paged s /\ totalPages s = Z.of_nat (length (book s)).

(** The events that turn pages or let time pass, as opposed to loading a
    story or clearing the book. *)
Definition is_navigation (ev : Event) : bool :=
  match ev with
  | StoryResponse _ | ClickCreateNewStory => false
  | _ => true
  end.

(** Whether every handler along a run returns normally. *)
Fixpoint all_return (evs : list Event) (s : Book) : bool :=
  match evs with
  | [] => true
  | ev :: evs' => returns (handle ev) s && all_return evs' (step ev s)
  end.

(** A page turn requested by a click and awaited to its commit. *)
Definition forward_turn : list Event := [ClickRightTurn; Elapse 600; TimerFires].
Definition backward_turn : list Event := [ClickLeftTurn; Elapse 600; TimerFires].

Fixpoint times (n : nat) (evs : list Event) : list Event :=
  match n with
  | O => []
  | S n' => evs ++ times n' evs
  end.

(** What [updateAccessibility] leaves on the element with handle [h]: the
    marks of the last position at which [h] occurs among the pages, if it
    occurs at all. *)
Fixpoint final_mark (cur : Z) (index : Z) (hs : list nat) (h : nat)
    : option (bool * Z) :=
  match hs with
  | [] => None
  | h' :: hs' =>
      match final_mark cur (index + 1) hs' h with
      | Some m => Some m
      | None =>
          if Nat.eqb h' h
          then Some (index <? cur, if index =? cur then 0 else -1)
          else None
      end
  end.

(** Two states with the same pages in the book, each with the
    [data-page] it had. *)
Definition same_tags (s s' : Book) : Prop :=
  book s' = book s /\
  forall h, data_page <$> (elems s' !! h) = data_page <$> (elems s !! h).

(** The invariant of a loaded book under navigation: one turn at a time,
    the cursor with room for the pending commit, every page in place. *)
Definition walkable (s : Book) : Prop :=
  one_turn s /\ headroom s /\ intact s.


(** A walkable book between two page turns. *)
Definition at_rest (s : Book) : Prop := walkable s /\ isAnimating s = false.

End Book.

(** * The story payload of [POST /generate]

    [index] is the page's [index] property, which the viewer uses to build
    the element id [page-<index>]; [None] is a payload without it. *)

Record Page : Type :=
  { index : option Z; text : string; image_url : string }.

Record Story : Type :=
  { title : string; age_range : string; pages : list Page }.

(** * The viewer (main script) and its narration *)

Module Viewer.

(** A story page element [#page-<index>] built by [createPageElement]. *)
Record PageEl : Type :=
  { page_id : option Z;
    flipped : bool;
    zIndex : Z;
    shown : Page }.

Definition set_flipped (x : bool) (e : PageEl) : PageEl :=
  {| page_id := page_id e; flipped := x; zIndex := zIndex e;
     shown := shown e |}.

(** The part of the document the script reads and writes.  [cover] is the
    static [#cover-page] element ([None]: not in the document) with its
    [flipped] class; [coverImage] is [#cover-image] with its background. *)
Record Dom : Type :=
  { cover : option bool;
    coverImage : option (option string);
    bookPages : list PageEl;
    traditionalHidden : bool;
    prevDisabled : bool;
    nextDisabled : bool;
    currentPageIndicator : Z;
    totalPagesIndicator : Z;
    storyTitle : string;
    errorText : string;
    errorHidden : bool;
    loadingHidden : bool;
    viewerHidden : bool }.

Definition set_cover (x : option bool) (s : Dom) : Dom :=
  {|
     cover := x; coverImage := coverImage s; bookPages := bookPages s;
     traditionalHidden := traditionalHidden s;
     prevDisabled := prevDisabled s; nextDisabled := nextDisabled s;
     currentPageIndicator := currentPageIndicator s;
     totalPagesIndicator := totalPagesIndicator s;
     storyTitle := storyTitle s; errorText := errorText s;
     errorHidden := errorHidden s; loadingHidden := loadingHidden s;
     viewerHidden := viewerHidden s |}.
Definition set_coverImage (x : option (option string)) (s : Dom) : Dom :=
  {|
     cover := cover s; coverImage := x; bookPages := bookPages s;
     traditionalHidden := traditionalHidden s;
     prevDisabled := prevDisabled s; nextDisabled := nextDisabled s;
     currentPageIndicator := currentPageIndicator s;
     totalPagesIndicator := totalPagesIndicator s;
     storyTitle := storyTitle s; errorText := errorText s;
     errorHidden := errorHidden s; loadingHidden := loadingHidden s;
     viewerHidden := viewerHidden s |}.
Definition set_bookPages (x : list PageEl) (s : Dom) : Dom :=
  {|
     cover := cover s; coverImage := coverImage s; bookPages := x;
     traditionalHidden := traditionalHidden s;
     prevDisabled := prevDisabled s; nextDisabled := nextDisabled s;
     currentPageIndicator := currentPageIndicator s;
     totalPagesIndicator := totalPagesIndicator s;
     storyTitle := storyTitle s; errorText := errorText s;
     errorHidden := errorHidden s; loadingHidden := loadingHidden s;
     viewerHidden := viewerHidden s |}.
Definition set_traditionalHidden (x : bool) (s : Dom) : Dom :=
  {|
     cover := cover s; coverImage := coverImage s; bookPages := bookPages s;
     traditionalHidden := x; prevDisabled := prevDisabled s;
     nextDisabled := nextDisabled s;
     currentPageIndicator := currentPageIndicator s;
     totalPagesIndicator := totalPagesIndicator s;
     storyTitle := storyTitle s; errorText := errorText s;
     errorHidden := errorHidden s; loadingHidden := loadingHidden s;
     viewerHidden := viewerHidden s |}.
Definition set_prevDisabled (x : bool) (s : Dom) : Dom :=
  {|
     cover := cover s; coverImage := coverImage s; bookPages := bookPages s;
     traditionalHidden := traditionalHidden s; prevDisabled := x;
     nextDisabled := nextDisabled s;
     currentPageIndicator := currentPageIndicator s;
     totalPagesIndicator := totalPagesIndicator s;
     storyTitle := storyTitle s; errorText := errorText s;
     errorHidden := errorHidden s; loadingHidden := loadingHidden s;
     viewerHidden := viewerHidden s |}.
Definition set_nextDisabled (x : bool) (s : Dom) : Dom :=
  {|
     cover := cover s; coverImage := coverImage s; bookPages := bookPages s;
     traditionalHidden := traditionalHidden s;
     prevDisabled := prevDisabled s; nextDisabled := x;
     currentPageIndicator := currentPageIndicator s;
     totalPagesIndicator := totalPagesIndicator s;
     storyTitle := storyTitle s; errorText := errorText s;
     errorHidden := errorHidden s; loadingHidden := loadingHidden s;
     viewerHidden := viewerHidden s |}.
Definition set_currentPageIndicator (x : Z) (s : Dom) : Dom :=
  {|
     cover := cover s; coverImage := coverImage s; bookPages := bookPages s;
     traditionalHidden := traditionalHidden s;
     prevDisabled := prevDisabled s; nextDisabled := nextDisabled s;
     currentPageIndicator := x;
     totalPagesIndicator := totalPagesIndicator s;
     storyTitle := storyTitle s; errorText := errorText s;
     errorHidden := errorHidden s; loadingHidden := loadingHidden s;
     viewerHidden := viewerHidden s |}.
Definition set_totalPagesIndicator (x : Z) (s : Dom) : Dom :=
  {|
     cover := cover s; coverImage := coverImage s; bookPages := bookPages s;
     traditionalHidden := traditionalHidden s;
     prevDisabled := prevDisabled s; nextDisabled := nextDisabled s;
     currentPageIndicator := currentPageIndicator s;
     totalPagesIndicator := x; storyTitle := storyTitle s;
     errorText := errorText s; errorHidden := errorHidden s;
     loadingHidden := loadingHidden s; viewerHidden := viewerHidden s |}.
Definition set_storyTitle (x : string) (s : Dom) : Dom :=
  {|
     cover := cover s; coverImage := coverImage s; bookPages := bookPages s;
     traditionalHidden := traditionalHidden s;
     prevDisabled := prevDisabled s; nextDisabled := nextDisabled s;
     currentPageIndicator := currentPageIndicator s;
     totalPagesIndicator := totalPagesIndicator s; storyTitle := x;
     errorText := errorText s; errorHidden := errorHidden s;
     loadingHidden := loadingHidden s; viewerHidden := viewerHidden s |}.
Definition set_errorText (x : string) (s : Dom) : Dom :=
  {|
     cover := cover s; coverImage := coverImage s; bookPages := bookPages s;
     traditionalHidden := traditionalHidden s;
     prevDisabled := prevDisabled s; nextDisabled := nextDisabled s;
     currentPageIndicator := currentPageIndicator s;
     totalPagesIndicator := totalPagesIndicator s;
     storyTitle := storyTitle s; errorText := x;
     errorHidden := errorHidden s; loadingHidden := loadingHidden s;
     viewerHidden := viewerHidden s |}.
Definition set_errorHidden (x : bool) (s : Dom) : Dom :=
  {|
     cover := cover s; coverImage := coverImage s; bookPages := bookPages s;
     traditionalHidden := traditionalHidden s;
     prevDisabled := prevDisabled s; nextDisabled := nextDisabled s;
     currentPageIndicator := currentPageIndicator s;
     totalPagesIndicator := totalPagesIndicator s;
     storyTitle := storyTitle s; errorText := errorText s; errorHidden := x;
     loadingHidden := loadingHidden s; viewerHidden := viewerHidden s |}.
Definition set_loadingHidden (x : bool) (s : Dom) : Dom :=
  {|
     cover := cover s; coverImage := coverImage s; bookPages := bookPages s;
     traditionalHidden := traditionalHidden s;
     prevDisabled := prevDisabled s; nextDisabled := nextDisabled s;
     currentPageIndicator := currentPageIndicator s;
     totalPagesIndicator := totalPagesIndicator s;
     storyTitle := storyTitle s; errorText := errorText s;
     errorHidden := errorHidden s; loadingHidden := x;
     viewerHidden := viewerHidden s |}.
Definition set_viewerHidden (x : bool) (s : Dom) : Dom :=
  {|
     cover := cover s; coverImage := coverImage s; bookPages := bookPages s;
     traditionalHidden := traditionalHidden s;
     prevDisabled := prevDisabled s; nextDisabled := nextDisabled s;
     currentPageIndicator := currentPageIndicator s;
     totalPagesIndicator := totalPagesIndicator s;
     storyTitle := storyTitle s; errorText := errorText s;
     errorHidden := errorHidden s; loadingHidden := loadingHidden s;
     viewerHidden := x |}.

(** A [SpeechSynthesisUtterance]; [by_override] tells whose [onend] closure
    it carries (the main script's or the voice script's). *)
Record Utterance : Type :=
  { spoken : string; by_override : bool }.

(** The properties of the global object that the voice script reads as
    [window.currentPageIndex], [window.currentStory], [window.isReadingAloud]
    and writes as [window.speechUtterance].  The main script declares its
    state with [let], which creates no property of the global object, so
    these hold whatever the page stored there ([None]: undefined); no
    function of either script writes the first three. *)
Record Window : Type :=
  { w_currentPageIndex : option Z;
    w_currentStory : option Story;
    w_isReadingAloud : option bool;
    w_speechUtterance : option Utterance }.

Definition set_w_speechUtterance (x : option Utterance) (w : Window) : Window :=
  {| w_currentPageIndex := w_currentPageIndex w;
     w_currentStory := w_currentStory w;
     w_isReadingAloud := w_isReadingAloud w;
     w_speechUtterance := x |}.

Definition undefined_window : Window :=
  {| w_currentPageIndex := None; w_currentStory := None;
     w_isReadingAloud := None; w_speechUtterance := None |}.

(** The closures handed to [setTimeout]. *)
Inductive Callback : Type :=
  | HideError
  | CommitFlip
  | ReadPage
  | AutoAdvance.

(** Script variables, browser state and document.  [hasSpeech] says whether
    [window.speechSynthesis] exists; [speechQueue] is the synthesizer's
    queue, whose head is the utterance being spoken; [autoTurnPages] is the
    [#auto-turn-pages] checkbox ([None]: no such element);
    [enhancedExpression] is that key of the stored voice settings;
    [dispatched] logs the [storyGenerated] events. *)
Record Viewer : Type :=
  { currentStory : option Story;
    currentPageIndex : Z;
    isReadingAloud : bool;
    speechUtterance : option Utterance;
    touchStartX : Z;
    touchEndX : Z;
    hasSpeech : bool;
    speechQueue : list Utterance;
    win : Window;
    autoTurnPages : option bool;
    enhancedExpression : option bool;
    dispatched : list Story;
    dom : Dom;
    timers : Queue Callback;
    clock : Z }.

Definition set_currentStory (x : option Story) (s : Viewer) : Viewer :=
  {|
     currentStory := x; currentPageIndex := currentPageIndex s;
     isReadingAloud := isReadingAloud s;
     speechUtterance := speechUtterance s; touchStartX := touchStartX s;
     touchEndX := touchEndX s; hasSpeech := hasSpeech s;
     speechQueue := speechQueue s; win := win s;
     autoTurnPages := autoTurnPages s;
     enhancedExpression := enhancedExpression s; dispatched := dispatched s;
     dom := dom s; timers := timers s; clock := clock s |}.
Definition set_currentPageIndex (x : Z) (s : Viewer) : Viewer :=
  {|
     currentStory := currentStory s; currentPageIndex := x;
     isReadingAloud := isReadingAloud s;
     speechUtterance := speechUtterance s; touchStartX := touchStartX s;
     touchEndX := touchEndX s; hasSpeech := hasSpeech s;
     speechQueue := speechQueue s; win := win s;
     autoTurnPages := autoTurnPages s;
     enhancedExpression := enhancedExpression s; dispatched := dispatched s;
     dom := dom s; timers := timers s; clock := clock s |}.
Definition set_isReadingAloud (x : bool) (s : Viewer) : Viewer :=
  {|
     currentStory := currentStory s; currentPageIndex := currentPageIndex s;
     isReadingAloud := x; speechUtterance := speechUtterance s;
     touchStartX := touchStartX s; touchEndX := touchEndX s;
     hasSpeech := hasSpeech s; speechQueue := speechQueue s; win := win s;
     autoTurnPages := autoTurnPages s;
     enhancedExpression := enhancedExpression s; dispatched := dispatched s;
     dom := dom s; timers := timers s; clock := clock s |}.
Definition set_speechUtterance (x : option Utterance) (s : Viewer) : Viewer :=
  {|
     currentStory := currentStory s; currentPageIndex := currentPageIndex s;
     isReadingAloud := isReadingAloud s; speechUtterance := x;
     touchStartX := touchStartX s; touchEndX := touchEndX s;
     hasSpeech := hasSpeech s; speechQueue := speechQueue s; win := win s;
     autoTurnPages := autoTurnPages s;
     enhancedExpression := enhancedExpression s; dispatched := dispatched s;
     dom := dom s; timers := timers s; clock := clock s |}.
Definition set_touchStartX (x : Z) (s : Viewer) : Viewer :=
  {|
     currentStory := currentStory s; currentPageIndex := currentPageIndex s;
     isReadingAloud := isReadingAloud s;
     speechUtterance := speechUtterance s; touchStartX := x;
     touchEndX := touchEndX s; hasSpeech := hasSpeech s;
     speechQueue := speechQueue s; win := win s;
     autoTurnPages := autoTurnPages s;
     enhancedExpression := enhancedExpression s; dispatched := dispatched s;
     dom := dom s; timers := timers s; clock := clock s |}.
Definition set_touchEndX (x : Z) (s : Viewer) : Viewer :=
  {|
     currentStory := currentStory s; currentPageIndex := currentPageIndex s;
     isReadingAloud := isReadingAloud s;
     speechUtterance := speechUtterance s; touchStartX := touchStartX s;
     touchEndX := x; hasSpeech := hasSpeech s; speechQueue := speechQueue s;
     win := win s; autoTurnPages := autoTurnPages s;
     enhancedExpression := enhancedExpression s; dispatched := dispatched s;
     dom := dom s; timers := timers s; clock := clock s |}.
Definition set_hasSpeech (x : bool) (s : Viewer) : Viewer :=
  {|
     currentStory := currentStory s; currentPageIndex := currentPageIndex s;
     isReadingAloud := isReadingAloud s;
     speechUtterance := speechUtterance s; touchStartX := touchStartX s;
     touchEndX := touchEndX s; hasSpeech := x; speechQueue := speechQueue s;
     win := win s; autoTurnPages := autoTurnPages s;
     enhancedExpression := enhancedExpression s; dispatched := dispatched s;
     dom := dom s; timers := timers s; clock := clock s |}.
Definition set_speechQueue (x : list Utterance) (s : Viewer) : Viewer :=
  {|
     currentStory := currentStory s; currentPageIndex := currentPageIndex s;
     isReadingAloud := isReadingAloud s;
     speechUtterance := speechUtterance s; touchStartX := touchStartX s;
     touchEndX := touchEndX s; hasSpeech := hasSpeech s; speechQueue := x;
     win := win s; autoTurnPages := autoTurnPages s;
     enhancedExpression := enhancedExpression s; dispatched := dispatched s;
     dom := dom s; timers := timers s; clock := clock s |}.
Definition set_win (x : Window) (s : Viewer) : Viewer :=
  {|
     currentStory := currentStory s; currentPageIndex := currentPageIndex s;
     isReadingAloud := isReadingAloud s;
     speechUtterance := speechUtterance s; touchStartX := touchStartX s;
     touchEndX := touchEndX s; hasSpeech := hasSpeech s;
     speechQueue := speechQueue s; win := x;
     autoTurnPages := autoTurnPages s;
     enhancedExpression := enhancedExpression s; dispatched := dispatched s;
     dom := dom s; timers := timers s; clock := clock s |}.
Definition set_autoTurnPages (x : option bool) (s : Viewer) : Viewer :=
  {|
     currentStory := currentStory s; currentPageIndex := currentPageIndex s;
     isReadingAloud := isReadingAloud s;
     speechUtterance := speechUtterance s; touchStartX := touchStartX s;
     touchEndX := touchEndX s; hasSpeech := hasSpeech s;
     speechQueue := speechQueue s; win := win s; autoTurnPages := x;
     enhancedExpression := enhancedExpression s; dispatched := dispatched s;
     dom := dom s; timers := timers s; clock := clock s |}.
Definition set_enhancedExpression (x : option bool) (s : Viewer) : Viewer :=
  {|
     currentStory := currentStory s; currentPageIndex := currentPageIndex s;
     isReadingAloud := isReadingAloud s;
     speechUtterance := speechUtterance s; touchStartX := touchStartX s;
     touchEndX := touchEndX s; hasSpeech := hasSpeech s;
     speechQueue := speechQueue s; win := win s;
     autoTurnPages := autoTurnPages s; enhancedExpression := x;
     dispatched := dispatched s; dom := dom s; timers := timers s;
     clock := clock s |}.
Definition set_dispatched (x : list Story) (s : Viewer) : Viewer :=
  {|
     currentStory := currentStory s; currentPageIndex := currentPageIndex s;
     isReadingAloud := isReadingAloud s;
     speechUtterance := speechUtterance s; touchStartX := touchStartX s;
     touchEndX := touchEndX s; hasSpeech := hasSpeech s;
     speechQueue := speechQueue s; win := win s;
     autoTurnPages := autoTurnPages s;
     enhancedExpression := enhancedExpression s; dispatched := x;
     dom := dom s; timers := timers s; clock := clock s |}.
Definition set_dom (x : Dom) (s : Viewer) : Viewer :=
  {|
     currentStory := currentStory s; currentPageIndex := currentPageIndex s;
     isReadingAloud := isReadingAloud s;
     speechUtterance := speechUtterance s; touchStartX := touchStartX s;
     touchEndX := touchEndX s; hasSpeech := hasSpeech s;
     speechQueue := speechQueue s; win := win s;
     autoTurnPages := autoTurnPages s;
     enhancedExpression := enhancedExpression s; dispatched := dispatched s;
     dom := x; timers := timers s; clock := clock s |}.
Definition set_timers (x : Queue Callback) (s : Viewer) : Viewer :=
  {|
     currentStory := currentStory s; currentPageIndex := currentPageIndex s;
     isReadingAloud := isReadingAloud s;
     speechUtterance := speechUtterance s; touchStartX := touchStartX s;
     touchEndX := touchEndX s; hasSpeech := hasSpeech s;
     speechQueue := speechQueue s; win := win s;
     autoTurnPages := autoTurnPages s;
     enhancedExpression := enhancedExpression s; dispatched := dispatched s;
     dom := dom s; timers := x; clock := clock s |}.
Definition set_clock (x : Z) (s : Viewer) : Viewer :=
  {|
     currentStory := currentStory s; currentPageIndex := currentPageIndex s;
     isReadingAloud := isReadingAloud s;
     speechUtterance := speechUtterance s; touchStartX := touchStartX s;
     touchEndX := touchEndX s; hasSpeech := hasSpeech s;
     speechQueue := speechQueue s; win := win s;
     autoTurnPages := autoTurnPages s;
     enhancedExpression := enhancedExpression s; dispatched := dispatched s;
     dom := dom s; timers := timers s; clock := x |}.

Definition on_dom (f : Dom -> Dom) : M Viewer unit :=
  modify (fun s => set_dom (f (dom s)) s).

Definition setTimeout (cb : Callback) (delay : Z) : M Viewer unit :=
  modify (fun s => set_timers (timers s ++ [(clock s + delay, cb)]) s).

(** JavaScript truthiness of the values the scripts test. *)
Definition nonempty (t : string) : bool :=
  match t with EmptyString => false | _ => true end.
Definition or_default (t fallback : string) : string :=
  if nonempty t then t else fallback.
Definition truthy (b : option bool) : bool :=
  match b with Some true => true | _ => false end.

Definition message_of (e : JsError) : string :=
  match e with TypeError m | ReferenceError m | Error m => m end.

(** ** Error box and loading indicator *)

Definition hideError : M Viewer unit := on_dom (set_errorHidden true).

Definition showError (message : string) : M Viewer unit :=
  (on_dom (set_errorText message) ;;
   on_dom (set_errorHidden false) ;;
   setTimeout HideError 8000)%js.

Definition showLoading : M Viewer unit := on_dom (set_loadingHidden false).
Definition hideLoading : M Viewer unit := on_dom (set_loadingHidden true).
Definition showStoryViewer : M Viewer unit := on_dom (set_viewerHidden false).

(** ** Page elements *)

Inductive ElRef : Type :=
  | CoverRef
  | PageRef (position : nat).

Definition has_id (k : Z) (e : PageEl) : bool :=
  match page_id e with Some i => i =? k | None => false end.

(** [document.getElementById(`page-${k}`)] among the story pages. *)
Fixpoint getPageById (k : Z) (ps : list PageEl) : option nat :=
  match ps with
  | [] => None
  | p :: ps' => if has_id k p then Some O else S <$> getPageById k ps'
  end.

(** [idx === 0 ? getElementById('cover-page') : getElementById(`page-${idx}`)] *)
Definition pageElementFor (idx : Z) (d : Dom) : option ElRef :=
  if idx =? 0 then
    match cover d with Some _ => Some CoverRef | None => None end
  else PageRef <$> getPageById idx (bookPages d).

Definition setFlipped (r : ElRef) (b : bool) (d : Dom) : Dom :=
  match r with
  | CoverRef => set_cover (Some b) d
  | PageRef i => set_bookPages (alter (set_flipped b) i (bookPages d)) d
  end.

Definition createPageElement (page : Page) : PageEl :=
  {| page_id := index page; flipped := false; zIndex := 0; shown := page |}.

Definition with_zIndex (z : Z) (e : PageEl) : PageEl :=
  {| page_id := page_id e; flipped := flipped e; zIndex := z;
     shown := shown e |}.

Fixpoint buildPages (total : Z) (position : Z) (ps : list Page) : list PageEl :=
  match ps with
  | [] => []
  | p :: ps' =>
      with_zIndex (total - position) (createPageElement p)
        :: buildPages total (position + 1) ps'
  end.

(** ** Navigation *)

Definition page_count (story : Story) : Z := Z.of_nat (length (pages story)).

Definition updateNavigationButtons : M Viewer unit :=
  (idx <- gets currentPageIndex ;;
   on_dom (set_prevDisabled (idx =? 0)) ;;
   story <- gets currentStory ;;
   match story with
   | None => throw (TypeError "currentStory is null")
   | Some st =>
       on_dom (set_nextDisabled (idx =? page_count st)) ;;
       on_dom (set_currentPageIndicator (idx + 1))
   end)%js.

(** Neither the reading indicator nor the button label is modelled. *)
Definition stopReading : M Viewer unit :=
  (modify (set_isReadingAloud false) ;;
   available <- gets hasSpeech ;;
   if available then modify (set_speechQueue []) else ret tt)%js.

(** The start sound is not modelled either. *)
Definition startReading : M Viewer unit :=
  (modify (set_isReadingAloud true) ;;
   setTimeout ReadPage 500)%js.

Definition toggleReadAloud : M Viewer unit :=
  (reading <- gets isReadingAloud ;;
   if reading then stopReading else startReading)%js.

Definition goToPreviousPage : M Viewer unit :=
  (idx <- gets currentPageIndex ;;
   if idx >? 0 then
     reading <- gets isReadingAloud ;;
     (if reading then stopReading else ret tt) ;;
     modify (set_currentPageIndex (idx - 1)) ;;
     d <- gets dom ;;
     match pageElementFor (idx - 1) d with
     | Some r => on_dom (setFlipped r false)
     | None => ret tt
     end ;;
     updateNavigationButtons ;;
     reading' <- gets isReadingAloud ;;
     if reading' then setTimeout ReadPage 500 else ret tt
   else ret tt)%js.

Definition goToNextPage : M Viewer unit :=
  (idx <- gets currentPageIndex ;;
   story <- gets currentStory ;;
   match story with
   | None => throw (TypeError "currentStory is null")
   | Some st =>
       if idx <? page_count st then
         reading <- gets isReadingAloud ;;
         (if reading then stopReading else ret tt) ;;
         d <- gets dom ;;
         match pageElementFor idx d with
         | Some r =>
             on_dom (setFlipped r true) ;;
             setTimeout CommitFlip 50
         | None =>
             modify (set_currentPageIndex (idx + 1)) ;;
             updateNavigationButtons
         end
       else ret tt
   end)%js.

(** The closure [goToNextPage] defers by 50 ms. *)
Definition commitFlip : M Viewer unit :=
  (modify (fun s => set_currentPageIndex (currentPageIndex s + 1) s) ;;
   updateNavigationButtons ;;
   reading <- gets isReadingAloud ;;
   if reading then setTimeout ReadPage 300 else ret tt)%js.

Definition resetToForm : M Viewer unit :=
  (reading <- gets isReadingAloud ;;
   (if reading then stopReading else ret tt) ;;
   modify (set_currentStory None) ;;
   modify (set_currentPageIndex 0) ;;
   on_dom (set_viewerHidden true))%js.

(** ** Story display *)

Definition displayStory (story : Story) : M Viewer unit :=
  (modify (set_currentPageIndex 0) ;;
   on_dom (set_storyTitle (title story)) ;;
   match pages story !! 0%nat with
   | Some first =>
       on_dom (fun d =>
         match coverImage d with
         | Some _ => set_coverImage (Some (Some (image_url first))) d
         | None => d
         end)
   | None => ret tt
   end ;;
   d <- gets dom ;;
   (if negb (traditionalHidden d) then
      on_dom (set_bookPages (buildPages (page_count story) 0 (pages story))) ;;
      on_dom (set_totalPagesIndicator (page_count story + 1)) ;;
      on_dom (set_currentPageIndicator 1) ;;
      updateNavigationButtons
    else ret tt) ;;
   modify (fun s => set_dispatched (dispatched s ++ [story]) s))%js.

(** What [fetch('/generate')] came to: a rejected promise (network error,
    or a body that is not JSON) with the error's message; a response that
    is not ok with its [detail] (empty when absent); or the story. *)
Inductive FetchOutcome : Type :=
  | Rejected (message : string)
  | NotOk (detail : string)
  | Fulfilled (storyData : Story).

(** [handleGenerateStory] up to the [await]: [prompt] is the trimmed input. *)
Definition handleGenerateStory_begin (prompt : string) : M Viewer unit :=
  if nonempty prompt then showLoading
  else showError "Please enter a story prompt".

(** [handleGenerateStory] from the [await] on. *)
Definition handleGenerateStory_settle (o : FetchOutcome) : M Viewer unit :=
  finally
    (try_catch
       (match o with
        | Rejected message => throw (Error message)
        | NotOk detail =>
            throw (Error (or_default detail "Failed to generate story"))
        | Fulfilled storyData =>
            (modify (set_currentStory (Some storyData)) ;;
             displayStory storyData ;;
             showStoryViewer)%js
        end)
       (fun e => showError (or_default (message_of e)
                   "An error occurred while generating your story")))
    (exec hideLoading).

(** ** Narration *)

Definition introduction (story : Story) : string :=
  "Hello there! Let me read you a story called " +:+ title story +:+
  ". This story is perfect for children ages " +:+ age_range story +:+
  ". Let's begin our adventure!".

(** [story.pages[idx - 1]] *)
Definition page_before (idx : Z) (story : Story) : option Page :=
  if idx - 1 <? 0 then None else pages story !! Z.to_nat (idx - 1).

Definition cancel : M Viewer unit := modify (set_speechQueue []).

Definition speak (u : Utterance) : M Viewer unit :=
  modify (fun s => set_speechQueue (speechQueue s ++ [u]) s).

(** The text [readCurrentPage] picks for page [idx]: the introduction on
    the cover, the page's text otherwise, nothing when there is no such
    page. *)
Definition textToRead (idx : Z) (story : Story) : string :=
  if idx =? 0 then introduction story
  else match page_before idx story with
       | Some p => text p
       | None => ""
       end.

(** [readCurrentPage] of the main script.  Voice, rate and pitch of the
    utterance are not modelled. *)
Definition readCurrentPage : M Viewer unit :=
  (available <- gets hasSpeech ;;
   if negb available then ret tt
   else
     cancel ;;
     idx <- gets currentPageIndex ;;
     story <- gets currentStory ;;
     match story with
     | None => throw (TypeError "currentStory is null")
     | Some st =>
         if nonempty (textToRead idx st) then
           let u := {| spoken := textToRead idx st; by_override := false |} in
           modify (set_speechUtterance (Some u)) ;;
           speak u
         else ret tt
     end)%js.

Section Scripts.

(** The auto-advance closures call a global [nextPage], which neither
    script defines: its effect is a parameter. *)
Variable nextPage : M Viewer unit.

(** [window.enhanceStoryText]: the voice script rewrites the text with a
    chain of regular-expression replacements (pauses, emphasis, prosody).
    Narration control does not depend on what it returns, so the function
    is a parameter. *)
Variable enhanceStoryText : string -> string.

(** Whether the voice script has replaced [window.readCurrentPage]. *)
Variable voiceScriptLoaded : bool.

(** The text the replacement picks, read through [window]; reading a
    property of an undefined [window.currentStory] throws. *)
Definition textToRead_window (w : Window) : Result string :=
  if match w_currentPageIndex w with Some 0 => true | _ => false end then
    match w_currentStory w with
    | None => Throw (TypeError "window.currentStory is undefined")
    | Some st => Ok (introduction st)
    end
  else
    match w_currentStory w with
    | None => Throw (TypeError "window.currentStory is undefined")
    | Some st =>
        Ok match w_currentPageIndex w with
           | None => ""
           | Some idx =>
               match page_before idx st with
               | Some p => text p
               | None => ""
               end
           end
    end.

(** The replacement installed by the voice script. *)
Definition readCurrentPage_override : M Viewer unit :=
  (available <- gets hasSpeech ;;
   if negb available then ret tt
   else
     cancel ;;
     w <- gets win ;;
     textToRead <- lift (textToRead_window w) ;;
     if nonempty textToRead then
       expressive <- gets enhancedExpression ;;
       let textToRead' :=
         match expressive with
         | Some false => textToRead
         | _ => enhanceStoryText textToRead
         end in
       let u := {| spoken := textToRead'; by_override := true |} in
       modify (fun s => set_win (set_w_speechUtterance (Some u) (win s)) s) ;;
       speak u
     else ret tt)%js.

Definition callReadCurrentPage : M Viewer unit :=
  if voiceScriptLoaded then readCurrentPage_override else readCurrentPage.

(** The narration flag an utterance's [onend] closure tests: the main
    script's closure reads [isReadingAloud], the voice script's reads
    [window.isReadingAloud]. *)
Definition still_reading (u : Utterance) (s : Viewer) : bool :=
  if by_override u then truthy (w_isReadingAloud (win s))
  else isReadingAloud s.

(** The [onend] closure of an utterance. *)
Definition onend (u : Utterance) : M Viewer unit :=
  (s <- gets id ;;
   if still_reading u s && truthy (autoTurnPages s)
   then setTimeout AutoAdvance 1000
   else ret tt)%js.

(** The utterance being spoken reaches its end. *)
Definition utteranceEnds : M Viewer unit :=
  (q <- gets speechQueue ;;
   match q with
   | u :: rest => modify (set_speechQueue rest) ;; onend u
   | [] => ret tt
   end)%js.

Definition run_callback (cb : Callback) : M Viewer unit :=
  match cb with
  | HideError => hideError
  | CommitFlip => commitFlip
  | ReadPage => callReadCurrentPage
  | AutoAdvance => nextPage
  end.

Definition fireTimer : M Viewer unit :=
  (s <- gets id ;;
   match pop_due (clock s) (timers s) with
   | Some (cb, rest) => modify (set_timers rest) ;; run_callback cb
   | None => ret tt
   end)%js.

Definition handleSwipe : M Viewer unit :=
  (s <- gets id ;;
   let swipeThreshold := 50 in
   if touchEndX s <? touchStartX s - swipeThreshold then goToNextPage
   else if touchEndX s >? touchStartX s + swipeThreshold then goToPreviousPage
   else ret tt)%js.

Definition restartReading : M Viewer unit :=
  (stopReading ;; startReading)%js.

Inductive Event : Type :=
  | ClickGenerate (prompt : string)
  | GenerateSettles (o : FetchOutcome)
  | ClickBackToForm
  | ClickToggleReadAloud
  | ClickPrevPage
  | ClickNextPage
  | ClickCloseError
  | TouchStart (screenX : Z)
  | TouchEnd (screenX : Z)
  | VoiceSelected
  | VoiceSettingsChanged (expressive : bool)
  | UtteranceEnds
  | CancelledUtteranceEnds (u : Utterance)
  | Elapse (ms : N)
  | TimerFires.

(** A disabled button receives no click. *)
Definition handle (ev : Event) : M Viewer unit :=
  match ev with
  | ClickGenerate prompt => handleGenerateStory_begin prompt
  | GenerateSettles o => handleGenerateStory_settle o
  | ClickBackToForm => resetToForm
  | ClickToggleReadAloud => toggleReadAloud
  | ClickPrevPage =>
      (d <- gets dom ;; if prevDisabled d then ret tt else goToPreviousPage)%js
  | ClickNextPage =>
      (d <- gets dom ;; if nextDisabled d then ret tt else goToNextPage)%js
  | ClickCloseError => hideError
  | TouchStart x => modify (set_touchStartX x)
  | TouchEnd x => (modify (set_touchEndX x) ;; handleSwipe)%js
  | VoiceSelected =>
      (reading <- gets isReadingAloud ;;
       if reading then restartReading else ret tt)%js
  | VoiceSettingsChanged expressive =>
      (modify (set_enhancedExpression (Some expressive)) ;;
       w <- gets win ;;
       if truthy (w_isReadingAloud w) then restartReading else ret tt)%js
  | UtteranceEnds => utteranceEnds
  | CancelledUtteranceEnds u => onend u
  | Elapse ms => modify (fun s => set_clock (clock s + Z.of_N ms) s)
  | TimerFires => fireTimer
  end.

Definition step (ev : Event) (s : Viewer) : Viewer := exec (handle ev) s.

Definition run (evs : list Event) (s : Viewer) : Viewer :=
  fold_left (fun s ev => step ev s) evs s.

End Scripts.

(** The synthesizer holds at most one utterance. *)
Definition quiet (s : Viewer) : Prop := (length (speechQueue s) <= 1)%nat.

(** The message the error box shows when the request fails. *)
Definition failure_message (o : FetchOutcome) : option string :=
  match o with
  | Rejected message =>
      Some (or_default message "An error occurred while generating your story")
  | NotOk detail =>
      Some (or_default (or_default detail "Failed to generate story")
              "An error occurred while generating your story")
  | Fulfilled _ => None
  end.

(** The page turns of [goToNextPage] whose commit has not run yet. *)
Definition is_commit (t : Z * Callback) : bool :=
  match snd t with CommitFlip => true | _ => false end.

Definition turns_in_flight (s : Viewer) : nat :=
  length (List.filter is_commit (timers s)).

(** Modelled from the spec: the global [nextPage] is absent from the
    scripts; the narration controller "issues exactly one requestNext()",
    and the viewer's requestNext is [goToNextPage]. *)
Definition nextPage_requestNext : M Viewer unit := goToNextPage.

(** The page as first loaded: the form is shown, no story. *)
Definition initial_dom : Dom :=
  {| cover := Some false; coverImage := Some None; bookPages := [];
     traditionalHidden := false; prevDisabled := false;
     nextDisabled := false; currentPageIndicator := 1;
     totalPagesIndicator := 1; storyTitle := ""; errorText := "";
     errorHidden := true; loadingHidden := true; viewerHidden := true |}.

Definition initial : Viewer :=
  {| currentStory := None; currentPageIndex := 0; isReadingAloud := false;
     speechUtterance := None; touchStartX := 0; touchEndX := 0;
     hasSpeech := true; speechQueue := []; win := undefined_window;
     autoTurnPages := Some true; enhancedExpression := None;
     dispatched := []; dom := initial_dom; timers := []; clock := 0 |}.

(** A two-page story as the backend numbers it, the viewer showing it,
    and the viewer on page 1 while the turn to page 2 is in flight. *)
Definition two_pages : Story :=
  {| title := "The Brave Dragon"; age_range := "4-8";
     pages := [ {| index := Some 1; text := "Once upon a time";
                   image_url := "/img/1.png" |};
                {| index := Some 2; text := "The end";
                   image_url := "/img/2.png" |} ] |}.

Definition play : list Event -> Viewer -> Viewer :=
  run nextPage_requestNext (fun t => t) false.

Definition loaded : Viewer := play [GenerateSettles (Fulfilled two_pages)] initial.

Definition turning_second : Viewer :=
  play [ClickNextPage; Elapse 50; TimerFires; ClickNextPage] loaded.

(** The viewer reading the cover aloud: the button was pressed and the
    first utterance is being spoken. *)
Definition reading_cover : Viewer :=
  play [ClickToggleReadAloud; Elapse 500; TimerFires] loaded.

Definition cover_utterance : Utterance :=
  {| spoken := introduction two_pages; by_override := false |}.

(** The viewer on the end page. *)
Definition at_end : Viewer :=
  play [ClickNextPage; Elapse 50; TimerFires;
        ClickNextPage; Elapse 50; TimerFires] loaded.

(** A story without pages, and the viewer once it has been stored. *)
Definition no_pages : Story :=
  {| title := "Untitled"; age_range := "4-8"; pages := [] |}.

Definition holding_no_pages : Viewer := set_currentStory (Some no_pages) initial.

(** A one-page story. *)
Definition one_page : Story :=
  {| title := "The Tiny Seed"; age_range := "4-8";
     pages := [ {| index := Some 1; text := "A seed slept";
                   image_url := "/img/seed.png" |} ] |}.

(** The buttons and the page indicator as [updateNavigationButtons]
    leaves them for the story [st]. *)
Definition buttons_agree (st : Story) (s : Viewer) : Prop :=
  prevDisabled (dom s) = (currentPageIndex s =? 0) /\
  nextDisabled (dom s) = (currentPageIndex s =? page_count st) /\
  currentPageIndicator (dom s) = currentPageIndex s + 1.

(** The viewer showing [st] with nothing scheduled. *)
Definition showing (st : Story) (s : Viewer) : Prop :=
  currentStory s = Some st /\ timers s = [] /\
  0 <= currentPageIndex s <= page_count st /\ buttons_agree st s.

(** A click on "next" that is waited for. *)
Definition next_turn : list Event := [ClickNextPage; Elapse 50; TimerFires].

Fixpoint times (n : nat) (evs : list Event) : list Event :=
  match n with
  | O => []
  | S n' => evs ++ times n' evs
  end.

(** Pages numbered from 1 in order, as the backend sends them. *)
Definition numbered (ps : list Page) : Prop :=
  forall (i : nat) p, ps !! i = Some p -> index p = Some (Z.of_nat i + 1).


End Viewer.

(** * The flipbook component: loading a story *)

Module Flipbook.

Inductive PageType : Type := CoverPage | StoryPage | EndPage | WelcomePage.

Inductive Heading : Type :=
  | Titled (t : string)
  | Chapter (n : Z).

Record FlipPage : Type :=
  { heading : Heading;
    body : string;
    picture : option string;
    pageNumber : Z;
    type : PageType }.

(** Component state, plus whether the component is mounted (and
    [window.flipbookAPI] exposed) and the page the widget was turned to. *)
Record Flipbook : Type :=
  { fpages : list FlipPage;
    currentPage : Z;
    totalPages : Z;
    mounted : bool;
    widgetPage : Z }.

Fixpoint storyPagesFrom (i : Z) (ps : list Page) : list FlipPage :=
  match ps with
  | [] => []
  | p :: ps' =>
      {| heading := Chapter (i + 1); body := text p;
         picture := Some (image_url p); pageNumber := i + 2;
         type := StoryPage |} :: storyPagesFrom (i + 1) ps'
  end.

(** [story.pages[0].image_url] is read while the cover entry is built. *)
Definition addStoryPages (story : Story) : M Flipbook unit :=
  match pages story !! 0%nat with
  | None => throw (TypeError "story.pages[0] is undefined")
  | Some first =>
      let coverPage :=
        {| heading := Titled (title story);
           body := "A magical story for ages " +:+ age_range story;
           picture := Some (image_url first); pageNumber := 1;
           type := CoverPage |} in
      let storyPages := coverPage :: storyPagesFrom 0 (pages story) in
      let endPage :=
        {| heading := Titled "The End!";
           body := "Thank you for reading this magical story! Would you like to create another wonderful tale?";
           picture := None;
           pageNumber := Z.of_nat (length storyPages) + 1;
           type := EndPage |} in
      let storyPages' := storyPages ++ [endPage] in
      modify (fun s =>
        {| fpages := storyPages';
           totalPages := Z.of_nat (length storyPages');
           currentPage := 0;
           mounted := mounted s;
           widgetPage := if mounted s then 0 else widgetPage s |})
  end.

(** The [storyGenerated] listener. *)
Definition onStoryGenerated (story : Story) : M Flipbook unit :=
  (up <- gets mounted ;;
   if up then addStoryPages story else ret tt)%js.

(** The component as mounted, showing nothing yet. *)
Definition mounted_empty : Flipbook :=
  {| fpages := []; currentPage := 0; totalPages := 0; mounted := true;
     widgetPage := 0 |}.

End Flipbook.

(** * Facts about the timer queue *)

Section QueueFacts.
Context {C : Type}.
Implicit Types (q r : Queue C) (c : C) (d t : Z).

Lemma take_due_length d q c r :
  take_due d q = Some (c, r) -> length q = S (length r).
Proof.
  revert c r. induction q as [|[d' c'] q IH]; intros c r; simpl.
  - discriminate.
  - destruct (d' =? d).
    + intros [= <- <-]. reflexivity.
    + destruct (take_due d q) as [[c0 r0]|]; [|discriminate].
      intros [= <- <-]. simpl. f_equal. eapply IH. reflexivity.
Qed.

Lemma pop_due_length t q c r :
  pop_due t q = Some (c, r) -> length q = S (length r).
Proof.
  unfold pop_due. destruct (earliest q) as [d|]; [|discriminate].
  destruct (d <=? t); [|discriminate]. apply take_due_length.
Qed.

Lemma pop_due_single t d c :
  pop_due t [(d, c)] = if d <=? t then Some (c, []) else None.
Proof.
  unfold pop_due. simpl. destruct (d <=? t); [|reflexivity].
  rewrite Z.eqb_refl. reflexivity.
Qed.

(** A queue of at most one timer is emptied by running it. *)
Lemma pop_due_short t q c r :
  (length q <= 1)%nat -> pop_due t q = Some (c, r) -> r = [].
Proof.
  intros Hlen Hpop. apply pop_due_length in Hpop.
  destruct r; [reflexivity | simpl in Hpop; lia].
Qed.

End QueueFacts.

(** * Reasoning through the handler monad *)

Section MonadFacts.
Context {S : Type}.

Lemma bind_ok {A B} (m : M S A) (k : A -> M S B) s a s' :
  m s = (Ok a, s') -> bind m k s = k a s'.
Proof. unfold bind. intros ->. reflexivity. Qed.

Lemma bind_throw {A B} (m : M S A) (k : A -> M S B) s e s' :
  m s = (Throw e, s') -> bind m k s = (Throw e, s').
Proof. unfold bind. intros ->. reflexivity. Qed.

(** A property of states kept by both halves is kept by their sequence,
    whether or not the first half throws. *)
Lemma exec_bind_keeps {A B} (P : S -> Prop) (m : M S A) (k : A -> M S B) :
  (forall s, P s -> P (exec m s)) ->
  (forall a s, P s -> P (exec (k a) s)) ->
  forall s, P s -> P (exec (bind m k) s).
Proof.
  intros Hm Hk s Hs. specialize (Hm s Hs). unfold exec, bind in *.
  destruct (m s) as [[a|e] s']; simpl in *; auto.
Qed.

Lemma exec_try_catch_keeps {A} (P : S -> Prop) (m : M S A)
    (h : JsError -> M S A) :
  (forall s, P s -> P (exec m s)) ->
  (forall e s, P s -> P (exec (h e) s)) ->
  forall s, P s -> P (exec (try_catch m h) s).
Proof.
  intros Hm Hh s Hs. specialize (Hm s Hs). unfold exec, try_catch in *.
  destruct (m s) as [[a|e] s']; simpl in *; auto.
Qed.

(** The same for a relation between the state before and the state
    after, when the relation is a preorder. *)
Lemma exec_bind_relates {A B} (R : S -> S -> Prop) (m : M S A)
    (k : A -> M S B) :
  (forall s1 s2 s3, R s1 s2 -> R s2 s3 -> R s1 s3) ->
  (forall s, R s (exec m s)) ->
  (forall a s, R s (exec (k a) s)) ->
  forall s, R s (exec (bind m k) s).
Proof.
  intros Htrans Hm Hk s. specialize (Hm s). unfold exec, bind in *.
  destruct (m s) as [[a|e] s']; simpl in *; eauto.
Qed.

Lemma exec_try_catch_relates {A} (R : S -> S -> Prop) (m : M S A)
    (h : JsError -> M S A) :
  (forall s1 s2 s3, R s1 s2 -> R s2 s3 -> R s1 s3) ->
  (forall s, R s (exec m s)) ->
  (forall e s, R s (exec (h e) s)) ->
  forall s, R s (exec (try_catch m h) s).
Proof.
  intros Htrans Hm Hh s. specialize (Hm s). unfold exec, try_catch in *.
  destruct (m s) as [[a|e] s']; simpl in *; eauto.
Qed.

Lemma exec_bind_keeps_at {A B} (P : S -> Prop) (m : M S A)
    (k : A -> M S B) s :
  P s ->
  (forall s, P s -> P (exec m s)) ->
  (forall a s, P s -> P (exec (k a) s)) ->
  P (exec (bind m k) s).
Proof. intros Hs Hm Hk. revert s Hs. apply exec_bind_keeps; assumption. Qed.

Lemma exec_try_catch_keeps_at {A} (P : S -> Prop) (m : M S A)
    (h : JsError -> M S A) s :
  P s ->
  (forall s, P s -> P (exec m s)) ->
  (forall e s, P s -> P (exec (h e) s)) ->
  P (exec (try_catch m h) s).
Proof. intros Hs Hm Hh. revert s Hs. apply exec_try_catch_keeps; assumption. Qed.

Lemma repeat_call_fixed (m : M S unit) s n :
  exec m s = s -> repeat_call n m s = s.
Proof.
  intros H. induction n as [|n IH]; simpl; [reflexivity|].
  rewrite H. exact IH.
Qed.

End MonadFacts.

(** * The DOM book: turns, commits and bounds *)

Module BookFacts.
Import Book.

Ltac js_unfold :=
  unfold exec, returns, bind, gets, modify, ret, throw, try_catch, finally in *.

#[local] Arguments updatePageState : simpl never.
#[local] Arguments initializeBook : simpl never.
#[local] Arguments goToNextPage : simpl never.
#[local] Arguments goToPreviousPage : simpl never.

(** What a settle refresh leaves alone. *)
Lemma updatePageState_frame s :
  exists s', updatePageState s = (Ok tt, s') /\
  currentPage s' = currentPage s /\ totalPages s' = totalPages s /\
  isAnimating s' = isAnimating s /\ timers s' = timers s /\
  clock s' = clock s /\ book s' = book s /\
  length (elems s') = length (elems s).
Proof.
  unfold updatePageState, adjustBookPosition, updateAccessibility,
    updatePageIndicators. js_unfold. simpl.
  assert (Hlen : forall cur hs i els,
            length (mark_pages cur i hs els) = length els).
  { intros cur hs. induction hs as [|h hs IH]; intros i els; simpl.
    - reflexivity.
    - rewrite IH. apply length_alter. }
  eexists. split; [reflexivity|].
  destruct (liveRegion s) eqn:E1; destruct (pageIndicator s) eqn:E2; simpl;
    rewrite ?E2; simpl; rewrite ?Hlen; repeat split; reflexivity.
Qed.

(** Replace a call of [updatePageState] by its result. *)
Ltac settle_refresh :=
  match goal with
  | |- context [updatePageState ?s1] =>
      let s2 := fresh "s" in
      let Hupd := fresh "Hupd" in
      let Hc := fresh "Hcur" in let Ht := fresh "Htot" in
      let Ha := fresh "Hanim" in let Hq := fresh "Htim" in
      let Hk := fresh "Hclk" in let Hb := fresh "Hbook" in
      let He := fresh "Hels" in
      destruct (updatePageState_frame s1)
        as (s2 & Hupd & Hc & Ht & Ha & Hq & Hk & Hb & He);
      rewrite Hupd; simpl in Hc, Ht, Ha, Hq, Hk, Hb, He
  end.

(** Requests made while [isAnimating] is set change nothing at all. *)
Lemma goToNextPage_animating s :
  isAnimating s = true -> goToNextPage s = (Ok tt, s).
Proof. intros H. unfold goToNextPage. js_unfold. rewrite H. reflexivity. Qed.

Lemma goToPreviousPage_animating s :
  isAnimating s = true -> goToPreviousPage s = (Ok tt, s).
Proof. intros H. unfold goToPreviousPage. js_unfold. rewrite H. reflexivity. Qed.

Lemma one_turn_goToNextPage s : one_turn s -> one_turn (exec goToNextPage s).
Proof.
  intros [Hlen Hidle]. unfold goToNextPage. js_unfold.
  destruct (isAnimating s) eqn:Ha; simpl.
  - split; [assumption | intros ?; (congruence || (apply Hidle; reflexivity))].
  - destruct (currentPage s >=? totalPages s - 1); simpl.
    + split; [assumption | intros ?; (congruence || (apply Hidle; reflexivity))].
    + unfold querySelectorPage, on_element, setTimeout. js_unfold. simpl.
      destruct (List.find _ (book s)); unfold one_turn; simpl;
        rewrite (Hidle eq_refl); simpl; split; (lia || (intros ?; congruence)).
Qed.

Lemma one_turn_goToPreviousPage s :
  one_turn s -> one_turn (exec goToPreviousPage s).
Proof.
  intros [Hlen Hidle]. unfold goToPreviousPage. js_unfold.
  destruct (isAnimating s) eqn:Ha; simpl.
  - split; [assumption | intros ?; (congruence || (apply Hidle; reflexivity))].
  - destruct (currentPage s <=? 0); simpl.
    + split; [assumption | intros ?; (congruence || (apply Hidle; reflexivity))].
    + unfold querySelectorPage, on_element, setTimeout. js_unfold. simpl.
      destruct (List.find _ (book s)); unfold one_turn; simpl;
        rewrite (Hidle eq_refl); simpl; split; (lia || (intros ?; congruence)).
Qed.

Lemma appendStoryPages_returns ps : forall i s,
  fst (appendStoryPages i ps s) = Ok tt.
Proof.
  induction ps as [|p ps IH]; intros i s; cbn [appendStoryPages].
  - reflexivity.
  - unfold appendChild. js_unfold. simpl. apply IH.
Qed.

Lemma same_turn_trans s1 s2 s3 :
  same_turn s1 s2 -> same_turn s2 s3 -> same_turn s1 s3.
Proof. intros [H1 H2] [H3 H4]. split; congruence. Qed.

Lemma appendChild_same_turn e s : same_turn s (exec (appendChild e) s).
Proof. split; reflexivity. Qed.

Lemma appendStoryPages_same_turn ps : forall i s,
  same_turn s (exec (appendStoryPages i ps) s).
Proof.
  induction ps as [|p ps IH]; intros i s; cbn [appendStoryPages].
  - split; reflexivity.
  - apply exec_bind_relates; intros.
    + eapply same_turn_trans; eassumption.
    + apply appendChild_same_turn.
    + apply IH.
Qed.

Lemma populateBook_same_turn data s :
  same_turn s (exec (populateBook data) s).
Proof.
  unfold populateBook. destruct (pages data !! 0%nat); [|split; reflexivity].
  repeat (apply exec_bind_relates;
          [intros; eapply same_turn_trans; eassumption | intros ..]);
    auto using appendChild_same_turn, appendStoryPages_same_turn.
Qed.

Lemma initializeBook_same_turn s : same_turn s (exec initializeBook s).
Proof.
  unfold initializeBook. js_unfold. settle_refresh.
  split; simpl; assumption.
Qed.

Lemma storyResponse_same_turn r s : same_turn s (exec (storyResponse r) s).
Proof.
  unfold storyResponse.
  apply exec_try_catch_relates;
    [intros; eapply same_turn_trans; eassumption | | split; reflexivity].
  intros s0. destruct r as [data|]; [|split; reflexivity].
  repeat (apply exec_bind_relates;
          [intros; eapply same_turn_trans; eassumption | intros ..]);
    auto using populateBook_same_turn, initializeBook_same_turn.
  split; reflexivity.
Qed.

Lemma one_turn_same s s' : same_turn s s' -> one_turn s -> one_turn s'.
Proof. intros [Ht Ha] [H1 H2]. split; rewrite ?Ht, ?Ha; assumption. Qed.

Lemma one_turn_fireTimer s : one_turn s -> one_turn (exec fireTimer s).
Proof.
  intros [Hlen Hidle]. unfold fireTimer. js_unfold. simpl.
  destruct (pop_due (clock s) (timers s)) as [[cb rest]|] eqn:Hpop;
    [|split; assumption].
  apply pop_due_short in Hpop; [subst rest | assumption].
  destruct cb as [h|h]; unfold run_callback, on_element; js_unfold;
    settle_refresh; split; simpl; rewrite ?Htim; simpl;
    (lia || reflexivity).
Qed.

Lemma one_turn_step ev s : one_turn s -> one_turn (step ev s).
Proof.
  intros H. destruct ev; unfold step, handle.
  - apply one_turn_goToPreviousPage, H.
  - apply one_turn_goToNextPage, H.
  - unfold handleKeyDown. js_unfold. destruct (isAnimating s); [exact H|].
    destruct (String.eqb key "ArrowLeft");
      [apply one_turn_goToPreviousPage, H|].
    destruct (String.eqb key "ArrowRight");
      [apply one_turn_goToNextPage, H | exact H].
  - exact H.
  - unfold handleSwipe. js_unfold. simpl.
    match goal with |- context [if ?b then _ else _] => destruct b end;
      [|exact H].
    match goal with |- context [if ?b then _ else _] => destruct b end.
    + apply (one_turn_goToPreviousPage (set_touchEndX screenX s)), H.
    + apply (one_turn_goToNextPage (set_touchEndX screenX s)), H.
  - eapply one_turn_same; [apply storyResponse_same_turn | exact H].
  - unfold createNewStory. js_unfold. simpl.
    destruct (existsb _ (book s)); exact H.
  - exact H.
  - apply one_turn_fireTimer, H.
Qed.

Lemma one_turn_run evs : forall s, one_turn s -> one_turn (run evs s).
Proof.
  unfold run. induction evs as [|ev evs IH]; intros s H; simpl.
  - exact H.
  - apply IH, one_turn_step, H.
Qed.

(** An accepted forward request: nothing but the [turning] marker and the
    timer changes at once; the index moves when the timer runs. *)
Lemma goToNextPage_accepted s h :
  isAnimating s = false ->
  currentPage s < totalPages s - 1 ->
  querySelectorPage (currentPage s) s = Some h ->
  goToNextPage s =
    (Ok tt,
     set_timers (timers s ++ [(clock s + 600, CommitNext h)])
       (set_elems (alter (set_turning true) h (elems s))
          (set_isAnimating true s))).
Proof.
  intros Ha Hlt Hq. unfold goToNextPage. js_unfold. rewrite Ha. simpl.
  destruct (currentPage s >=? totalPages s - 1) eqn:Hge; [lia|].
  unfold querySelectorPage in *. simpl. rewrite Hq. reflexivity.
Qed.

(** An accepted backward request: the index moves at once. *)
Lemma goToPreviousPage_accepted s h :
  isAnimating s = false ->
  0 < currentPage s ->
  querySelectorPage (currentPage s - 1) s = Some h ->
  goToPreviousPage s =
    (Ok tt,
     set_timers (timers s ++ [(clock s + 600, CommitPrevious h)])
       (set_elems (alter (set_returning true) h (elems s))
          (set_currentPage (currentPage s - 1) (set_isAnimating true s)))).
Proof.
  intros Ha Hlt Hq. unfold goToPreviousPage. js_unfold. rewrite Ha. simpl.
  destruct (currentPage s <=? 0) eqn:Hle; [lia|].
  unfold querySelectorPage in *. simpl. rewrite Hq. reflexivity.
Qed.

(** A lone timer cannot run before it is due. *)
Lemma lone_timer_waits s due cb ms :
  timers s = [(due, cb)] -> clock s + Z.of_N ms < due ->
  step TimerFires (step (Elapse ms) s) = step (Elapse ms) s.
Proof.
  intros Hq Hlt. unfold step, handle, fireTimer. js_unfold. simpl.
  rewrite Hq, pop_due_single.
  destruct (due <=? clock s + Z.of_N ms) eqn:Hle; [lia|]. reflexivity.
Qed.

(** Once due, it runs and leaves the queue empty. *)
Lemma lone_timer_runs s due cb ms :
  timers s = [(due, cb)] -> due <= clock s + Z.of_N ms ->
  step TimerFires (step (Elapse ms) s) =
    exec (run_callback cb)
      (set_timers [] (set_clock (clock s + Z.of_N ms) s)).
Proof.
  intros Hq Hle. unfold step, handle, fireTimer. js_unfold. simpl.
  rewrite Hq, pop_due_single.
  destruct (due <=? clock s + Z.of_N ms) eqn:Hle'; [|lia]. reflexivity.
Qed.

Lemma no_timer_no_run s : timers s = [] -> step TimerFires s = s.
Proof.
  intros Hq. unfold step, handle, fireTimer. js_unfold. simpl.
  rewrite Hq. reflexivity.
Qed.

Lemma commit_settles cb s :
  timers s = [] ->
  let s' := exec (run_callback cb) s in
  isAnimating s' = false /\ timers s' = [] /\
  currentPage s' =
    match cb with
    | CommitNext _ => currentPage s + 1
    | CommitPrevious _ => currentPage s
    end.
Proof.
  intros Hq. destruct cb as [h|h]; unfold run_callback, on_element;
    js_unfold; settle_refresh; simpl; rewrite Htim, Hanim, Hcur;
    repeat split; assumption.
Qed.

(** C1 (amended to the DOM book): from a book with no timer pending, at
    most one commit timer is pending after any sequence of events, and
    whenever [isAnimating] is set both [goToNextPage] and
    [goToPreviousPage] return without changing anything: the request is
    dropped, not queued. *)
Theorem book_requests_dropped_while_animating
    (s0 : Book) (evs : list Event) (Hcalm : timers s0 = []) :
  let s := run evs s0 in
  (length (timers s) <= 1)%nat /\
  (isAnimating s = true ->
   goToNextPage s = (Ok tt, s) /\ goToPreviousPage s = (Ok tt, s)).
Proof.
  intros s. split.
  - apply (one_turn_run evs s0). split; rewrite Hcalm; simpl; [lia|reflexivity].
  - intros Ha. split.
    + apply goToNextPage_animating, Ha.
    + apply goToPreviousPage_animating, Ha.
Qed.

Lemma book_requests_dropped_while_animating_witness :
  let s := run [ClickRightTurn] loaded in
  isAnimating s = true /\
  (length (timers s) <= 1)%nat /\
  goToNextPage s = (Ok tt, s) /\ goToPreviousPage s = (Ok tt, s).
Proof.
  intros s.
  destruct (book_requests_dropped_while_animating loaded [ClickRightTurn]
              eq_refl) as [Hone Hdrop].
  split; [reflexivity|]. split; [exact Hone|].
  apply Hdrop. reflexivity.
Defined.

(** C2, counterexample: on page 1 with nothing in flight,
    [goToPreviousPage] has already decremented [currentPage] when it
    returns: the clock has not moved and the commit is still queued. *)
Lemma book_previous_moves_index_at_once :
  isAnimating on_page_one = false /\ timers on_page_one = [] /\
  currentPage on_page_one = 1 /\
  currentPage (exec goToPreviousPage on_page_one) = 0 /\
  clock (exec goToPreviousPage on_page_one) = clock on_page_one /\
  timers (exec goToPreviousPage on_page_one) =
    [(clock on_page_one + 600, CommitPrevious 0%nat)].
Proof. vm_compute. repeat split. Qed.

(** C2 (amended): in a book reached from one with no timer pending and
    not animating, an accepted request whose page element is in the book
    registers exactly one commit, due 600 ms later; the commit cannot run
    earlier, runs once, and leaves [isAnimating] cleared.  For
    [goToNextPage] the index is untouched until the commit, which adds 1;
    for [goToPreviousPage] the index has dropped by 1 when the request
    returns and the commit leaves it there. *)
Theorem book_commit_is_deferred
    (s0 : Book) (evs : list Event)
    (Hcalm : timers s0 = []) (Hidle : isAnimating (run evs s0) = false) :
  let s := run evs s0 in
  (forall h,
     currentPage s < totalPages s - 1 ->
     querySelectorPage (currentPage s) s = Some h ->
     let s1 := exec goToNextPage s in
     returns goToNextPage s = true /\
     currentPage s1 = currentPage s /\ isAnimating s1 = true /\
     clock s1 = clock s /\
     timers s1 = [(clock s + 600, CommitNext h)] /\
     (forall ms, Z.of_N ms < 600 ->
        step TimerFires (step (Elapse ms) s1) = step (Elapse ms) s1) /\
     (forall ms, 600 <= Z.of_N ms ->
        let s2 := step TimerFires (step (Elapse ms) s1) in
        currentPage s2 = currentPage s + 1 /\ isAnimating s2 = false /\
        timers s2 = [] /\ step TimerFires s2 = s2)) /\
  (forall h,
     0 < currentPage s ->
     querySelectorPage (currentPage s - 1) s = Some h ->
     let s1 := exec goToPreviousPage s in
     returns goToPreviousPage s = true /\
     currentPage s1 = currentPage s - 1 /\ isAnimating s1 = true /\
     clock s1 = clock s /\
     timers s1 = [(clock s + 600, CommitPrevious h)] /\
     (forall ms, Z.of_N ms < 600 ->
        step TimerFires (step (Elapse ms) s1) = step (Elapse ms) s1) /\
     (forall ms, 600 <= Z.of_N ms ->
        let s2 := step TimerFires (step (Elapse ms) s1) in
        currentPage s2 = currentPage s - 1 /\ isAnimating s2 = false /\
        timers s2 = [] /\ step TimerFires s2 = s2)).
Proof.
  intros s.
  assert (Hq : timers s = []).
  { apply (one_turn_run evs s0); [|exact Hidle].
    split; rewrite Hcalm; simpl; [lia|reflexivity]. }
  split; intros h Hpos Hel s1.
  - assert (Hs1 : s1 = set_timers (timers s ++ [(clock s + 600, CommitNext h)])
                   (set_elems (alter (set_turning true) h (elems s))
                      (set_isAnimating true s))).
    { unfold s1, exec. rewrite (goToNextPage_accepted s h); auto. }
    assert (Ht1 : timers s1 = [(clock s + 600, CommitNext h)]).
    { rewrite Hs1. simpl. rewrite Hq. reflexivity. }
    assert (Hc1 : clock s1 = clock s) by (rewrite Hs1; reflexivity).
    split; [unfold returns; rewrite (goToNextPage_accepted s h); auto|].
    split; [rewrite Hs1; reflexivity|].
    split; [rewrite Hs1; reflexivity|].
    split; [exact Hc1|]. split; [exact Ht1|]. split.
    + intros ms Hms. eapply lone_timer_waits; [exact Ht1 | lia].
    + intros ms Hms s2.
      unfold s2. rewrite (lone_timer_runs s1 _ _ ms Ht1) by lia.
      match goal with |- context [exec (run_callback ?cb) ?s3] =>
        destruct (commit_settles cb s3 eq_refl) as (Ha & Ht & Hc) end.
      rewrite Ha, Ht, Hc. repeat split; try reflexivity.
      * rewrite Hs1. reflexivity.
      * apply no_timer_no_run, Ht.
  - assert (Hs1 : s1 = set_timers
                   (timers s ++ [(clock s + 600, CommitPrevious h)])
                   (set_elems (alter (set_returning true) h (elems s))
                      (set_currentPage (currentPage s - 1)
                         (set_isAnimating true s)))).
    { unfold s1, exec. rewrite (goToPreviousPage_accepted s h); auto. }
    assert (Ht1 : timers s1 = [(clock s + 600, CommitPrevious h)]).
    { rewrite Hs1. simpl. rewrite Hq. reflexivity. }
    assert (Hc1 : clock s1 = clock s) by (rewrite Hs1; reflexivity).
    split; [unfold returns; rewrite (goToPreviousPage_accepted s h); auto|].
    split; [rewrite Hs1; reflexivity|].
    split; [rewrite Hs1; reflexivity|].
    split; [exact Hc1|]. split; [exact Ht1|]. split.
    + intros ms Hms. eapply lone_timer_waits; [exact Ht1 | lia].
    + intros ms Hms s2.
      unfold s2. rewrite (lone_timer_runs s1 _ _ ms Ht1) by lia.
      match goal with |- context [exec (run_callback ?cb) ?s3] =>
        destruct (commit_settles cb s3 eq_refl) as (Ha & Ht & Hc) end.
      rewrite Ha, Ht, Hc. repeat split; try reflexivity.
      * rewrite Hs1. reflexivity.
      * apply no_timer_no_run, Ht.
Qed.

Lemma book_commit_is_deferred_witness :
  let s := run [ClickRightTurn; Elapse 600; TimerFires] loaded in
  timers loaded = [] /\ isAnimating s = false /\
  currentPage s = 1 /\
  currentPage (exec goToNextPage s) = 1 /\
  currentPage (step TimerFires (step (Elapse 600) (exec goToNextPage s))) = 2 /\
  currentPage (exec goToPreviousPage s) = 0 /\
  currentPage
    (step TimerFires (step (Elapse 600) (exec goToPreviousPage s))) = 0.
Proof.
  intros s.
  assert (Hcalm : timers loaded = []) by (vm_compute; reflexivity).
  assert (Hidle : isAnimating s = false) by (vm_compute; reflexivity).
  assert (Hcur : currentPage s = 1) by (vm_compute; reflexivity).
  destruct (book_commit_is_deferred loaded
              [ClickRightTurn; Elapse 600; TimerFires] Hcalm Hidle)
    as [Hnext Hprev].
  fold s in Hnext, Hprev.
  assert (Hlt : currentPage s < totalPages s - 1) by (vm_compute; reflexivity).
  assert (Hel : querySelectorPage (currentPage s) s = Some 1%nat)
    by (vm_compute; reflexivity).
  assert (Hgt : 0 < currentPage s) by (vm_compute; reflexivity).
  assert (Hel' : querySelectorPage (currentPage s - 1) s = Some 0%nat)
    by (vm_compute; reflexivity).
  destruct (Hnext 1%nat Hlt Hel) as (_ & Hn1 & _ & _ & _ & _ & Hn2).
  destruct (Hprev 0%nat Hgt Hel') as (_ & Hp1 & _ & _ & _ & _ & Hp2).
  destruct (Hn2 600%N ltac:(lia)) as (Hn3 & _).
  destruct (Hp2 600%N ltac:(lia)) as (Hp3 & _).
  rewrite Hn1, Hn3, Hp1, Hp3, Hcur.
  repeat split; reflexivity.
Defined.

(** A second [handleSwipe] in the same event is dropped or repeats the
    same no-op. *)
Lemma handleSwipe_twice s :
  exec handleSwipe (exec handleSwipe s) = exec handleSwipe s.
Proof.
  unfold handleSwipe. js_unfold. simpl.
  destruct (Z.abs (touchEndX s - touchStartX s) >? minSwipeDistance) eqn:Hfar;
    simpl; [|rewrite Hfar; reflexivity].
  destruct (touchEndX s - touchStartX s >? 0) eqn:Hdir.
  - unfold goToPreviousPage. js_unfold.
    destruct (isAnimating s) eqn:Ha; simpl;
      [rewrite Hfar, Hdir, Ha; reflexivity|].
    destruct (currentPage s <=? 0) eqn:Hle; simpl;
      [rewrite Hfar, Hdir, Ha, Hle; reflexivity|].
    unfold querySelectorPage, on_element, setTimeout. js_unfold. simpl.
    destruct (List.find _ (book s)); simpl; rewrite Hfar, Hdir; reflexivity.
  - unfold goToNextPage. js_unfold.
    destruct (isAnimating s) eqn:Ha; simpl;
      [rewrite Hfar, Hdir, Ha; reflexivity|].
    destruct (currentPage s >=? totalPages s - 1) eqn:Hge; simpl;
      [rewrite Hfar, Hdir, Ha, Hge; reflexivity|].
    unfold querySelectorPage, on_element, setTimeout. js_unfold. simpl.
    destruct (List.find _ (book s)); simpl; rewrite Hfar, Hdir; reflexivity.
Qed.

(** ** The cursor stays inside the book *)

Lemma appendStoryPages_effect ps : forall i s,
  exists s', appendStoryPages i ps s = (Ok tt, s') /\
    (length (book s) <= length (book s'))%nat /\
    timers s' = timers s /\ isAnimating s' = isAnimating s /\
    currentPage s' = currentPage s /\ totalPages s' = totalPages s.
Proof.
  induction ps as [|p ps IH]; intros i s; cbn [appendStoryPages].
  - exists s. repeat split; (reflexivity || lia).
  - unfold appendChild. js_unfold. cbn beta iota.
    match goal with |- context [appendStoryPages ?j ps ?s1] =>
      destruct (IH j s1) as (s' & -> & Hlen & Ht & Ha & Hc & Hn) end.
    exists s'. simpl in *. rewrite length_app in Hlen. simpl in Hlen.
    repeat split; (assumption || lia).
Qed.

Lemma populateBook_effect data s :
  populateBook data s = (Throw (TypeError "pages[0] is undefined"), s) \/
  exists s', populateBook data s = (Ok tt, s') /\
    (2 <= length (book s'))%nat /\
    timers s' = timers s /\ isAnimating s' = isAnimating s.
Proof.
  unfold populateBook. destruct (pages data !! 0%nat); [right|left; reflexivity].
  unfold appendChild at 1. js_unfold. cbn beta iota.
  match goal with |- context [appendStoryPages ?j ?l ?s1] =>
    destruct (appendStoryPages_effect l j s1)
      as (s2 & -> & Hlen & Ht & Ha & _) end.
  unfold appendChild. js_unfold. simpl in *.
  eexists. split; [reflexivity|]. simpl.
  rewrite length_app in *. simpl in *. repeat split; (assumption || lia).
Qed.

(** A response either leaves the cursor alone or resets it to the cover
    of a book of at least two pages. *)
Lemma storyResponse_effect r s :
  let s' := exec (storyResponse r) s in
  same_turn s s' /\
  ((currentPage s' = currentPage s /\ totalPages s' = totalPages s) \/
   (currentPage s' = 0 /\ 2 <= totalPages s')).
Proof.
  intros s'. split; [apply storyResponse_same_turn|].
  unfold s', storyResponse. unfold exec, try_catch.
  destruct r as [data|]; [|left; split; reflexivity].
  destruct (populateBook_effect data s) as [Hpop | (s1 & Hpop & Hlen & _)].
  - rewrite (bind_throw _ _ _ _ _ Hpop). left. split; reflexivity.
  - rewrite (bind_ok _ _ _ _ _ Hpop). right.
    unfold initializeBook. js_unfold. settle_refresh. simpl.
    rewrite Hcur, Htot. simpl. split; [reflexivity | lia].
Qed.

Lemma headroom_goToNextPage s :
  one_turn s -> headroom s -> headroom (exec goToNextPage s).
Proof.
  intros [_ Hidle] [H0 Hb]. unfold goToNextPage. js_unfold.
  destruct (isAnimating s) eqn:Ha; simpl; [split; assumption|].
  destruct (currentPage s >=? totalPages s - 1) eqn:Hge; simpl;
    [split; assumption|].
  unfold querySelectorPage, on_element, setTimeout. js_unfold. simpl.
  destruct (List.find _ (book s)); unfold headroom; simpl;
    rewrite (Hidle eq_refl) in *; simpl in *; lia.
Qed.

Lemma headroom_goToPreviousPage s :
  one_turn s -> headroom s -> headroom (exec goToPreviousPage s).
Proof.
  intros [_ Hidle] [H0 Hb]. unfold goToPreviousPage. js_unfold.
  destruct (isAnimating s) eqn:Ha; simpl; [split; assumption|].
  destruct (currentPage s <=? 0) eqn:Hle; simpl; [split; assumption|].
  unfold querySelectorPage, on_element, setTimeout. js_unfold. simpl.
  destruct (List.find _ (book s)); unfold headroom; simpl;
    rewrite (Hidle eq_refl) in *; simpl in *; lia.
Qed.

Lemma headroom_fireTimer s :
  one_turn s -> headroom s -> headroom (exec fireTimer s).
Proof.
  intros [Hlen _] [H0 Hb]. unfold fireTimer. js_unfold. simpl.
  destruct (timers s) as [|[d cb] [|t q]] eqn:Hq; simpl in Hlen; [| |lia].
  - simpl. split; rewrite ?Hq; assumption.
  - rewrite pop_due_single.
    destruct (d <=? clock s); [|simpl; split; rewrite ?Hq; assumption].
    destruct cb as [h|h]; unfold run_callback, on_element; js_unfold;
      settle_refresh; unfold headroom; simpl in *;
      rewrite Hcur, Htot, Htim; simpl; lia.
Qed.

Lemma headroom_step ev s :
  one_turn s -> headroom s -> headroom (step ev s).
Proof.
  intros Hone H. destruct ev; unfold step, handle.
  - apply headroom_goToPreviousPage; assumption.
  - apply headroom_goToNextPage; assumption.
  - unfold handleKeyDown. js_unfold. destruct (isAnimating s); [exact H|].
    destruct (String.eqb key "ArrowLeft");
      [apply headroom_goToPreviousPage; assumption|].
    destruct (String.eqb key "ArrowRight");
      [apply headroom_goToNextPage; assumption | exact H].
  - exact H.
  - unfold handleSwipe. js_unfold. simpl.
    match goal with |- context [if ?b then _ else _] => destruct b end;
      [|exact H].
    match goal with |- context [if ?b then _ else _] => destruct b end.
    + apply (headroom_goToPreviousPage (set_touchEndX screenX s));
        assumption.
    + apply (headroom_goToNextPage (set_touchEndX screenX s)); assumption.
  - destruct (storyResponse_effect r s) as ([Ht _] & [[Hc Hn] | [Hc Hn]]);
      destruct H as [H0 Hb]; destruct Hone as [Hlen _];
      unfold headroom; rewrite Ht, Hc; [rewrite Hn; lia|].
    split; [lia|].
    destruct (timers s) as [|[d [h|h]] q]; simpl; lia.
  - unfold createNewStory. js_unfold. simpl.
    destruct (existsb _ (book s)); exact H.
  - exact H.
  - apply headroom_fireTimer; assumption.
Qed.

(** In the DOM book the cursor never leaves [0 .. totalPages - 1], from
    any state within bounds and with no timer pending, whatever the
    events: turns, key presses, swipes, new stories, clearing the book,
    waiting and timers running, thrown exceptions included. *)
Lemma book_index_in_bounds evs : forall s,
  timers s = [] -> in_bounds s -> in_bounds (run evs s).
Proof.
  assert (Hrun : forall s, one_turn s -> headroom s ->
                           headroom (run evs s)).
  { unfold run. induction evs as [|ev evs IH]; intros s Hone H; simpl.
    - exact H.
    - apply IH; [apply one_turn_step, Hone | apply headroom_step; assumption]. }
  intros s Hq [H0 Hb].
  destruct (Hrun s) as [H0' Hb'].
  - split; rewrite Hq; simpl; [lia | reflexivity].
  - split; [exact H0 | rewrite Hq; simpl; lia].
  - split; [exact H0'|].
    assert (0 <= forward_pending (timers (run evs s))).
    { destruct (timers (run evs s)) as [|[d [h|h]] q]; simpl; lia. }
    lia.
Qed.

(** Requests at the ends of the book change nothing either. *)
Lemma goToNextPage_at_end s :
  totalPages s - 1 <= currentPage s -> goToNextPage s = (Ok tt, s).
Proof.
  intros H. unfold goToNextPage. js_unfold.
  destruct (currentPage s >=? totalPages s - 1) eqn:Hb; [|lia].
  rewrite orb_true_r. reflexivity.
Qed.

Lemma goToPreviousPage_at_start s :
  currentPage s <= 0 -> goToPreviousPage s = (Ok tt, s).
Proof.
  intros H. unfold goToPreviousPage. js_unfold.
  destruct (currentPage s <=? 0) eqn:Hb; [|lia].
  rewrite orb_true_r. reflexivity.
Qed.

(** [populateBook] needs a first page. *)
Lemma populateBook_empty data s :
  pages data = [] ->
  populateBook data s = (Throw (TypeError "pages[0] is undefined"), s).
Proof. intros H. unfold populateBook. rewrite H. reflexivity. Qed.

Lemma populateBook_returns data s :
  pages data <> [] -> fst (populateBook data s) = Ok tt.
Proof.
  intros H. unfold populateBook.
  destruct (pages data) as [|p ps] eqn:Hp; [congruence|]. simpl.
  unfold appendChild at 1. js_unfold. simpl.
  match goal with |- context [appendStoryPages ?i ?l ?s1] =>
    pose proof (appendStoryPages_returns l i s1) as Hok;
    destruct (appendStoryPages i l s1) as [r s2] end.
  simpl in Hok. subst r. reflexivity.
Qed.

(** C9, failing input: a two-page story is loaded, the reader turns to
    page 1 and presses "Create New Story", which empties the book and
    shows the form again; [currentPage] and [totalPages] keep their
    values and the key listener stays on the document.  ArrowRight then
    looks up a page element that is gone: [goToNextPage] throws after
    setting [isAnimating], the index does not advance, no commit is
    queued.  ArrowLeft throws the same way after decrementing the index.
    Nothing clears the flag again: with the next story loaded, a click on
    the right edge is still ignored. *)
Theorem book_turn_throws_without_page_element :
  currentPage book_cleared = 1 /\ totalPages book_cleared = 4 /\
  isAnimating book_cleared = false /\ book book_cleared = [] /\
  handle (KeyDown "ArrowRight") book_cleared =
    (Throw (TypeError "pageToFlip is null"),
     set_isAnimating true book_cleared) /\
  handle (KeyDown "ArrowLeft") book_cleared =
    (Throw (TypeError "pageToUnflip is null"),
     set_currentPage 0 (set_isAnimating true book_cleared)) /\
  let s := run [KeyDown "ArrowRight"; StoryResponse (Some two_pages)]
             book_cleared in
  isAnimating s = true /\ timers s = [] /\ currentPage s = 0 /\
  totalPages s = 4 /\ step ClickRightTurn s = s.
Proof. vm_compute. repeat split. Qed.

End BookFacts.

(** * The viewer: turns, narration and errors *)

Module ViewerFacts.
Import Viewer.

Ltac js_unfold :=
  unfold exec, returns, bind, gets, modify, ret, throw, lift, try_catch,
    finally in *.

Section WithScripts.
Variable nextPage : M Viewer unit.
Variable enhanceStoryText : string -> string.
Variable voiceScriptLoaded : bool.

#[local] Abbreviation step :=
  (step nextPage enhanceStoryText voiceScriptLoaded).
#[local] Abbreviation run :=
  (run nextPage enhanceStoryText voiceScriptLoaded).
#[local] Abbreviation run_callback :=
  (run_callback nextPage enhanceStoryText voiceScriptLoaded).
#[local] Abbreviation fireTimer :=
  (fireTimer nextPage enhanceStoryText voiceScriptLoaded).

Lemma sole_timer_waits s due cb ms :
  timers s = [(due, cb)] -> clock s + Z.of_N ms < due ->
  step TimerFires (step (Elapse ms) s) = step (Elapse ms) s.
Proof.
  intros Hq Hlt. unfold Viewer.step, handle, fireTimer. js_unfold. simpl.
  rewrite Hq, pop_due_single.
  destruct (due <=? clock s + Z.of_N ms) eqn:Hle; [lia|]. reflexivity.
Qed.

Lemma sole_timer_runs s due cb ms :
  timers s = [(due, cb)] -> due <= clock s + Z.of_N ms ->
  step TimerFires (step (Elapse ms) s) =
    exec (run_callback cb)
      (set_timers [] (set_clock (clock s + Z.of_N ms) s)).
Proof.
  intros Hq Hle. unfold Viewer.step, handle, fireTimer. js_unfold. simpl.
  rewrite Hq, pop_due_single.
  destruct (due <=? clock s + Z.of_N ms) eqn:Hle'; [|lia]. reflexivity.
Qed.

(** ** At most one utterance *)

(** Walk through a handler, one statement at a time. *)
Ltac keeps_step :=
  match goal with
  | |- forall _, _ => intro
  | |- _ (exec (bind _ _) _) => apply exec_bind_keeps_at; [assumption | | ]
  | |- _ (exec (try_catch _ _) _) =>
      apply exec_try_catch_keeps_at; [assumption | | ]
  | |- _ (exec (if ?b then _ else _) _) => destruct b
  | |- _ (exec (match ?x with _ => _ end) _) => destruct x
  end.

Ltac quiet_leaf :=
  unfold quiet, exec, gets, modify, ret, throw, on_dom, setTimeout, cancel,
    speak, finally in *;
  simpl in *; try assumption; try lia.

Ltac quiet_walk := repeat keeps_step; quiet_leaf.

Lemma quiet_stopReading s : quiet s -> quiet (exec stopReading s).
Proof. revert s. unfold stopReading. quiet_walk. Qed.

Lemma quiet_startReading s : quiet s -> quiet (exec startReading s).
Proof. revert s. unfold startReading. quiet_walk. Qed.

Lemma quiet_updateNavigationButtons s :
  quiet s -> quiet (exec updateNavigationButtons s).
Proof. revert s. unfold updateNavigationButtons. quiet_walk. Qed.

Lemma quiet_showError message s : quiet s -> quiet (exec (showError message) s).
Proof. revert s. unfold showError. quiet_walk. Qed.

Create HintDb quiet.
#[local] Hint Resolve quiet_stopReading quiet_startReading
  quiet_updateNavigationButtons quiet_showError : quiet.

Ltac quiet_auto := repeat keeps_step; auto with quiet; quiet_leaf.

Lemma quiet_goToNextPage s : quiet s -> quiet (exec goToNextPage s).
Proof. revert s. unfold goToNextPage. quiet_auto. Qed.

Lemma quiet_goToPreviousPage s : quiet s -> quiet (exec goToPreviousPage s).
Proof. revert s. unfold goToPreviousPage. quiet_auto. Qed.

Lemma quiet_commitFlip s : quiet s -> quiet (exec commitFlip s).
Proof. revert s. unfold commitFlip. quiet_auto. Qed.

Lemma quiet_resetToForm s : quiet s -> quiet (exec resetToForm s).
Proof. revert s. unfold resetToForm. quiet_auto. Qed.

Lemma quiet_displayStory story s : quiet s -> quiet (exec (displayStory story) s).
Proof. revert s. unfold displayStory. quiet_auto. Qed.

#[local] Hint Resolve quiet_goToNextPage quiet_goToPreviousPage
  quiet_commitFlip quiet_resetToForm quiet_displayStory : quiet.

(** Both versions of [readCurrentPage] empty the queue before they speak,
    so whatever was queued before, at most the new utterance is left. *)
Lemma readCurrentPage_cancels_first s :
  hasSpeech s = true ->
  (length (speechQueue (exec readCurrentPage s)) <= 1)%nat /\
  speechQueue (exec readCurrentPage s) =
    speechQueue (exec readCurrentPage (set_speechQueue [] s)).
Proof.
  intros Hs. unfold readCurrentPage, cancel, speak. js_unfold. simpl.
  rewrite Hs. simpl.
  destruct (currentStory s) as [st|]; simpl; [|split; [lia|reflexivity]].
  destruct (nonempty (textToRead (currentPageIndex s) st)); simpl;
    split; (lia || reflexivity).
Qed.

Lemma readCurrentPage_override_cancels_first s :
  hasSpeech s = true ->
  (length (speechQueue (exec (readCurrentPage_override enhanceStoryText) s))
     <= 1)%nat /\
  speechQueue (exec (readCurrentPage_override enhanceStoryText) s) =
    speechQueue (exec (readCurrentPage_override enhanceStoryText)
                   (set_speechQueue [] s)).
Proof.
  intros Hs. unfold readCurrentPage_override, cancel, speak, lift.
  js_unfold. simpl. rewrite Hs. simpl.
  destruct (textToRead_window (win s)) as [t|e]; simpl;
    [|split; [lia|reflexivity]].
  destruct (nonempty t); simpl; split; (lia || reflexivity).
Qed.

Lemma quiet_callReadCurrentPage s :
  quiet s ->
  quiet (exec (callReadCurrentPage enhanceStoryText voiceScriptLoaded) s).
Proof.
  intros Hq. destruct (hasSpeech s) eqn:Hs.
  - unfold callReadCurrentPage. destruct voiceScriptLoaded.
    + apply readCurrentPage_override_cancels_first, Hs.
    + apply readCurrentPage_cancels_first, Hs.
  - unfold callReadCurrentPage, readCurrentPage_override, readCurrentPage.
    destruct voiceScriptLoaded; js_unfold; simpl; rewrite Hs; exact Hq.
Qed.

Lemma quiet_onend u s : quiet s -> quiet (exec (onend u) s).
Proof. revert s. unfold onend. quiet_auto. Qed.

Lemma quiet_utteranceEnds s : quiet s -> quiet (exec utteranceEnds s).
Proof.
  intros Hq. unfold utteranceEnds. js_unfold. simpl.
  destruct (speechQueue s) as [|u rest] eqn:Hsq; simpl; [exact Hq|].
  apply (quiet_onend u (set_speechQueue rest s)).
  unfold quiet in *. rewrite Hsq in Hq. simpl in *. lia.
Qed.

Lemma quiet_settle o s :
  quiet s -> quiet (exec (handleGenerateStory_settle o) s).
Proof.
  intros Hq. unfold handleGenerateStory_settle.
  assert (Hin : quiet (exec
            (try_catch
               match o with
               | Rejected message => throw (Error message)
               | NotOk detail =>
                   throw (Error (or_default detail "Failed to generate story"))
               | Fulfilled storyData =>
                   (modify (set_currentStory (Some storyData)) ;;
                    displayStory storyData ;; showStoryViewer)%js
               end
               (fun e => showError (or_default (message_of e)
                  "An error occurred while generating your story"))) s)).
  { revert s Hq. destruct o; quiet_auto. }
  revert Hin. unfold finally, exec, quiet.
  match goal with |- context [try_catch ?m ?h s] =>
    destruct (try_catch m h s) as [r s'] end.
  simpl. auto.
Qed.

(** With a story and a text for the page, exactly the new utterance is
    queued, whatever was being spoken. *)
Lemma readCurrentPage_speaks s st :
  hasSpeech s = true -> currentStory s = Some st ->
  nonempty (textToRead (currentPageIndex s) st) = true ->
  speechQueue (exec readCurrentPage s) =
    [{| spoken := textToRead (currentPageIndex s) st; by_override := false |}].
Proof.
  intros Hs Hst Ht. unfold readCurrentPage, cancel, speak. js_unfold. simpl.
  rewrite Hs. simpl. rewrite Hst. simpl. rewrite Ht. reflexivity.
Qed.

Lemma readCurrentPage_override_speaks s t :
  hasSpeech s = true -> textToRead_window (win s) = Ok t ->
  nonempty t = true ->
  speechQueue (exec (readCurrentPage_override enhanceStoryText) s) =
    [{| spoken := match enhancedExpression s with
                  | Some false => t
                  | _ => enhanceStoryText t
                  end;
        by_override := true |}].
Proof.
  intros Hs Hw Ht. unfold readCurrentPage_override, cancel, speak, lift.
  js_unfold. simpl. rewrite Hs. simpl. rewrite Hw. simpl. rewrite Ht.
  reflexivity.
Qed.

Section NextPageKeepsQuiet.
Hypothesis nextPage_quiet : forall s, quiet s -> quiet (exec nextPage s).

Lemma quiet_fireTimer s : quiet s -> quiet (exec fireTimer s).
Proof.
  intros Hq. unfold Viewer.fireTimer. js_unfold. simpl.
  destruct (pop_due (clock s) (timers s)) as [[cb rest]|]; [|exact Hq].
  simpl.
  assert (Hq' : quiet (set_timers rest s)) by exact Hq.
  destruct cb; simpl.
  - exact Hq'.
  - apply quiet_commitFlip, Hq'.
  - apply quiet_callReadCurrentPage, Hq'.
  - apply nextPage_quiet, Hq'.
Qed.

Lemma quiet_step ev s : quiet s -> quiet (step ev s).
Proof.
  intros Hq. unfold Viewer.step. destruct ev; unfold handle;
    try (revert s Hq; unfold handleGenerateStory_begin, toggleReadAloud,
           hideError, handleSwipe, restartReading; quiet_auto; fail).
  - apply quiet_settle, Hq.
  - apply quiet_utteranceEnds, Hq.
  - apply quiet_onend, Hq.
  - apply quiet_fireTimer, Hq.
Qed.

Lemma quiet_run evs : forall s, quiet s -> quiet (run evs s).
Proof.
  unfold Viewer.run. induction evs as [|ev evs IH]; intros s Hq; simpl.
  - exact Hq.
  - apply IH, quiet_step, Hq.
Qed.

(** C7: the synthesizer never holds more than one utterance, whatever the
    events (given that the external [nextPage] does not speak on its own);
    each version of [readCurrentPage] cancels before it speaks, so its
    result does not depend on what was being spoken; and when there is a
    text for the current page, the queue afterwards is exactly the one new
    utterance for that page. *)
Theorem one_utterance_at_a_time :
  (forall evs s, quiet s -> quiet (run evs s)) /\
  (forall s, hasSpeech s = true ->
     let read := callReadCurrentPage enhanceStoryText voiceScriptLoaded in
     (length (speechQueue (exec read s)) <= 1)%nat /\
     speechQueue (exec read s) =
       speechQueue (exec read (set_speechQueue [] s))) /\
  (forall s st,
     hasSpeech s = true -> currentStory s = Some st ->
     nonempty (textToRead (currentPageIndex s) st) = true ->
     speechQueue (exec readCurrentPage s) =
       [{| spoken := textToRead (currentPageIndex s) st;
           by_override := false |}]) /\
  (forall s t,
     hasSpeech s = true -> textToRead_window (win s) = Ok t ->
     nonempty t = true ->
     speechQueue (exec (readCurrentPage_override enhanceStoryText) s) =
       [{| spoken := match enhancedExpression s with
                     | Some false => t
                     | _ => enhanceStoryText t
                     end;
           by_override := true |}]).
Proof.
  split; [exact quiet_run|]. split.
  - intros s Hs read. unfold read, callReadCurrentPage.
    destruct voiceScriptLoaded.
    + apply readCurrentPage_override_cancels_first, Hs.
    + apply readCurrentPage_cancels_first, Hs.
  - split.
    + exact readCurrentPage_speaks.
    + exact readCurrentPage_override_speaks.
Qed.

End NextPageKeepsQuiet.

(** ** Auto-advance *)

(** A manual page turn during narration clears the flag and the queue. *)
Lemma goToNextPage_stops s st :
  currentStory s = Some st -> currentPageIndex s < page_count st ->
  isReadingAloud s = true ->
  fst (goToNextPage s) = Ok tt /\
  isReadingAloud (exec goToNextPage s) = false /\
  (hasSpeech s = true -> speechQueue (exec goToNextPage s) = []).
Proof.
  intros Hst Hlt Hr. unfold goToNextPage, stopReading,
    updateNavigationButtons, on_dom, setTimeout. js_unfold. simpl.
  rewrite Hst. simpl.
  destruct (currentPageIndex s <? page_count st) eqn:Hb; [|lia].
  rewrite Hr. simpl.
  destruct (hasSpeech s); simpl;
    destruct (pageElementFor (currentPageIndex s) (dom s)); simpl;
    rewrite ?Hst; simpl; repeat split; (reflexivity || discriminate).
Qed.

Lemma goToPreviousPage_stops s st :
  currentStory s = Some st -> 0 < currentPageIndex s ->
  isReadingAloud s = true ->
  fst (goToPreviousPage s) = Ok tt /\
  isReadingAloud (exec goToPreviousPage s) = false /\
  (hasSpeech s = true -> speechQueue (exec goToPreviousPage s) = []).
Proof.
  intros Hst Hlt Hr. unfold goToPreviousPage, stopReading,
    updateNavigationButtons, on_dom, setTimeout. js_unfold. simpl.
  destruct (currentPageIndex s >? 0) eqn:Hb; [|lia].
  rewrite Hr. simpl.
  destruct (hasSpeech s); simpl;
    destruct (pageElementFor (currentPageIndex s - 1) (dom s)); simpl;
    rewrite ?Hst; simpl; repeat split; (reflexivity || discriminate).
Qed.

(** With the flag down, the deferred commit schedules no reading. *)
Lemma commitFlip_silent s st :
  currentStory s = Some st -> isReadingAloud s = false ->
  fst (commitFlip s) = Ok tt /\
  timers (exec commitFlip s) = timers s /\
  speechQueue (exec commitFlip s) = speechQueue s /\
  isReadingAloud (exec commitFlip s) = false /\
  currentPageIndex (exec commitFlip s) = currentPageIndex s + 1.
Proof.
  intros Hst Hr. unfold commitFlip, updateNavigationButtons, on_dom,
    setTimeout. js_unfold. simpl. rewrite Hst. simpl. rewrite Hr.
  repeat split; assumption || reflexivity.
Qed.

(** An [onend] closure whose flag is down does nothing. *)
Lemma onend_silent u s : still_reading u s = false -> onend u s = (Ok tt, s).
Proof. intros H. unfold onend. js_unfold. simpl. rewrite H. reflexivity. Qed.

(** C5: when the utterance being spoken ends while the flag its closure
    tests is up and the auto-turn box is checked, exactly one
    [AutoAdvance] timer is registered, due 1000 ms later; with no other
    timer pending it cannot run earlier, and when it runs it is removed
    and calls [nextPage] once.  If instead the reader turns the page by
    hand during the speech ([goToNextPage] or [goToPreviousPage] with the
    flag up), the flag is cleared and the queue emptied, and the [onend]
    closure of the interrupted utterance of the main script, should it
    still be called, registers nothing. *)
Theorem auto_advance_fires_once
    (s : Viewer) (u : Utterance) (rest : list Utterance)
    (Hq : speechQueue s = u :: rest)
    (Hactive : still_reading u s = true)
    (Hauto : autoTurnPages s = Some true) :
  let s1 := exec utteranceEnds s in
  s1 = set_timers (timers s ++ [(clock s + 1000, AutoAdvance)])
         (set_speechQueue rest s) /\
  (timers s = [] ->
   (forall ms, Z.of_N ms < 1000 ->
      step TimerFires (step (Elapse ms) s1) = step (Elapse ms) s1) /\
   (forall ms, 1000 <= Z.of_N ms ->
      step TimerFires (step (Elapse ms) s1) =
        exec nextPage (set_timers [] (set_clock (clock s + Z.of_N ms) s1)))) /\
  (by_override u = false ->
   forall st, currentStory s = Some st ->
     (currentPageIndex s < page_count st ->
        let s2 := exec goToNextPage s in
        isReadingAloud s2 = false /\
        (hasSpeech s = true -> speechQueue s2 = []) /\
        onend u s2 = (Ok tt, s2)) /\
     (0 < currentPageIndex s ->
        let s2 := exec goToPreviousPage s in
        isReadingAloud s2 = false /\
        (hasSpeech s = true -> speechQueue s2 = []) /\
        onend u s2 = (Ok tt, s2))).
Proof.
  intros s1.
  assert (Hs1 : s1 = set_timers (timers s ++ [(clock s + 1000, AutoAdvance)])
                       (set_speechQueue rest s)).
  { unfold s1, utteranceEnds, onend. js_unfold. simpl. rewrite Hq. simpl.
    unfold still_reading in *. simpl. rewrite Hactive, Hauto. reflexivity. }
  split; [exact Hs1|]. split.
  - intros Ht.
    assert (Ht1 : timers s1 = [(clock s + 1000, AutoAdvance)])
      by (rewrite Hs1; simpl; rewrite Ht; reflexivity).
    assert (Hc1 : clock s1 = clock s) by (rewrite Hs1; reflexivity).
    split; intros ms Hms.
    + eapply sole_timer_waits; [exact Ht1 | lia].
    + rewrite (sole_timer_runs s1 _ _ ms Ht1) by lia.
      rewrite Hc1. reflexivity.
  - intros Hown st Hst.
    assert (Hr : isReadingAloud s = true)
      by (unfold still_reading in Hactive; rewrite Hown in Hactive;
          exact Hactive).
    split; intros Hpos s2.
    + destruct (goToNextPage_stops s st Hst Hpos Hr) as (_ & Hoff & Hempty).
      fold s2 in Hoff, Hempty. repeat split; [exact Hoff | exact Hempty |].
      apply onend_silent. unfold still_reading. rewrite Hown. exact Hoff.
    + destruct (goToPreviousPage_stops s st Hst Hpos Hr)
        as (_ & Hoff & Hempty).
      fold s2 in Hoff, Hempty. repeat split; [exact Hoff | exact Hempty |].
      apply onend_silent. unfold still_reading. rewrite Hown. exact Hoff.
Qed.

(** ** Requests at the ends, and turns without a page element *)

Lemma next_at_last_page s st :
  currentStory s = Some st -> page_count st <= currentPageIndex s ->
  goToNextPage s = (Ok tt, s).
Proof.
  intros Hst H. unfold goToNextPage. js_unfold. simpl. rewrite Hst.
  destruct (currentPageIndex s <? page_count st) eqn:Hb; [lia|]. reflexivity.
Qed.

Lemma previous_at_cover s :
  currentPageIndex s <= 0 -> goToPreviousPage s = (Ok tt, s).
Proof.
  intros H. unfold goToPreviousPage. js_unfold. simpl.
  destruct (currentPageIndex s >? 0) eqn:Hb; [lia|]. reflexivity.
Qed.

(** The viewer's fallback: without the page element the index still moves,
    at once, and nothing is thrown. *)
Lemma goToNextPage_fallback s st :
  currentStory s = Some st -> currentPageIndex s < page_count st ->
  pageElementFor (currentPageIndex s) (dom s) = None ->
  fst (goToNextPage s) = Ok tt /\
  currentPageIndex (exec goToNextPage s) = currentPageIndex s + 1 /\
  timers (exec goToNextPage s) = timers s.
Proof.
  intros Hst Hlt Hel. unfold goToNextPage, stopReading,
    updateNavigationButtons, on_dom, setTimeout. js_unfold. simpl.
  rewrite Hst. simpl.
  destruct (currentPageIndex s <? page_count st) eqn:Hb; [|lia].
  destruct (isReadingAloud s); simpl;
    [destruct (hasSpeech s); simpl|];
    rewrite Hel; simpl; rewrite Hst; simpl; repeat split; reflexivity.
Qed.

Lemma goToPreviousPage_fallback s st :
  currentStory s = Some st -> 0 < currentPageIndex s ->
  pageElementFor (currentPageIndex s - 1) (dom s) = None ->
  fst (goToPreviousPage s) = Ok tt /\
  currentPageIndex (exec goToPreviousPage s) = currentPageIndex s - 1 /\
  timers (exec goToPreviousPage s) = timers s.
Proof.
  intros Hst Hlt Hel. unfold goToPreviousPage, stopReading,
    updateNavigationButtons, on_dom, setTimeout. js_unfold. simpl.
  destruct (currentPageIndex s >? 0) eqn:Hb; [|lia].
  destruct (isReadingAloud s) eqn:Hr; simpl;
    [destruct (hasSpeech s); simpl|];
    rewrite Hel; simpl; rewrite Hst; simpl; rewrite ?Hr; simpl;
    repeat split; reflexivity.
Qed.

(** [displayStory] reads [pages[0]] only behind its length check. *)
Lemma displayStory_returns story s :
  currentStory s <> None -> fst (displayStory story s) = Ok tt.
Proof.
  intros Hst. unfold displayStory, updateNavigationButtons, on_dom.
  js_unfold. simpl.
  destruct (currentStory s) as [st|] eqn:Hs; [|congruence].
  destruct (pages story !! 0%nat); simpl;
    destruct (coverImage (dom s)); simpl;
    destruct (traditionalHidden (dom s)); simpl; rewrite ?Hs; reflexivity.
Qed.

Lemma displayStory_empty_cover story s :
  pages story = [] ->
  coverImage (dom (exec (displayStory story) s)) = coverImage (dom s).
Proof.
  intros Hp. unfold displayStory, updateNavigationButtons, on_dom.
  js_unfold. simpl. rewrite Hp. simpl.
  destruct (traditionalHidden (dom s)); simpl; [reflexivity|].
  destruct (currentStory s); reflexivity.
Qed.

(** C8: when the request fails (rejected, or answered with a status that
    is not ok) the handler returns normally, the error box shows the
    message, one [HideError] timer is registered for 8000 ms later, and
    [currentStory], [currentPageIndex] and the story pages in the document
    are as before.  With no other timer pending the box stays up for any
    wait shorter than 8000 ms and is hidden once the timer runs; hiding
    it changes neither the story nor the index.  The first half of the
    handler, before the request is sent, does not touch them either. *)
Theorem generation_failure_keeps_story
    (v : Viewer) (o : FetchOutcome) (message : string)
    (Hfail : failure_message o = Some message) :
  let v' := exec (handleGenerateStory_settle o) v in
  returns (handleGenerateStory_settle o) v = true /\
  currentStory v' = currentStory v /\
  currentPageIndex v' = currentPageIndex v /\
  bookPages (dom v') = bookPages (dom v) /\
  errorText (dom v') = message /\ errorHidden (dom v') = false /\
  timers v' = timers v ++ [(clock v + 8000, HideError)] /\
  (timers v = [] ->
   (forall ms, Z.of_N ms < 8000 ->
      step TimerFires (step (Elapse ms) v') = step (Elapse ms) v') /\
   (forall ms, 8000 <= Z.of_N ms ->
      let v'' := step TimerFires (step (Elapse ms) v') in
      errorHidden (dom v'') = true /\ timers v'' = [] /\
      currentStory v'' = currentStory v /\
      currentPageIndex v'' = currentPageIndex v)) /\
  (forall prompt,
     let v0 := exec (handleGenerateStory_begin prompt) v in
     currentStory v0 = currentStory v /\
     currentPageIndex v0 = currentPageIndex v).
Proof.
  intros v'.
  assert (Hbegin : forall prompt,
            let v0 := exec (handleGenerateStory_begin prompt) v in
            currentStory v0 = currentStory v /\
            currentPageIndex v0 = currentPageIndex v).
  { intros prompt. unfold handleGenerateStory_begin.
    destruct (nonempty prompt); split; reflexivity. }
  assert (Hv' : v' = set_dom (set_loadingHidden true
                   (set_errorHidden false (set_errorText message (dom v))))
                 (set_timers (timers v ++ [(clock v + 8000, HideError)]) v)).
  { unfold v', handleGenerateStory_settle.
    destruct o as [m|d|st]; simpl in Hfail; [| |discriminate];
      injection Hfail as <-; reflexivity. }
  assert (Hret : returns (handleGenerateStory_settle o) v = true).
  { unfold handleGenerateStory_settle.
    destruct o as [m|d|st]; simpl in Hfail; [| |discriminate]; reflexivity. }
  split; [exact Hret|]. rewrite Hv'. simpl.
  repeat (split; [reflexivity|]).
  split; [|exact Hbegin].
  intros Hq.
  set (w := set_dom _ _).
  assert (Hw : timers w = [(clock v + 8000, HideError)])
    by (unfold w; simpl; rewrite Hq; reflexivity).
  split.
  - intros ms Hms. eapply sole_timer_waits; [exact Hw|]. unfold w. simpl. lia.
  - intros ms Hms. cbv zeta.
    rewrite (sole_timer_runs w _ _ ms Hw) by (unfold w; simpl; lia).
    unfold w. repeat split; reflexivity.
Qed.

End WithScripts.

Lemma one_utterance_at_a_time_witness :
  quiet reading_cover /\
  quiet (play [ClickNextPage; ClickToggleReadAloud; Elapse 500; TimerFires]
           reading_cover) /\
  speechQueue reading_cover = [cover_utterance] /\
  speechQueue (exec readCurrentPage reading_cover) = [cover_utterance].
Proof.
  destruct (one_utterance_at_a_time nextPage_requestNext (fun t => t) false
              quiet_goToNextPage) as (Hrun & _ & Hspeak & _).
  assert (Hq : quiet reading_cover) by (vm_compute; lia).
  split; [exact Hq|]. split; [apply Hrun, Hq|].
  split; [vm_compute; reflexivity|].
  apply (Hspeak reading_cover two_pages); vm_compute; reflexivity.
Defined.

Lemma auto_advance_fires_once_witness :
  speechQueue reading_cover = [cover_utterance] /\
  still_reading cover_utterance reading_cover = true /\
  autoTurnPages reading_cover = Some true /\
  timers (exec utteranceEnds reading_cover) =
    [(clock reading_cover + 1000, AutoAdvance)] /\
  onend cover_utterance (exec goToNextPage reading_cover) =
    (Ok tt, exec goToNextPage reading_cover).
Proof.
  assert (Hq : speechQueue reading_cover = [cover_utterance])
    by (vm_compute; reflexivity).
  assert (Ha : still_reading cover_utterance reading_cover = true)
    by (vm_compute; reflexivity).
  assert (Hb : autoTurnPages reading_cover = Some true)
    by (vm_compute; reflexivity).
  destruct (auto_advance_fires_once nextPage_requestNext (fun t => t) false
              reading_cover cover_utterance [] Hq Ha Hb)
    as (Hs1 & _ & Hmanual).
  destruct (Hmanual eq_refl two_pages ltac:(vm_compute; reflexivity))
    as [Hnext _].
  destruct (Hnext ltac:(vm_compute; reflexivity)) as (_ & _ & Hstale).
  split; [exact Hq|]. split; [exact Ha|]. split; [exact Hb|].
  split; [rewrite Hs1; vm_compute; reflexivity | exact Hstale].
Defined.

(** C3, failing input: a one-page story and two [goToNextPage] requests
    inside the 50 ms before the first commit.  Both pass the bound check
    at index 0, both commits run, and the index ends at 2, past
    [pages.length = 1]. *)
Theorem viewer_double_request_overshoots :
  let v := play [GenerateSettles (Fulfilled one_page);
                 ClickNextPage; ClickNextPage;
                 Elapse 50; TimerFires; TimerFires] initial in
  currentStory v = Some one_page /\ page_count one_page = 1 /\
  currentPageIndex v = 2 /\ timers v = [].
Proof. vm_compute. repeat split. Qed.

(** C6, failing input: the cover is being read aloud and the reader
    presses "next".  After the 50 ms commit, and however long one waits,
    the index is 1, the flag is down, nothing is queued for speech and no
    timer is left that could start it. *)
Theorem narration_not_restarted_after_turn :
  isReadingAloud reading_cover = true /\
  speechQueue reading_cover = [cover_utterance] /\
  let v := play [ClickNextPage; Elapse 50; TimerFires;
                 Elapse 300; TimerFires; Elapse 5000; TimerFires]
             reading_cover in
  currentPageIndex v = 1 /\ isReadingAloud v = false /\
  speechQueue v = [] /\ timers v = [].
Proof. vm_compute. repeat split. Qed.

Lemma generation_failure_keeps_story_witness :
  let v' := exec (handleGenerateStory_settle (NotOk "")) loaded in
  failure_message (NotOk "") = Some "Failed to generate story" /\
  currentStory v' = Some two_pages /\ currentPageIndex v' = 0 /\
  errorText (dom v') = "Failed to generate story" /\
  errorHidden (dom (play [Elapse 8000; TimerFires] v')) = true.
Proof.
  intros v'.
  assert (Hfail : failure_message (NotOk "") = Some "Failed to generate story")
    by reflexivity.
  destruct (generation_failure_keeps_story nextPage_requestNext (fun t => t)
              false loaded (NotOk "") _ Hfail)
    as (_ & Hstory & Hidx & _ & Htext & _ & _ & Hlater & _).
  destruct (Hlater eq_refl) as [_ Hhide].
  destruct (Hhide 8000%N ltac:(lia)) as (Hhidden & _).
  split; [exact Hfail|]. split; [exact Hstory|]. split; [exact Hidx|].
  split; [exact Htext|]. exact Hhidden.
Defined.

(** C1, counterexample: the viewer on page 1 with the turn to page 2 in
    flight accepts both requests.  A second [goToNextPage] puts a second
    turn in flight, and [goToPreviousPage] moves [currentPageIndex] at
    once. *)
Lemma viewer_accepts_requests_during_a_turn :
  turns_in_flight turning_second = 1%nat /\
  currentPageIndex turning_second = 1 /\
  turns_in_flight (exec goToNextPage turning_second) = 2%nat /\
  currentPageIndex (exec goToPreviousPage turning_second) = 0.
Proof. vm_compute. repeat split. Qed.

End ViewerFacts.

(** * Claims that span the renderers *)

Section AcrossRenderers.

Lemma addStoryPages_empty story f :
  pages story = [] ->
  Flipbook.addStoryPages story f =
    (Throw (TypeError "story.pages[0] is undefined"), f).
Proof. intros H. unfold Flipbook.addStoryPages. rewrite H. reflexivity. Qed.

Lemma addStoryPages_returns story f :
  pages story <> [] -> fst (Flipbook.addStoryPages story f) = Ok tt.
Proof.
  intros H. unfold Flipbook.addStoryPages.
  destruct (pages story) as [|p ps]; [congruence|]. reflexivity.
Qed.

(** C4: a forward request at the renderer's last index and a backward
    request at index 0 return normally and leave the whole state as it
    was (index, flags and timers alike), once or [n] times in a row; in
    the viewer the forward case needs a story to be loaded. *)
Theorem boundary_requests_are_noops (n : nat) :
  (forall s : Book.Book,
     Book.currentPage s = Book.totalPages s - 1 ->
     Book.goToNextPage s = (Ok tt, s) /\
     repeat_call n Book.goToNextPage s = s) /\
  (forall s : Book.Book,
     Book.currentPage s = 0 ->
     Book.goToPreviousPage s = (Ok tt, s) /\
     repeat_call n Book.goToPreviousPage s = s) /\
  (forall (v : Viewer.Viewer) (st : Story),
     Viewer.currentStory v = Some st ->
     Viewer.currentPageIndex v = Viewer.page_count st ->
     Viewer.goToNextPage v = (Ok tt, v) /\
     repeat_call n Viewer.goToNextPage v = v) /\
  (forall v : Viewer.Viewer,
     Viewer.currentPageIndex v = 0 ->
     Viewer.goToPreviousPage v = (Ok tt, v) /\
     repeat_call n Viewer.goToPreviousPage v = v).
Proof.
  repeat split; intros.
  - apply BookFacts.goToNextPage_at_end. lia.
  - apply repeat_call_fixed. unfold exec.
    rewrite BookFacts.goToNextPage_at_end by lia. reflexivity.
  - apply BookFacts.goToPreviousPage_at_start. lia.
  - apply repeat_call_fixed. unfold exec.
    rewrite BookFacts.goToPreviousPage_at_start by lia. reflexivity.
  - eapply ViewerFacts.next_at_last_page; [eassumption | lia].
  - apply repeat_call_fixed. unfold exec.
    erewrite ViewerFacts.next_at_last_page; [reflexivity | eassumption | lia].
  - apply ViewerFacts.previous_at_cover. lia.
  - apply repeat_call_fixed. unfold exec.
    rewrite ViewerFacts.previous_at_cover by lia. reflexivity.
Qed.

Lemma boundary_requests_are_noops_witness :
  Book.currentPage Book.at_back_cover = Book.totalPages Book.at_back_cover - 1 /\
  repeat_call 3 Book.goToNextPage Book.at_back_cover = Book.at_back_cover /\
  Book.currentPage Book.loaded = 0 /\
  repeat_call 3 Book.goToPreviousPage Book.loaded = Book.loaded /\
  Viewer.currentStory Viewer.at_end = Some Viewer.two_pages /\
  Viewer.currentPageIndex Viewer.at_end = Viewer.page_count Viewer.two_pages /\
  repeat_call 3 Viewer.goToNextPage Viewer.at_end = Viewer.at_end /\
  Viewer.currentPageIndex Viewer.loaded = 0 /\
  repeat_call 3 Viewer.goToPreviousPage Viewer.loaded = Viewer.loaded.
Proof.
  destruct (boundary_requests_are_noops 3) as (Hbn & Hbp & Hvn & Hvp).
  assert (H1 : Book.currentPage Book.at_back_cover
               = Book.totalPages Book.at_back_cover - 1)
    by (vm_compute; reflexivity).
  assert (H2 : Book.currentPage Book.loaded = 0) by (vm_compute; reflexivity).
  assert (H3 : Viewer.currentStory Viewer.at_end = Some Viewer.two_pages)
    by (vm_compute; reflexivity).
  assert (H4 : Viewer.currentPageIndex Viewer.at_end
               = Viewer.page_count Viewer.two_pages)
    by (vm_compute; reflexivity).
  assert (H5 : Viewer.currentPageIndex Viewer.loaded = 0)
    by (vm_compute; reflexivity).
  split; [exact H1|]. split; [apply (Hbn _ H1)|].
  split; [exact H2|]. split; [apply (Hbp _ H2)|].
  split; [exact H3|]. split; [exact H4|]. split; [apply (Hvn _ _ H3 H4)|].
  split; [exact H5|]. apply (Hvp _ H5).
Defined.

(** C10: [populateBook] and [addStoryPages] read [pages[0]] with no check:
    for a story without pages they throw, leaving their state as it was,
    and for any story with a first page they return.  [displayStory]
    reads [pages[0]] only when the array is not empty: once the story has
    been stored it returns for every story, and for one without pages it
    leaves the cover image alone. *)
Theorem cover_needs_a_first_page :
  (forall data s,
     Book.pages data = [] ->
     Book.populateBook data s =
       (Throw (TypeError "pages[0] is undefined"), s)) /\
  (forall data s,
     Book.pages data <> [] -> fst (Book.populateBook data s) = Ok tt) /\
  (forall story f,
     pages story = [] ->
     Flipbook.addStoryPages story f =
       (Throw (TypeError "story.pages[0] is undefined"), f)) /\
  (forall story f,
     pages story <> [] -> fst (Flipbook.addStoryPages story f) = Ok tt) /\
  (forall story v,
     Viewer.currentStory v <> None ->
     fst (Viewer.displayStory story v) = Ok tt) /\
  (forall story v,
     pages story = [] ->
     Viewer.coverImage (Viewer.dom (exec (Viewer.displayStory story) v))
       = Viewer.coverImage (Viewer.dom v)).
Proof.
  split; [exact BookFacts.populateBook_empty|].
  split; [exact BookFacts.populateBook_returns|].
  split; [exact addStoryPages_empty|].
  split; [exact addStoryPages_returns|].
  split; [exact ViewerFacts.displayStory_returns|].
  exact ViewerFacts.displayStory_empty_cover.
Qed.

Lemma cover_needs_a_first_page_witness :
  Book.pages Book.no_pages = [] /\
  returns (Book.populateBook Book.no_pages) Book.loaded = false /\
  returns (Book.populateBook Book.two_pages) Book.loaded = true /\
  returns (Flipbook.addStoryPages Viewer.no_pages) Flipbook.mounted_empty
    = false /\
  returns (Flipbook.addStoryPages Viewer.two_pages) Flipbook.mounted_empty
    = true /\
  returns (Viewer.displayStory Viewer.no_pages) Viewer.holding_no_pages = true.
Proof.
  destruct cover_needs_a_first_page as (Hb0 & Hb1 & Hf0 & Hf1 & Hv & _).
  assert (He : Book.pages Book.no_pages = []) by reflexivity.
  split; [exact He|]. unfold returns.
  split; [rewrite (Hb0 _ _ He); reflexivity|].
  split; [rewrite Hb1; [reflexivity | discriminate]|].
  split; [rewrite (Hf0 Viewer.no_pages); reflexivity|].
  split; [rewrite Hf1; [reflexivity | discriminate]|].
  rewrite Hv; [reflexivity | discriminate].
Defined.

End AcrossRenderers.

(** * More on the DOM book: loading, walking, accessibility *)

Module BookMore.
Import Book.
Import BookFacts.

(** ** Page lookup in a paged book *)

Lemma find_by_position els (l : list nat) : forall (off j h : nat),
  (forall i h', l !! i = Some h' ->
     exists e, els !! h' = Some e /\ data_page e = Some (Z.of_nat (off + i))) ->
  l !! j = Some h ->
  List.find (has_data_page els (Z.of_nat (off + j))) l = Some h.
Proof.
  induction l as [|a l IH]; intros off j h Hl Hj; [discriminate|].
  destruct j as [|j]; simpl in *.
  - injection Hj as ->. destruct (Hl 0%nat h eq_refl) as (e & He & Hd).
    unfold has_data_page. rewrite He, Hd, Z.eqb_refl. reflexivity.
  - destruct (Hl 0%nat a eq_refl) as (e & He & Hd).
    unfold has_data_page at 1. rewrite He, Hd.
    destruct (Z.of_nat (off + 0) =? Z.of_nat (off + S j)) eqn:Heq;
      [apply Z.eqb_eq in Heq; lia|].
    replace (off + S j)%nat with (S off + j)%nat by lia.
    apply IH; [|exact Hj].
    intros i h' Hi. destruct (Hl (S i) h' Hi) as (e' & He' & Hd').
    exists e'. split; [exact He'|]. rewrite Hd'. f_equal. lia.
Qed.

Lemma paged_query s (j h : nat) :
  paged s -> book s !! j = Some h ->
  querySelectorPage (Z.of_nat j) s = Some h.
Proof.
  intros Hp Hj. unfold querySelectorPage.
  apply (find_by_position (elems s) (book s) 0%nat j h); [|exact Hj].
  intros i h' Hi. exact (Hp i h' Hi).
Qed.

Lemma intact_query s k :
  intact s -> 0 <= k < totalPages s ->
  exists h, querySelectorPage k s = Some h.
Proof.
  intros [Hp Ht] Hk.
  destruct (lookup_lt_is_Some_2 (book s) (Z.to_nat k)) as [h Hh]; [lia|].
  exists h. rewrite <- (Z2Nat.id k) by lia. apply paged_query; assumption.
Qed.

(** ** Tags survive everything but loading and clearing *)

Lemma same_tags_refl s : same_tags s s.
Proof. split; [reflexivity | intros h; reflexivity]. Qed.

Lemma same_tags_trans s1 s2 s3 :
  same_tags s1 s2 -> same_tags s2 s3 -> same_tags s1 s3.
Proof.
  intros [Hb1 He1] [Hb2 He2]. split; [congruence|].
  intros h. rewrite He2. apply He1.
Qed.

Lemma alter_keeps_tag (f : PageEl -> PageEl) (els : list PageEl) (i h : nat) :
  (forall e, data_page (f e) = data_page e) ->
  data_page <$> (alter f i els !! h) = data_page <$> (els !! h).
Proof.
  intros Hf. destruct (decide (i = h)) as [->|Hne].
  - rewrite list_lookup_alter_eq. destruct (els !! h); simpl; [|reflexivity].
    rewrite Hf. reflexivity.
  - rewrite list_lookup_alter_ne by exact Hne. reflexivity.
Qed.

Lemma mark_pages_keeps_tag cur hs : forall index els h,
  data_page <$> (mark_pages cur index hs els !! h) = data_page <$> (els !! h).
Proof.
  induction hs as [|a hs IH]; intros index els h; simpl; [reflexivity|].
  rewrite IH. apply alter_keeps_tag. intros e. reflexivity.
Qed.

Lemma on_element_same_tags h f s :
  (forall e, data_page (f e) = data_page e) ->
  same_tags s (exec (on_element h f) s).
Proof.
  intros Hf. split; [reflexivity|]. intros h'. simpl.
  apply alter_keeps_tag, Hf.
Qed.

Lemma updatePageState_same_tags s : same_tags s (exec updatePageState s).
Proof.
  unfold updatePageState, adjustBookPosition, updateAccessibility,
    updatePageIndicators. js_unfold. simpl.
  destruct (liveRegion s) eqn:E1; destruct (pageIndicator s) eqn:E2; simpl;
    rewrite ?E2; simpl; (split; [reflexivity|]); intros h; simpl;
    apply mark_pages_keeps_tag.
Qed.

Ltac tags_trans := intros; eapply same_tags_trans; eassumption.

Lemma goToNextPage_same_tags s : same_tags s (exec goToNextPage s).
Proof.
  unfold goToNextPage. js_unfold.
  destruct (isAnimating s || (currentPage s >=? totalPages s - 1)); simpl;
    [apply same_tags_refl|].
  unfold querySelectorPage, setTimeout. js_unfold. simpl.
  destruct (List.find _ (book s)); simpl.
  - split; [reflexivity|]. intros h. simpl. apply alter_keeps_tag.
    intros e. reflexivity.
  - split; [reflexivity | intros h; reflexivity].
Qed.

Lemma goToPreviousPage_same_tags s : same_tags s (exec goToPreviousPage s).
Proof.
  unfold goToPreviousPage. js_unfold.
  destruct (isAnimating s || (currentPage s <=? 0)); simpl;
    [apply same_tags_refl|].
  unfold querySelectorPage, setTimeout. js_unfold. simpl.
  destruct (List.find _ (book s)); simpl.
  - split; [reflexivity|]. intros h. simpl. apply alter_keeps_tag.
    intros e. reflexivity.
  - split; [reflexivity | intros h; reflexivity].
Qed.

Lemma run_callback_same_tags cb s : same_tags s (exec (run_callback cb) s).
Proof.
  destruct cb as [h|h]; unfold run_callback.
  - apply exec_bind_relates; [tags_trans | |]; intros.
    + apply on_element_same_tags. intros e. reflexivity.
    + apply exec_bind_relates; [tags_trans | |]; intros.
      * split; [reflexivity | intros h'; reflexivity].
      * apply updatePageState_same_tags.
  - apply exec_bind_relates; [tags_trans | |]; intros.
    + apply on_element_same_tags. intros e. reflexivity.
    + apply exec_bind_relates; [tags_trans | |]; intros.
      * split; [reflexivity | intros h'; reflexivity].
      * apply exec_bind_relates; [tags_trans | |]; intros.
        -- split; [reflexivity | intros h'; reflexivity].
        -- apply updatePageState_same_tags.
Qed.

Lemma navigation_same_tags ev s :
  is_navigation ev = true -> same_tags s (step ev s).
Proof.
  intros Hnav. destruct ev; try discriminate; unfold step, handle.
  - apply goToPreviousPage_same_tags.
  - apply goToNextPage_same_tags.
  - unfold handleKeyDown. js_unfold. destruct (isAnimating s);
      [apply same_tags_refl|].
    destruct (String.eqb key "ArrowLeft");
      [apply goToPreviousPage_same_tags|].
    destruct (String.eqb key "ArrowRight");
      [apply goToNextPage_same_tags | apply same_tags_refl].
  - split; [reflexivity | intros h; reflexivity].
  - unfold handleSwipe. js_unfold. simpl.
    match goal with |- context [if ?b then _ else _] => destruct b end;
      [|split; [reflexivity | intros h; reflexivity]].
    match goal with |- context [if ?b then _ else _] => destruct b end.
    + apply (goToPreviousPage_same_tags (set_touchEndX screenX s)).
    + apply (goToNextPage_same_tags (set_touchEndX screenX s)).
  - split; [reflexivity | intros h; reflexivity].
  - unfold fireTimer. js_unfold. simpl.
    destruct (pop_due (clock s) (timers s)) as [[cb rest]|];
      [|apply same_tags_refl].
    apply (run_callback_same_tags cb (set_timers rest s)).
Qed.

Lemma paged_same_tags s s' : same_tags s s' -> paged s -> paged s'.
Proof.
  intros [Hb He] Hp j h Hj. rewrite Hb in Hj.
  destruct (Hp j h Hj) as (e & Hh & Hd).
  specialize (He h). rewrite Hh in He. simpl in He.
  destruct (elems s' !! h) as [e'|]; [|discriminate].
  exists e'. split; [reflexivity|]. simpl in He. congruence.
Qed.

(** ** Loading a story *)

Lemma appendChild_paged e s :
  paged s -> data_page e = Some (Z.of_nat (length (book s))) ->
  paged (exec (appendChild e) s).
Proof.
  intros Hp He j h Hj. simpl in *.
  apply lookup_app_Some in Hj as [Hj | [Hlen Hj]].
  - destruct (Hp j h Hj) as (e0 & Hh & Hd). exists e0. split; [|exact Hd].
    apply lookup_app_l_Some, Hh.
  - destruct (j - length (book s))%nat as [|n] eqn:Hn; [|discriminate].
    injection Hj as <-. exists e. split.
    + apply list_lookup_middle. reflexivity.
    + rewrite He. f_equal. lia.
Qed.

Lemma appendStoryPages_paged ps : forall i s,
  paged s -> i + 1 = Z.of_nat (length (book s)) ->
  paged (exec (appendStoryPages i ps) s).
Proof.
  induction ps as [|p ps IH]; intros i s Hp Hi; cbn [appendStoryPages].
  - exact Hp.
  - unfold exec. erewrite bind_ok by reflexivity.
    apply IH.
    + apply (appendChild_paged _ s Hp). simpl. f_equal. exact Hi.
    + simpl. rewrite length_app. simpl. lia.
Qed.

(** The pages are appended after what the book holds, under fresh
    consecutive handles. *)
Lemma appendStoryPages_extends ps : forall i s,
  exists s' new,
    appendStoryPages i ps s = (Ok tt, s') /\
    elems s' = elems s ++ new /\
    book s' = book s ++ seq (length (elems s)) (length new) /\
    length new = length ps /\
    currentPage s' = currentPage s /\ totalPages s' = totalPages s /\
    alerts s' = alerts s.
Proof.
  induction ps as [|p ps IH]; intros i s; cbn [appendStoryPages].
  - exists s, []. simpl. rewrite !app_nil_r. repeat split; reflexivity.
  - erewrite bind_ok by reflexivity.
    match goal with |- context [appendStoryPages ?j ps ?s1] =>
      destruct (IH j s1) as (s' & new & -> & He & Hb & Hl & Hc & Ht & Ha) end.
    simpl in *. eexists s', (_ :: new). split; [reflexivity|].
    rewrite He, Hb, <- !app_assoc. simpl.
    rewrite length_app, Nat.add_1_r. simpl.
    repeat split; (assumption || lia || reflexivity).
Qed.

(** X1: [populateBook] returns for any story with a first page and appends
    exactly [pages.length + 2] page elements, under fresh handles, after
    whatever the book already holds; nothing that was there is removed or
    changed, and the cursor is left alone. *)
Theorem populateBook_appends data s :
  pages data <> [] ->
  exists s' new,
    populateBook data s = (Ok tt, s') /\
    elems s' = elems s ++ new /\
    book s' = book s ++ seq (length (elems s)) (length new) /\
    length new = (length (pages data) + 2)%nat /\
    currentPage s' = currentPage s /\ totalPages s' = totalPages s.
Proof.
  intros Hne. unfold populateBook.
  destruct (pages data) as [|p0 ps] eqn:Hp; [congruence|].
  change ((p0 :: ps) !! 0%nat) with (Some p0). cbv beta iota.
  set (front := createPage 0 (FrontCover (title data) (image p0) (ageRange data))).
  set (back := createPage (Z.of_nat (length (p0 :: ps)) + 1) BackCover).
  destruct (appendStoryPages_extends (p0 :: ps) 0 (exec (appendChild front) s))
    as (s2 & new & Heq & He & Hb & Hl & Hc & Ht & _).
  exists (exec (appendChild back) s2), (front :: new ++ [back]).
  split.
  { erewrite bind_ok by reflexivity. erewrite bind_ok by exact Heq.
    reflexivity. }
  simpl in *. rewrite He, Hb, <- !app_assoc. simpl.
  rewrite !length_app, Hl. simpl.
  split; [reflexivity|]. split.
  - f_equal. rewrite Nat.add_1_r. simpl. f_equal.
    replace (length ps + 1)%nat with (S (length ps)) by lia.
    rewrite (seq_S (length ps)). rewrite Hl. do 3 f_equal. lia.
  - repeat split; (assumption || lia).
Qed.

Lemma populateBook_appends_witness :
  pages two_pages <> [] /\
  exists s' new, populateBook two_pages loaded = (Ok tt, s') /\
    elems s' = elems loaded ++ new /\
    book s' = book loaded ++ seq (length (elems loaded)) (length new) /\
    length new = (length (pages two_pages) + 2)%nat /\
    currentPage s' = currentPage loaded /\ totalPages s' = totalPages loaded.
Proof.
  assert (Hne : pages two_pages <> []) by discriminate.
  split; [exact Hne|]. exact (populateBook_appends two_pages loaded Hne).
Defined.

Lemma updatePageState_alerts s :
  alerts (exec updatePageState s) = alerts s.
Proof.
  unfold updatePageState, adjustBookPosition, updateAccessibility,
    updatePageIndicators. js_unfold. simpl.
  destruct (liveRegion s) eqn:E1; destruct (pageIndicator s) eqn:E2; simpl;
    rewrite ?E2; reflexivity.
Qed.

Lemma initializeBook_effect s :
  fst (initializeBook s) = Ok tt /\
  currentPage (exec initializeBook s) = currentPage s /\
  totalPages (exec initializeBook s) = Z.of_nat (length (book s)) /\
  same_tags s (exec initializeBook s) /\
  alerts (exec initializeBook s) = alerts s.
Proof.
  unfold initializeBook, exec. erewrite bind_ok by reflexivity.
  set (s1 := set_totalPages _ s).
  pose proof (updatePageState_same_tags s1) as Htags.
  pose proof (updatePageState_alerts s1) as Hal.
  destruct (updatePageState_frame s1) as (s2 & Hupd & Hc & Ht & _).
  unfold exec in *. rewrite Hupd in *. simpl in *.
  repeat split; try assumption; apply Htags.
Qed.

Lemma populateBook_alerts data s :
  alerts (exec (populateBook data) s) = alerts s.
Proof.
  unfold populateBook, exec.
  destruct (pages data !! 0%nat) as [p0|]; [|reflexivity].
  erewrite bind_ok by reflexivity.
  match goal with |- context [bind (appendStoryPages ?j ?l) _ ?s1] =>
    destruct (appendStoryPages_extends l j s1)
      as (s2 & new & Heq & _ & _ & _ & _ & _ & Ha) end.
  erewrite bind_ok by exact Heq. simpl. exact Ha.
Qed.

Lemma populateBook_paged data s :
  pages data <> [] -> book s = [] -> paged (exec (populateBook data) s).
Proof.
  intros Hne Hempty. unfold populateBook, exec.
  destruct (pages data) as [|p0 ps] eqn:Hp; [congruence|].
  change ((p0 :: ps) !! 0%nat) with (Some p0). cbv beta iota.
  set (front := createPage 0 (FrontCover (title data) (image p0) (ageRange data))).
  set (back := createPage (Z.of_nat (length (p0 :: ps)) + 1) BackCover).
  assert (Hp1 : paged (exec (appendChild front) s)).
  { apply appendChild_paged; [|rewrite Hempty; reflexivity].
    intros j h Hj. rewrite Hempty in Hj. discriminate. }
  destruct (appendStoryPages_extends (p0 :: ps) 0 (exec (appendChild front) s))
    as (s2 & new & Heq & He & Hb & Hl & _).
  assert (Hp2 : paged s2).
  { assert (H : paged (exec (appendStoryPages 0 (p0 :: ps))
                         (exec (appendChild front) s))).
    { apply appendStoryPages_paged; [exact Hp1|].
      simpl. rewrite Hempty. reflexivity. }
    change (paged (snd (appendStoryPages 0 (p0 :: ps)
                          (exec (appendChild front) s)))) in H.
    rewrite Heq in H. exact H. }
  erewrite bind_ok by reflexivity. erewrite bind_ok by exact Heq.
  apply (appendChild_paged back s2 Hp2).
  rewrite Hb. simpl. rewrite Hempty. simpl. rewrite length_seq, Hl.
  unfold back. simpl. f_equal. lia.
Qed.

(** X2: the response handler with a story of [n >= 1] pages, run on an
    empty book, returns without an alert, puts the cursor on the cover,
    sets [totalPages] to [n + 2] and leaves a book in which
    [querySelector] finds, for every index below [totalPages], the child
    at that position. *)
Theorem story_loads_into_empty_book data s :
  pages data <> [] -> book s = [] ->
  let s' := exec (storyResponse (Some data)) s in
  returns (storyResponse (Some data)) s = true /\
  alerts s' = alerts s /\
  currentPage s' = 0 /\
  totalPages s' = Z.of_nat (length (pages data)) + 2 /\
  intact s' /\
  forall k, 0 <= k < totalPages s' ->
    is_Some (book s' !! Z.to_nat k) /\
    querySelectorPage k s' = book s' !! Z.to_nat k.
Proof.
  intros Hne Hempty s'.
  destruct (populateBook_appends data s Hne)
    as (s1 & new & Hpop & He & Hb & Hl & _).
  pose proof (populateBook_paged data s Hne Hempty) as Hp1.
  pose proof (populateBook_alerts data s) as Ha1.
  unfold exec in Hp1, Ha1. rewrite Hpop in Hp1, Ha1.
  cbn [snd] in Hp1, Ha1.
  destruct (initializeBook_effect (set_currentPage 0 s1))
    as (Hok & Hcur & Htot & Htags & Hal).
  unfold exec in Hcur, Htot, Htags, Hal.
  destruct (initializeBook (set_currentPage 0 s1)) as [r s3] eqn:Hinit.
  cbn [fst snd] in Hok, Hcur, Htot, Htags, Hal. subst r.
  assert (Hrun : storyResponse (Some data) s = (Ok tt, s3)).
  { unfold storyResponse, try_catch.
    erewrite bind_ok by exact Hpop. erewrite bind_ok by reflexivity.
    rewrite Hinit. reflexivity. }
  unfold s', returns, exec. rewrite Hrun. cbn [fst snd].
  assert (Hlen : length (book s1) = (length (pages data) + 2)%nat).
  { rewrite Hb, Hempty. simpl. rewrite length_seq. exact Hl. }
  assert (Hbook : book s3 = book s1) by apply Htags.
  assert (Hint : intact s3).
  { split.
    - eapply paged_same_tags; [exact Htags | exact Hp1].
    - rewrite Htot, Hbook. reflexivity. }
  split; [reflexivity|].
  split; [rewrite Hal; exact Ha1|].
  split; [exact Hcur|].
  split; [rewrite Htot; change (book (set_currentPage 0 s1)) with (book s1);
          rewrite Hlen; lia|].
  split; [exact Hint|].
  intros k Hk. destruct Hint as [Hpg Htp].
  destruct (lookup_lt_is_Some_2 (book s3) (Z.to_nat k)) as [h Hh]; [lia|].
  split; [exists h; exact Hh|].
  rewrite Hh. rewrite <- (Z2Nat.id k) at 1 by lia.
  apply paged_query; assumption.
Qed.

Lemma story_loads_into_empty_book_witness :
  pages two_pages <> [] /\ book (opened true true) = [] /\
  currentPage loaded = 0 /\ totalPages loaded = 4 /\ intact loaded /\
  querySelectorPage 3 loaded = book loaded !! 3%nat.
Proof.
  assert (Hne : pages two_pages <> []) by discriminate.
  assert (Hb : book (opened true true) = []) by (vm_compute; reflexivity).
  destruct (story_loads_into_empty_book two_pages (opened true true) Hne Hb)
    as (_ & _ & Hc & Ht & Hi & Hq).
  split; [exact Hne|]. split; [exact Hb|]. split; [exact Hc|].
  split; [exact Ht|]. split; [exact Hi|].
  destruct (Hq 3) as [_ H3]; [rewrite Ht; simpl; lia | exact H3].
Defined.

(** ** Walking an intact book *)

Lemma updatePageState_total t s :
  totalPages s = t -> totalPages (exec updatePageState s) = t.
Proof.
  intros H. destruct (updatePageState_frame s) as (s' & Hupd & _ & Ht & _).
  unfold exec. rewrite Hupd. simpl. congruence.
Qed.

Lemma goToNextPage_total t s :
  totalPages s = t -> totalPages (exec goToNextPage s) = t.
Proof.
  intros H. unfold goToNextPage. js_unfold.
  destruct (isAnimating s || (currentPage s >=? totalPages s - 1)); simpl;
    [exact H|].
  unfold querySelectorPage, setTimeout. js_unfold. simpl.
  destruct (List.find _ (book s)); simpl; exact H.
Qed.

Lemma goToPreviousPage_total t s :
  totalPages s = t -> totalPages (exec goToPreviousPage s) = t.
Proof.
  intros H. unfold goToPreviousPage. js_unfold.
  destruct (isAnimating s || (currentPage s <=? 0)); simpl; [exact H|].
  unfold querySelectorPage, setTimeout. js_unfold. simpl.
  destruct (List.find _ (book s)); simpl; exact H.
Qed.

Lemma run_callback_total t cb s :
  totalPages s = t -> totalPages (exec (run_callback cb) s) = t.
Proof.
  set (P := fun s' : Book => totalPages s' = t). revert s.
  change (forall s, P s -> P (exec (run_callback cb) s)).
  assert (Hupd : forall (a : unit) s, P s -> P (exec updatePageState s))
    by (intros _ s; apply updatePageState_total).
  destruct cb as [h|h]; unfold run_callback.
  - apply exec_bind_keeps; [intros s H; exact H|]. intros _.
    apply exec_bind_keeps; [intros s H; exact H | exact Hupd].
  - apply exec_bind_keeps; [intros s H; exact H|]. intros _.
    apply exec_bind_keeps; [intros s H; exact H|]. intros _.
    apply exec_bind_keeps; [intros s H; exact H | exact Hupd].
Qed.

Lemma navigation_total ev s :
  is_navigation ev = true -> totalPages (step ev s) = totalPages s.
Proof.
  intros Hnav. destruct ev; try discriminate; unfold step, handle.
  - apply goToPreviousPage_total. reflexivity.
  - apply goToNextPage_total. reflexivity.
  - unfold handleKeyDown. js_unfold. destruct (isAnimating s); [reflexivity|].
    destruct (String.eqb key "ArrowLeft");
      [apply goToPreviousPage_total; reflexivity|].
    destruct (String.eqb key "ArrowRight");
      [apply goToNextPage_total; reflexivity | reflexivity].
  - reflexivity.
  - unfold handleSwipe. js_unfold. simpl.
    match goal with |- context [if ?b then _ else _] => destruct b end;
      [|reflexivity].
    match goal with |- context [if ?b then _ else _] => destruct b end.
    + apply (goToPreviousPage_total _ (set_touchEndX screenX s)). reflexivity.
    + apply (goToNextPage_total _ (set_touchEndX screenX s)). reflexivity.
  - reflexivity.
  - unfold fireTimer. js_unfold. simpl.
    destruct (pop_due (clock s) (timers s)) as [[cb rest]|]; [|reflexivity].
    apply (run_callback_total _ cb (set_timers rest s)). reflexivity.
Qed.

Lemma walkable_step ev s :
  is_navigation ev = true -> walkable s -> walkable (step ev s).
Proof.
  intros Hnav (Hone & Hroom & Hpg & Htot).
  pose proof (navigation_same_tags ev s Hnav) as Htags.
  split; [apply one_turn_step, Hone|].
  split; [apply headroom_step; assumption|].
  split.
  - eapply paged_same_tags; eassumption.
  - rewrite (navigation_total ev s Hnav). destruct Htags as [-> _]. exact Htot.
Qed.

(** In a walkable book neither request throws. *)
Lemma goToNextPage_safe s : walkable s -> fst (goToNextPage s) = Ok tt.
Proof.
  intros (_ & [H0 _] & Hint). unfold goToNextPage. js_unfold.
  destruct (isAnimating s); simpl; [reflexivity|].
  destruct (currentPage s >=? totalPages s - 1) eqn:Hge; simpl; [reflexivity|].
  destruct (intact_query s (currentPage s) Hint) as [h Hh]; [lia|].
  unfold querySelectorPage in *. simpl. rewrite Hh. reflexivity.
Qed.

Lemma goToPreviousPage_safe s : walkable s -> fst (goToPreviousPage s) = Ok tt.
Proof.
  intros (Hone & [H0 Hb] & Hint). unfold goToPreviousPage. js_unfold.
  destruct (isAnimating s); simpl; [reflexivity|].
  destruct (currentPage s <=? 0) eqn:Hle; simpl; [reflexivity|].
  assert (0 <= forward_pending (timers s)).
  { destruct (timers s) as [|[d [h|h]] q]; simpl; lia. }
  destruct (intact_query s (currentPage s - 1) Hint) as [h Hh]; [lia|].
  unfold querySelectorPage in *. simpl. rewrite Hh. reflexivity.
Qed.

Lemma run_callback_safe cb s : fst (run_callback cb s) = Ok tt.
Proof.
  destruct cb as [h|h]; unfold run_callback, on_element; js_unfold;
    settle_refresh; reflexivity.
Qed.

Lemma handleSwipe_safe s : walkable s -> fst (handleSwipe s) = Ok tt.
Proof.
  intros Hw. unfold handleSwipe, bind, gets. cbv beta iota zeta.
  destruct (Z.abs (touchEndX (id s) - touchStartX (id s)) >? minSwipeDistance);
    [|reflexivity].
  destruct (touchEndX (id s) - touchStartX (id s) >? 0).
  - apply goToPreviousPage_safe, Hw.
  - apply goToNextPage_safe, Hw.
Qed.

Lemma fireTimer_safe s : fst (fireTimer s) = Ok tt.
Proof.
  unfold fireTimer, bind, gets, modify. cbv beta iota zeta.
  destruct (pop_due (clock (id s)) (timers (id s))) as [[cb rest]|];
    [|reflexivity].
  cbv beta iota zeta. apply run_callback_safe.
Qed.

Lemma navigation_safe ev s :
  is_navigation ev = true -> walkable s -> returns (handle ev) s = true.
Proof.
  intros Hnav Hw. unfold returns.
  destruct ev; try discriminate; unfold handle.
  - rewrite goToPreviousPage_safe by exact Hw. reflexivity.
  - rewrite goToNextPage_safe by exact Hw. reflexivity.
  - unfold handleKeyDown. js_unfold. destruct (isAnimating s); [reflexivity|].
    destruct (String.eqb key "ArrowLeft");
      [rewrite goToPreviousPage_safe by exact Hw; reflexivity|].
    destruct (String.eqb key "ArrowRight");
      [rewrite goToNextPage_safe by exact Hw; reflexivity | reflexivity].
  - reflexivity.
  - assert (Hw' : walkable (set_touchEndX screenX s)) by exact Hw.
    unfold bind, modify. cbv beta iota zeta.
    rewrite handleSwipe_safe by exact Hw'. reflexivity.
  - reflexivity.
  - rewrite fireTimer_safe. reflexivity.
Qed.

Lemma walkable_run evs : forall s,
  forallb is_navigation evs = true -> walkable s ->
  walkable (run evs s) /\ all_return evs s = true.
Proof.
  unfold run. induction evs as [|ev evs IH]; intros s Hnav Hw; simpl in *.
  - split; [exact Hw | reflexivity].
  - apply andb_true_iff in Hnav as [Hev Hrest].
    destruct (IH (step ev s) Hrest (walkable_step ev s Hev Hw)) as [H1 H2].
    split; [exact H1|].
    rewrite (navigation_safe ev s Hev Hw), H2. reflexivity.
Qed.

Lemma fresh_book_walkable data s :
  pages data <> [] -> book s = [] -> timers s = [] ->
  walkable (exec (storyResponse (Some data)) s).
Proof.
  intros Hne Hempty Hq.
  destruct (story_loads_into_empty_book data s Hne Hempty)
    as (_ & _ & Hcur & Htot & Hint & _).
  destruct (storyResponse_same_turn (Some data) s) as [Ht Ha].
  split; [|split; [|exact Hint]].
  - split; rewrite Ht, Hq; simpl; [lia | reflexivity].
  - split; rewrite ?Ht, ?Hq, Hcur; simpl; lia.
Qed.

(** X3: once a story with at least one page has been loaded into an empty
    book with no timer pending, no sequence of page-turn events (clicks on
    either edge, key presses, touches, waiting, timers running) makes a
    handler throw, and the book stays within bounds with every page in
    place. *)
Theorem navigation_never_throws data s evs :
  pages data <> [] -> book s = [] -> timers s = [] ->
  forallb is_navigation evs = true ->
  let s' := exec (storyResponse (Some data)) s in
  all_return evs s' = true /\
  in_bounds (run evs s') /\ intact (run evs s').
Proof.
  intros Hne Hempty Hq Hnav s'.
  destruct (walkable_run evs s' Hnav (fresh_book_walkable data s Hne Hempty Hq))
    as [(Hone & [H0 Hb] & Hint) Hret].
  split; [exact Hret|]. split; [|exact Hint].
  assert (0 <= forward_pending (timers (run evs s'))).
  { destruct (timers (run evs s')) as [|[d [h|h]] q]; simpl; lia. }
  split; lia.
Qed.

Lemma navigation_never_throws_witness :
  let evs := [ClickRightTurn; KeyDown "ArrowRight"; Elapse 600; TimerFires;
              TouchStart 10; TouchEnd 200; ClickLeftTurn] in
  pages two_pages <> [] /\ book (opened true true) = [] /\
  timers (opened true true) = [] /\
  all_return evs loaded = true /\ in_bounds (run evs loaded) /\
  intact (run evs loaded).
Proof.
  intros evs.
  assert (Hne : pages two_pages <> []) by discriminate.
  assert (Hb : book (opened true true) = []) by (vm_compute; reflexivity).
  assert (Hq : timers (opened true true) = []) by (vm_compute; reflexivity).
  assert (Hnav : forallb is_navigation evs = true) by reflexivity.
  split; [exact Hne|]. split; [exact Hb|]. split; [exact Hq|].
  exact (navigation_never_throws two_pages (opened true true) evs
           Hne Hb Hq Hnav).
Defined.

(** ** Page turns that are waited for *)

Lemma run_app evs1 evs2 s : run (evs1 ++ evs2) s = run evs2 (run evs1 s).
Proof. unfold run. apply fold_left_app. Qed.

Lemma run_callback_clock cb s : clock (exec (run_callback cb) s) = clock s.
Proof.
  set (P := fun s' : Book => clock s' = clock s).
  enough (H : forall s0, P s0 -> P (exec (run_callback cb) s0))
    by (apply H; reflexivity).
  assert (Hupd : forall (a : unit) s0, P s0 -> P (exec updatePageState s0)).
  { intros _ s0 H0. destruct (updatePageState_frame s0)
      as (s1 & Hs1 & _ & _ & _ & _ & Hck & _).
    unfold P, exec in *. rewrite Hs1. simpl. congruence. }
  destruct cb as [h|h]; unfold run_callback.
  - apply exec_bind_keeps; [intros s0 H; exact H|]. intros _.
    apply exec_bind_keeps; [intros s0 H; exact H | exact Hupd].
  - apply exec_bind_keeps; [intros s0 H; exact H|]. intros _.
    apply exec_bind_keeps; [intros s0 H; exact H|]. intros _.
    apply exec_bind_keeps; [intros s0 H; exact H | exact Hupd].
Qed.

Lemma at_rest_calm s : at_rest s -> timers s = [].
Proof. intros [((_ & Hidle) & _) Ha]. exact (Hidle Ha). Qed.

Lemma at_rest_bounds s : at_rest s -> in_bounds s.
Proof.
  intros Hr. pose proof (at_rest_calm s Hr) as Hq.
  destruct Hr as [(_ & [H0 Hb] & _) _]. rewrite Hq in Hb. simpl in Hb.
  split; lia.
Qed.

Lemma idle_turn_effect s :
  timers s = [] -> step TimerFires (step (Elapse 600) s) = step (Elapse 600) s.
Proof. intros Hq. apply no_timer_no_run. exact Hq. Qed.

Lemma forward_turn_effect s :
  at_rest s ->
  let s' := run forward_turn s in
  at_rest s' /\ totalPages s' = totalPages s /\
  clock s' = clock s + 600 /\
  currentPage s' = Z.min (currentPage s + 1) (totalPages s - 1).
Proof.
  intros Hr s'.
  pose proof (at_rest_calm s Hr) as Hq.
  pose proof (at_rest_bounds s Hr) as [H0 Hb].
  destruct Hr as [Hw Ha].
  destruct (walkable_run forward_turn s eq_refl Hw) as [Hw' _].
  fold s' in Hw'.
  assert (Hs' : s' = step TimerFires (step (Elapse 600) (exec goToNextPage s)))
    by reflexivity.
  destruct (Z.lt_ge_cases (currentPage s) (totalPages s - 1)) as [Hlt|Hge].
  - destruct Hw as (_ & _ & Hint).
    destruct (intact_query s (currentPage s) Hint) as [h Hh]; [lia|].
    pose proof (goToNextPage_accepted s h Ha Hlt Hh) as Hgo.
    unfold exec in Hs'. rewrite Hgo in Hs'. cbn [snd] in Hs'.
    erewrite lone_timer_runs in Hs';
      [| simpl; rewrite Hq; reflexivity | simpl; lia].
    match type of Hs' with _ = exec (run_callback ?cb) ?s1 =>
      destruct (commit_settles cb s1 eq_refl) as (Hi & Ht & Hc);
      pose proof (run_callback_total (totalPages s) cb s1 eq_refl) as Htot;
      pose proof (run_callback_clock cb s1) as Hck
    end.
    rewrite <- Hs' in Hi, Ht, Hc, Htot, Hck.
    split; [split; assumption|]. split; [exact Htot|].
    split; [rewrite Hck; simpl; lia | rewrite Hc; simpl; lia].
  - unfold exec in Hs'. rewrite goToNextPage_at_end in Hs' by lia. cbn [snd] in Hs'.
    rewrite idle_turn_effect in Hs' by exact Hq.
    subst s'. rewrite Hs' in *. unfold step, handle, exec, modify. simpl.
    split; [split; [exact Hw' | exact Ha]|].
    split; [reflexivity|]. split; lia.
Qed.

Lemma backward_turn_effect s :
  at_rest s ->
  let s' := run backward_turn s in
  at_rest s' /\ totalPages s' = totalPages s /\
  clock s' = clock s + 600 /\
  currentPage s' = Z.max (currentPage s - 1) 0.
Proof.
  intros Hr s'.
  pose proof (at_rest_calm s Hr) as Hq.
  pose proof (at_rest_bounds s Hr) as [H0 Hb].
  destruct Hr as [Hw Ha].
  destruct (walkable_run backward_turn s eq_refl Hw) as [Hw' _].
  fold s' in Hw'.
  assert (Hs' : s' = step TimerFires
                       (step (Elapse 600) (exec goToPreviousPage s)))
    by reflexivity.
  destruct (Z.lt_ge_cases 0 (currentPage s)) as [Hlt|Hge].
  - destruct Hw as (_ & _ & Hint).
    destruct (intact_query s (currentPage s - 1) Hint) as [h Hh]; [lia|].
    pose proof (goToPreviousPage_accepted s h Ha Hlt Hh) as Hgo.
    unfold exec in Hs'. rewrite Hgo in Hs'. cbn [snd] in Hs'.
    erewrite lone_timer_runs in Hs';
      [| simpl; rewrite Hq; reflexivity | simpl; lia].
    match type of Hs' with _ = exec (run_callback ?cb) ?s1 =>
      destruct (commit_settles cb s1 eq_refl) as (Hi & Ht & Hc);
      pose proof (run_callback_total (totalPages s) cb s1 eq_refl) as Htot;
      pose proof (run_callback_clock cb s1) as Hck
    end.
    rewrite <- Hs' in Hi, Ht, Hc, Htot, Hck.
    split; [split; assumption|]. split; [exact Htot|].
    split; [rewrite Hck; simpl; lia | rewrite Hc; simpl; lia].
  - unfold exec in Hs'. rewrite goToPreviousPage_at_start in Hs' by lia. cbn [snd] in Hs'.
    rewrite idle_turn_effect in Hs' by exact Hq.
    subst s'. rewrite Hs' in *. unfold step, handle, exec, modify. simpl.
    split; [split; [exact Hw' | exact Ha]|].
    split; [reflexivity|]. split; lia.
Qed.

Lemma loaded_at_rest : at_rest loaded.
Proof.
  split; [|reflexivity].
  apply (fresh_book_walkable two_pages (opened true true));
    [discriminate | reflexivity | reflexivity].
Qed.

(** X4: from a walkable book at rest, [n] forward turns, each waited for
    (request, 600 ms, timer), leave the book at rest on page
    [min (currentPage + n, totalPages - 1)]: one page per turn until the
    back cover, where further requests change nothing but the clock. *)
Theorem awaited_forward_turns n : forall s,
  at_rest s ->
  let s' := run (times n forward_turn) s in
  at_rest s' /\ totalPages s' = totalPages s /\
  clock s' = clock s + 600 * Z.of_nat n /\
  currentPage s' = Z.min (currentPage s + Z.of_nat n) (totalPages s - 1).
Proof.
  induction n as [|n IH]; intros s Hr.
  - pose proof (at_rest_bounds s Hr) as [H0 Hb]. simpl.
    split; [exact Hr|]. split; [reflexivity|]. split; lia.
  - cbv zeta. cbn [times]. rewrite run_app.
    destruct (forward_turn_effect s Hr) as (Hr1 & Ht1 & Hk1 & Hc1).
    destruct (IH _ Hr1) as (Hr2 & Ht2 & Hk2 & Hc2).
    split; [exact Hr2|]. split; [congruence|].
    split; [rewrite Hk2, Hk1; lia|].
    rewrite Hc2, Hc1, Ht1. lia.
Qed.

Lemma awaited_forward_turns_witness :
  at_rest loaded /\
  at_rest (run (times 5 forward_turn) loaded) /\
  currentPage (run (times 5 forward_turn) loaded) = 3 /\
  currentPage (run (times 2 forward_turn) loaded) = 2.
Proof.
  destruct (awaited_forward_turns 5 loaded loaded_at_rest)
    as (Hr & _ & _ & Hc).
  destruct (awaited_forward_turns 2 loaded loaded_at_rest)
    as (_ & _ & _ & Hc2).
  split; [exact loaded_at_rest|]. split; [exact Hr|].
  split; [exact Hc | exact Hc2].
Defined.

(** X5: from a walkable book at rest, [n] backward turns, each waited for,
    leave the book at rest on page [max (currentPage - n, 0)]. *)
Theorem awaited_backward_turns n : forall s,
  at_rest s ->
  let s' := run (times n backward_turn) s in
  at_rest s' /\ totalPages s' = totalPages s /\
  clock s' = clock s + 600 * Z.of_nat n /\
  currentPage s' = Z.max (currentPage s - Z.of_nat n) 0.
Proof.
  induction n as [|n IH]; intros s Hr.
  - pose proof (at_rest_bounds s Hr) as [H0 Hb]. simpl.
    split; [exact Hr|]. split; [reflexivity|]. split; lia.
  - cbv zeta. cbn [times]. rewrite run_app.
    destruct (backward_turn_effect s Hr) as (Hr1 & Ht1 & Hk1 & Hc1).
    destruct (IH _ Hr1) as (Hr2 & Ht2 & Hk2 & Hc2).
    split; [exact Hr2|]. split; [congruence|].
    split; [rewrite Hk2, Hk1; lia|].
    rewrite Hc2, Hc1. lia.
Qed.

Lemma awaited_backward_turns_witness :
  at_rest on_page_one /\
  at_rest (run (times 3 backward_turn) on_page_one) /\
  currentPage on_page_one = 1 /\
  currentPage (run (times 3 backward_turn) on_page_one) = 0.
Proof.
  assert (Hr : at_rest on_page_one).
  { destruct (forward_turn_effect loaded loaded_at_rest) as (Hr & _).
    exact Hr. }
  destruct (awaited_backward_turns 3 on_page_one Hr) as (Hr' & _ & _ & Hc).
  split; [exact Hr|]. split; [exact Hr'|].
  split; [reflexivity | exact Hc].
Defined.

(** ** What [updatePageState] writes *)

Lemma updatePageState_fields s :
  let s' := exec updatePageState s in
  elems s' = mark_pages (currentPage s) 0 (book s) (elems s) /\
  rotation s' = Some (Z.min (currentPage s * 2) 10) /\
  liveRegion s' =
    match liveRegion s with
    | Some _ => Some (Some (currentPage s + 1, totalPages s))
    | None => None
    end /\
  pageIndicator s' =
    match pageIndicator s with
    | Some _ => Some (Some (currentPage s + 1, totalPages s))
    | None => None
    end.
Proof.
  unfold updatePageState, adjustBookPosition, updateAccessibility,
    updatePageIndicators. js_unfold. simpl.
  destruct (liveRegion s) eqn:E1; destruct (pageIndicator s) eqn:E2; simpl;
    rewrite ?E1, ?E2; simpl; rewrite ?E1, ?E2; repeat split; reflexivity.
Qed.

Lemma set_access_absorbs a t a' t' e :
  set_access a t (set_access a' t' e) = set_access a t e.
Proof. reflexivity. Qed.

Lemma mark_pages_lookup cur hs : forall index els h,
  mark_pages cur index hs els !! h =
    match final_mark cur index hs h with
    | Some (hidden, tab) => set_access hidden tab <$> (els !! h)
    | None => els !! h
    end.
Proof.
  induction hs as [|a hs IH]; intros index els h; cbn [mark_pages final_mark];
    [reflexivity|].
  rewrite IH. destruct (final_mark cur (index + 1) hs h) as [[hidden tab]|].
  - destruct (decide (a = h)) as [->|Hne].
    + rewrite list_lookup_alter_eq. destruct (els !! h); reflexivity.
    + rewrite list_lookup_alter_ne by exact Hne. reflexivity.
  - destruct (Nat.eqb_spec a h) as [->|Hne].
    + rewrite list_lookup_alter_eq. reflexivity.
    + rewrite list_lookup_alter_ne by exact Hne. reflexivity.
Qed.

Lemma final_mark_absent cur hs : forall index h,
  (forall j, hs !! j <> Some h) -> final_mark cur index hs h = None.
Proof.
  induction hs as [|a hs IH]; intros index h Hno; cbn [final_mark];
    [reflexivity|].
  rewrite IH by (intros j; apply (Hno (S j))).
  destruct (Nat.eqb_spec a h) as [->|Hne]; [|reflexivity].
  exfalso. apply (Hno 0%nat). reflexivity.
Qed.

Lemma final_mark_once cur hs : forall index (j : nat) h,
  hs !! j = Some h ->
  (forall j', hs !! j' = Some h -> j' = j) ->
  final_mark cur index hs h =
    Some (index + Z.of_nat j <? cur,
          if index + Z.of_nat j =? cur then 0 else -1).
Proof.
  induction hs as [|a hs IH]; intros index j h Hj Honce; [discriminate|].
  cbn [final_mark]. destruct j as [|j].
  - injection Hj as ->.
    rewrite final_mark_absent.
    + rewrite Nat.eqb_refl, Z.add_0_r. reflexivity.
    + intros j' Hj'. specialize (Honce (S j') Hj'). discriminate.
  - rewrite (IH (index + 1) j h Hj).
    + replace (index + 1 + Z.of_nat j) with (index + Z.of_nat (S j)) by lia.
      reflexivity.
    + intros j' Hj'. specialize (Honce (S j') Hj'). lia.
Qed.

Lemma paged_once s (j j' : nat) h :
  paged s -> book s !! j = Some h -> book s !! j' = Some h -> j' = j.
Proof.
  intros Hp Hj Hj'.
  destruct (Hp j h Hj) as (e & He & Hd).
  destruct (Hp j' h Hj') as (e' & He' & Hd').
  rewrite He in He'. injection He' as <-. rewrite Hd in Hd'.
  injection Hd' as Heq. lia.
Qed.

(** X6: on a book whose pages are in place, [updatePageState] leaves the
    page at position [j] with [aria-hidden] true exactly when [j] is below
    the cursor and with [tabindex] 0 exactly when [j] is the cursor (-1
    otherwise), touching nothing else of the element; the book rotation
    is [min (2 * currentPage, 10)] degrees and both indicators, where the
    document has them, read [currentPage + 1] of [totalPages]. *)
Theorem accessibility_follows_cursor s (j : nat) h :
  paged s -> book s !! j = Some h ->
  let s' := exec updatePageState s in
  (exists e, elems s !! h = Some e /\
     elems s' !! h =
       Some (set_access (Z.of_nat j <? currentPage s)
               (if Z.of_nat j =? currentPage s then 0 else -1) e)) /\
  rotation s' = Some (Z.min (currentPage s * 2) 10) /\
  liveRegion s' =
    (fun _ => Some (currentPage s + 1, totalPages s)) <$> liveRegion s /\
  pageIndicator s' =
    (fun _ => Some (currentPage s + 1, totalPages s)) <$> pageIndicator s.
Proof.
  intros Hp Hj s'.
  destruct (updatePageState_fields s) as (He & Hr & Hl & Hi).
  fold s' in He, Hr, Hl, Hi.
  split; [|split; [exact Hr|split]].
  - destruct (Hp j h Hj) as (e & Hel & _). exists e. split; [exact Hel|].
    rewrite He, mark_pages_lookup.
    rewrite (final_mark_once _ _ 0 j h Hj)
      by (intros j' Hj'; exact (paged_once s j j' h Hp Hj Hj')).
    rewrite Hel. reflexivity.
  - rewrite Hl. destruct (liveRegion s); reflexivity.
  - rewrite Hi. destruct (pageIndicator s); reflexivity.
Qed.

Lemma accessibility_follows_cursor_witness :
  paged on_page_one /\ book on_page_one !! 2%nat = Some 2%nat /\
  (aria_hidden <$> (elems (exec updatePageState on_page_one) !! 0%nat))
    = Some (Some true) /\
  (tabindex <$> (elems (exec updatePageState on_page_one) !! 1%nat))
    = Some (Some 0) /\
  (exists e, elems on_page_one !! 2%nat = Some e /\
     elems (exec updatePageState on_page_one) !! 2%nat =
       Some (set_access false (-1) e)).
Proof.
  assert (Hp : paged on_page_one).
  { destruct (forward_turn_effect loaded loaded_at_rest)
      as (((_ & _ & Hp & _) & _) & _). exact Hp. }
  assert (H2 : book on_page_one !! 2%nat = Some 2%nat) by reflexivity.
  destruct (accessibility_follows_cursor on_page_one 2 2%nat Hp H2)
    as (Hm & _).
  split; [exact Hp|]. split; [exact H2|].
  split; [reflexivity|]. split; [reflexivity | exact Hm].
Defined.

(** ** The response handler *)

Lemma storyResponse_success data s :
  pages data <> [] ->
  exists s1, populateBook data s = (Ok tt, s1) /\
    storyResponse (Some data) s =
      (Ok tt, exec initializeBook (set_currentPage 0 s1)).
Proof.
  intros Hne.
  destruct (populateBook_appends data s Hne) as (s1 & new & Hpop & _).
  exists s1. split; [exact Hpop|].
  unfold storyResponse, try_catch.
  erewrite bind_ok by exact Hpop.
  erewrite bind_ok by reflexivity.
  destruct (initializeBook_effect (set_currentPage 0 s1)) as (Hok & _).
  unfold exec.
  destruct (initializeBook (set_currentPage 0 s1)) as [r s2].
  simpl in Hok. subst r. reflexivity.
Qed.

Lemma storyResponse_loads data s :
  pages data <> [] ->
  let s' := exec (storyResponse (Some data)) s in
  fst (storyResponse (Some data) s) = Ok tt /\
  alerts s' = alerts s /\ currentPage s' = 0.
Proof.
  intros Hne s'.
  destruct (storyResponse_success data s Hne) as (s1 & Hpop & Heq).
  subst s'. unfold exec at 1 2. rewrite Heq. cbn [fst snd].
  split; [reflexivity|].
  destruct (initializeBook_effect (set_currentPage 0 s1))
    as (_ & Hc & _ & _ & Ha).
  rewrite Ha, Hc. split; [|reflexivity].
  pose proof (populateBook_alerts data s) as Hpa.
  unfold exec in Hpa. rewrite Hpop in Hpa. exact Hpa.
Qed.



Lemma appendStoryPages_clock ps : forall i s,
  clock (exec (appendStoryPages i ps) s) = clock s.
Proof.
  induction ps as [|p ps IH]; intros i s; [reflexivity|].
  cbn [appendStoryPages]. unfold exec. erewrite bind_ok by reflexivity.
  change (clock (exec (appendStoryPages (i + 1) ps)
            (exec (appendChild
               (createPage (i + 1) (StoryLeaf (text p) (image p) (i + 1)))) s))
          = clock s).
  rewrite IH. reflexivity.
Qed.

Lemma storyResponse_clock r s : clock (exec (storyResponse r) s) = clock s.
Proof.
  set (P := fun s' : Book => clock s' = clock s).
  enough (H : forall s0, P s0 -> P (exec (storyResponse r) s0))
    by (apply H; reflexivity).
  unfold storyResponse.
  apply exec_try_catch_keeps; [|intros e s0 H; exact H].
  destruct r as [data|]; [|intros s0 H; exact H].
  apply exec_bind_keeps.
  - unfold populateBook.
    destruct (pages data !! 0%nat) as [p0|]; [|intros s0 H; exact H].
    apply exec_bind_keeps; [intros s0 H; exact H|]. intros _.
    apply exec_bind_keeps; [|intros _ s0 H; exact H].
    intros s0 H. unfold P in *. rewrite appendStoryPages_clock. exact H.
  - intros _. apply exec_bind_keeps; [intros s0 H; exact H|]. intros _.
    unfold initializeBook.
    apply exec_bind_keeps; [intros s0 H; exact H|]. intros _ s0 H.
    destruct (updatePageState_frame s0) as (s1 & Hs1 & _ & _ & _ & _ & Hck & _).
    unfold P, exec in *. rewrite Hs1. simpl. congruence.
Qed.

(** X8: a page turn that is in flight when a new story arrives is not
    cancelled.  From a book at rest before its back cover, a forward
    request followed by a successful response and then the 600 ms timer
    leaves the book on page 1, not on the cover the response had just
    reset it to. *)
Theorem stale_commit_after_reload data s :
  at_rest s -> currentPage s < totalPages s - 1 -> pages data <> [] ->
  let s1 := run [ClickRightTurn; StoryResponse (Some data)] s in
  let s2 := run [Elapse 600; TimerFires] s1 in
  currentPage s1 = 0 /\ isAnimating s1 = true /\
  currentPage s2 = 1 /\ isAnimating s2 = false.
Proof.
  intros Hr Hlt Hne s1 s2.
  pose proof (at_rest_calm s Hr) as Hq.
  pose proof (at_rest_bounds s Hr) as [H0 _].
  destruct Hr as [(_ & _ & Hint) Ha].
  destruct (intact_query s (currentPage s) Hint) as [h Hh]; [lia|].
  pose proof (goToNextPage_accepted s h Ha Hlt Hh) as Hgo.
  assert (Hs1 : s1 = exec (storyResponse (Some data)) (exec goToNextPage s))
    by reflexivity.
  assert (Hs2 : s2 = step TimerFires (step (Elapse 600) s1)) by reflexivity.
  clearbody s1 s2.
  destruct (storyResponse_same_turn (Some data) (exec goToNextPage s))
    as [Ht Hi].
  pose proof (storyResponse_clock (Some data) (exec goToNextPage s)) as Hck.
  destruct (storyResponse_loads data (exec goToNextPage s) Hne)
    as (_ & _ & Hc1).
  rewrite <- Hs1 in Ht, Hi, Hck, Hc1.
  unfold exec in Ht, Hi, Hck. rewrite Hgo in Ht, Hi, Hck.
  cbn [snd] in Ht, Hi, Hck. simpl in Ht, Hi, Hck. rewrite Hq in Ht.
  simpl in Ht.
  split; [exact Hc1|]. split; [exact Hi|].
  rewrite Hs2. erewrite lone_timer_runs; [| exact Ht | lia].
  match goal with |- context [exec (run_callback ?cb) ?s0] =>
    destruct (commit_settles cb s0 eq_refl) as (Hi2 & _ & Hc2) end.
  split; [rewrite Hc2; simpl; lia | exact Hi2].
Qed.

Lemma stale_commit_after_reload_witness :
  let s1 := run [ClickRightTurn; StoryResponse (Some two_pages)] loaded in
  let s2 := run [Elapse 600; TimerFires] s1 in
  at_rest loaded /\ currentPage loaded < totalPages loaded - 1 /\
  pages two_pages <> [] /\
  currentPage s1 = 0 /\ isAnimating s1 = true /\
  currentPage s2 = 1 /\ isAnimating s2 = false.
Proof.
  intros s1 s2.
  assert (Hlt : currentPage loaded < totalPages loaded - 1)
    by (vm_compute; reflexivity).
  assert (Hne : pages two_pages <> []) by discriminate.
  split; [exact loaded_at_rest|]. split; [exact Hlt|]. split; [exact Hne|].
  exact (stale_commit_after_reload two_pages loaded loaded_at_rest Hlt Hne).
Defined.

End BookMore.

(** * More about the story viewer *)

Module ViewerMore.
Import Viewer.
Import ViewerFacts.

Section Scripted.
Variable nextPage : M Viewer unit.
Variable enhanceStoryText : string -> string.
Variable voiceScriptLoaded : bool.

#[local] Abbreviation step :=
  (step nextPage enhanceStoryText voiceScriptLoaded).
#[local] Abbreviation run :=
  (run nextPage enhanceStoryText voiceScriptLoaded).
#[local] Abbreviation run_callback :=
  (run_callback nextPage enhanceStoryText voiceScriptLoaded).
#[local] Abbreviation fireTimer :=
  (fireTimer nextPage enhanceStoryText voiceScriptLoaded).

(** ** A story arrives *)

Lemma updateNavigationButtons_effect s st :
  currentStory s = Some st ->
  updateNavigationButtons s =
    (Ok tt,
     set_dom (set_currentPageIndicator (currentPageIndex s + 1)
                (set_nextDisabled (currentPageIndex s =? page_count st)
                   (set_prevDisabled (currentPageIndex s =? 0) (dom s)))) s).
Proof.
  intros Hst. unfold updateNavigationButtons, on_dom. js_unfold. simpl.
  rewrite Hst. reflexivity.
Qed.

(** X9: a fulfilled request never makes the handler throw.  It stores the
    story, puts the cursor on the cover, announces the story once to the
    flipbook, shows the viewer and hides the loading indicator; it leaves
    alone the error box, the timers, the narration and the [flipped]
    class of the cover.  With the traditional book visible it rebuilds
    the page elements and leaves the buttons in step with the cursor. *)
Theorem generation_success_effect story s :
  let s' := exec (handleGenerateStory_settle (Fulfilled story)) s in
  returns (handleGenerateStory_settle (Fulfilled story)) s = true /\
  currentStory s' = Some story /\ currentPageIndex s' = 0 /\
  dispatched s' = dispatched s ++ [story] /\
  loadingHidden (dom s') = true /\ viewerHidden (dom s') = false /\
  storyTitle (dom s') = title story /\
  errorHidden (dom s') = errorHidden (dom s) /\
  errorText (dom s') = errorText (dom s) /\
  cover (dom s') = cover (dom s) /\
  timers s' = timers s /\ isReadingAloud s' = isReadingAloud s /\
  speechQueue s' = speechQueue s /\
  (traditionalHidden (dom s) = false ->
   bookPages (dom s') = buildPages (page_count story) 0 (pages story) /\
   totalPagesIndicator (dom s') = page_count story + 1 /\
   buttons_agree story s') /\
  (traditionalHidden (dom s) = true ->
   bookPages (dom s') = bookPages (dom s) /\
   prevDisabled (dom s') = prevDisabled (dom s) /\
   nextDisabled (dom s') = nextDisabled (dom s)).
Proof.
  unfold handleGenerateStory_settle, displayStory, showStoryViewer,
    hideLoading, updateNavigationButtons, on_dom, buttons_agree.
  js_unfold. simpl.
  destruct (pages story !! 0%nat) as [first|]; simpl;
    destruct (traditionalHidden (dom s)) eqn:Htrad; simpl;
    destruct (coverImage (dom s)); simpl; rewrite ?Htrad; simpl;
    repeat split; try reflexivity; try discriminate.
Qed.

(** ** Finding the page elements *)

Lemma getPageById_buildPages total ps : forall position off (j : nat),
  (forall (i : nat) p, ps !! i = Some p ->
     index p = Some (off + Z.of_nat i + 1)) ->
  (j < length ps)%nat ->
  getPageById (off + Z.of_nat j + 1) (buildPages total position ps) = Some j.
Proof.
  induction ps as [|p ps IH]; intros position off j Hnum Hj; simpl in Hj;
    [lia|].
  cbn [buildPages getPageById]. unfold has_id at 1. simpl.
  rewrite (Hnum 0%nat p eq_refl).
  destruct j as [|j].
  - rewrite Z.eqb_refl. reflexivity.
  - destruct (off + Z.of_nat 0 + 1 =? off + Z.of_nat (S j) + 1) eqn:Heq;
      [apply Z.eqb_eq in Heq; lia|].
    replace (off + Z.of_nat (S j) + 1) with ((off + 1) + Z.of_nat j + 1)
      by lia.
    rewrite (IH (position + 1) (off + 1) j); [reflexivity | | lia].
    intros i q Hq. rewrite (Hnum (S i) q Hq). f_equal. lia.
Qed.

Lemma buildPages_lookup total ps : forall position (i : nat) p,
  ps !! i = Some p ->
  buildPages total position ps !! i =
    Some {| page_id := index p; flipped := false;
            zIndex := total - (position + Z.of_nat i); shown := p |}.
Proof.
  induction ps as [|q ps IH]; intros position i p Hi; [discriminate|].
  destruct i as [|i]; cbn [buildPages].
  - injection Hi as ->. simpl. rewrite Z.add_0_r. reflexivity.
  - simpl in Hi. change ((?x :: ?l) !! S i) with (l !! i).
    rewrite (IH (position + 1) i p Hi). do 3 f_equal. lia.
Qed.

Lemma buildPages_length total ps : forall position,
  length (buildPages total position ps) = length ps.
Proof.
  induction ps as [|p ps IH]; intros position; simpl; [reflexivity|].
  rewrite IH. reflexivity.
Qed.

Lemma fulfilled_builds_pages story s :
  traditionalHidden (dom s) = false ->
  bookPages (dom (exec (handleGenerateStory_settle (Fulfilled story)) s)) =
    buildPages (page_count story) 0 (pages story).
Proof.
  intros Htrad.
  unfold handleGenerateStory_settle, displayStory, showStoryViewer,
    hideLoading, updateNavigationButtons, on_dom.
  js_unfold. simpl.
  destruct (pages story !! 0%nat) as [first|]; simpl; rewrite ?Htrad; simpl;
    destruct (coverImage (dom s)); simpl; rewrite ?Htrad; reflexivity.
Qed.

(** X10: when the pages of the story carry the indices 1, 2, ... in
    order and the traditional book is visible, the viewer that has just
    received the story holds one unflipped element per page, stacked with
    z-index [pages.length - i] at position [i], and
    [getElementById('page-' + k)] finds the element of page [k] for every
    [k] from 1 to [pages.length]. *)
Theorem displayed_pages_are_found story s :
  numbered (pages story) -> traditionalHidden (dom s) = false ->
  let s' := exec (handleGenerateStory_settle (Fulfilled story)) s in
  length (bookPages (dom s')) = length (pages story) /\
  forall (i : nat) p, pages story !! i = Some p ->
    bookPages (dom s') !! i =
      Some {| page_id := Some (Z.of_nat i + 1); flipped := false;
              zIndex := page_count story - Z.of_nat i; shown := p |} /\
    pageElementFor (Z.of_nat i + 1) (dom s') = Some (PageRef i).
Proof.
  intros Hnum Htrad s'.
  pose proof (fulfilled_builds_pages story s Htrad) as Hpages.
  fold s' in Hpages.
  rewrite Hpages. split; [apply buildPages_length|].
  intros i p Hi. split.
  - rewrite (buildPages_lookup _ _ 0 i p Hi), (Hnum i p Hi). reflexivity.
  - unfold pageElementFor. rewrite Hpages.
    destruct (Z.of_nat i + 1 =? 0) eqn:Heq; [apply Z.eqb_eq in Heq; lia|].
    replace (Z.of_nat i + 1) with (0 + Z.of_nat i + 1) by lia.
    rewrite (getPageById_buildPages _ _ 0 0 i); [reflexivity | |].
    + intros i' q Hq. rewrite (Hnum i' q Hq). f_equal.
    + apply lookup_lt_Some in Hi. exact Hi.
Qed.

(** ** Walking through the story *)

Lemma run_events_app evs1 evs2 s : run (evs1 ++ evs2) s = run evs2 (run evs1 s).
Proof. unfold Viewer.run. apply fold_left_app. Qed.

Lemma idle_fire s : timers s = [] -> step TimerFires s = s.
Proof.
  intros Hq. unfold Viewer.step, handle, Viewer.fireTimer. js_unfold. simpl.
  rewrite Hq. reflexivity.
Qed.

Lemma click_next_effect s st :
  showing st s -> currentPageIndex s < page_count st ->
  let s1 := step ClickNextPage s in
  currentStory s1 = Some st /\ isReadingAloud s1 = false /\
  clock s1 = clock s /\
  ((timers s1 = [(clock s + 50, CommitFlip)] /\
    currentPageIndex s1 = currentPageIndex s) \/
   (timers s1 = [] /\ currentPageIndex s1 = currentPageIndex s + 1 /\
    buttons_agree st s1)).
Proof.
  intros (Hst & Hq & [H0 Hn] & (Hp & Hnx & Hind)) Hlt.
  assert (Hnx' : nextDisabled (dom s) = false).
  { rewrite Hnx. apply Z.eqb_neq. lia. }
  assert (Hlt' : (currentPageIndex s <? page_count st) = true)
    by (apply Z.ltb_lt; exact Hlt).
  unfold Viewer.step, handle, goToNextPage, stopReading,
    updateNavigationButtons, on_dom, setTimeout, buttons_agree.
  js_unfold. simpl. rewrite Hnx', Hst. simpl. rewrite Hlt'.
  destruct (isReadingAloud s) eqn:Hr; simpl;
    [destruct (hasSpeech s); simpl|];
    (destruct (pageElementFor (currentPageIndex s) (dom s)); simpl;
     rewrite ?Hst, ?Hq; simpl;
     repeat split; try reflexivity; try assumption;
     (left; split; rewrite ?Hq; reflexivity)
     || (right; repeat split; (reflexivity || assumption))).
Qed.

Lemma commitFlip_effect s st :
  currentStory s = Some st -> isReadingAloud s = false -> timers s = [] ->
  let s2 := exec commitFlip s in
  currentStory s2 = Some st /\ isReadingAloud s2 = false /\
  timers s2 = [] /\ clock s2 = clock s /\
  currentPageIndex s2 = currentPageIndex s + 1 /\ buttons_agree st s2.
Proof.
  intros Hst Hr Hq.
  unfold commitFlip, updateNavigationButtons, on_dom, setTimeout,
    buttons_agree.
  js_unfold. simpl. rewrite Hst. simpl. rewrite Hr. simpl.
  repeat split; (reflexivity || assumption).
Qed.

Lemma next_turn_effect s st :
  showing st s ->
  let s' := run next_turn s in
  showing st s' /\ clock s' = clock s + 50 /\
  currentPageIndex s' = Z.min (currentPageIndex s + 1) (page_count st).
Proof.
  intros Hshow s'.
  assert (Hs' : s' = step TimerFires (step (Elapse 50) (step ClickNextPage s)))
    by reflexivity.
  clearbody s'.
  destruct (Z.lt_ge_cases (currentPageIndex s) (page_count st)) as [Hlt|Hge].
  - destruct (click_next_effect s st Hshow Hlt)
      as (Hst1 & Hr1 & Hck1 & [[Hq1 Hi1]|(Hq1 & Hi1 & Hb1)]);
      destruct Hshow as (Hst & Hq & [H0 Hn] & Hb).
    + rewrite (sole_timer_runs _ _ _ _ _ _ _ Hq1) in Hs' by (simpl; lia).
      match type of Hs' with _ = exec _ ?s0 =>
        destruct (commitFlip_effect s0 st Hst1 Hr1 eq_refl)
          as (Hst2 & _ & Hq2 & Hck2 & Hi2 & Hb2) end.
      change (Viewer.run_callback nextPage enhanceStoryText voiceScriptLoaded
                CommitFlip) with commitFlip in Hs'.
      rewrite <- Hs' in Hst2, Hq2, Hck2, Hi2, Hb2. simpl in Hck2, Hi2.
      split; [|split; lia].
      split; [exact Hst2|]. split; [exact Hq2|]. split; [lia | exact Hb2].
    + rewrite idle_fire in Hs' by exact Hq1.
      subst s'. unfold Viewer.step at 1, handle, exec, modify. simpl.
      split; [|split; lia].
      unfold showing. simpl.
      split; [exact Hst1|]. split; [exact Hq1|]. split; [lia | exact Hb1].
  - destruct Hshow as (Hst & Hq & [H0 Hn] & Hb).
    assert (Hclick : step ClickNextPage s = s).
    { destruct Hb as (_ & Hnx & _).
      unfold Viewer.step, handle. js_unfold. simpl. rewrite Hnx.
      replace (currentPageIndex s =? page_count st) with true
        by (symmetry; apply Z.eqb_eq; lia).
      reflexivity. }
    rewrite Hclick, idle_fire in Hs' by exact Hq.
    subst s'. unfold Viewer.step, handle, exec, modify. simpl.
    split; [|split; lia].
    unfold showing. simpl.
    split; [exact Hst|]. split; [exact Hq|]. split; [lia | exact Hb].
Qed.

Lemma click_previous_effect s st :
  showing st s ->
  let s' := step ClickPrevPage s in
  showing st s' /\ clock s' = clock s /\
  currentPageIndex s' = Z.max (currentPageIndex s - 1) 0.
Proof.
  intros (Hst & Hq & [H0 Hn] & (Hp & Hnx & Hind)).
  unfold Viewer.step, handle. js_unfold. simpl. rewrite Hp.
  destruct (currentPageIndex s =? 0) eqn:Hz.
  - apply Z.eqb_eq in Hz. simpl.
    split; [repeat split; try assumption; try lia|]; [|split; [reflexivity|lia]].
    rewrite Hp. symmetry. apply Z.eqb_eq. exact Hz.
  - apply Z.eqb_neq in Hz.
    assert (Hgt : (currentPageIndex s >? 0) = true) by (apply Z.gtb_lt; lia).
    unfold goToPreviousPage, stopReading, updateNavigationButtons, on_dom,
      setTimeout, showing, buttons_agree.
    js_unfold. simpl. rewrite Hgt.
    destruct (isReadingAloud s) eqn:Hr; simpl;
      [destruct (hasSpeech s); simpl|];
      (destruct (pageElementFor (currentPageIndex s - 1) (dom s)); simpl;
       rewrite ?Hst; simpl; rewrite ?Hr; simpl;
       repeat split; try reflexivity; try assumption; lia).
Qed.

(** X11: in a viewer that shows a story with nothing scheduled, [n]
    clicks on "next", each waited for (50 ms and the timer), leave the
    viewer on page [min (currentPageIndex + n, pages.length)] with the
    buttons in step and nothing scheduled, whether or not the page
    elements are found and whether or not the story was being read. *)
Theorem awaited_next_clicks n : forall s st,
  showing st s ->
  let s' := run (times n next_turn) s in
  showing st s' /\ clock s' = clock s + 50 * Z.of_nat n /\
  currentPageIndex s' =
    Z.min (currentPageIndex s + Z.of_nat n) (page_count st).
Proof.
  induction n as [|n IH]; intros s st Hshow.
  - pose proof Hshow as (_ & _ & [H0 Hn] & _). simpl.
    split; [exact Hshow|]. split; lia.
  - cbv zeta. cbn [times]. rewrite run_events_app.
    destruct (next_turn_effect s st Hshow) as (Hs1 & Hk1 & Hc1).
    destruct (IH _ st Hs1) as (Hs2 & Hk2 & Hc2).
    split; [exact Hs2|]. split; [rewrite Hk2, Hk1; lia|].
    rewrite Hc2, Hc1. lia.
Qed.

(** X12: in such a viewer [n] clicks on "previous" leave it on page
    [max (currentPageIndex - n, 0)], at once: nothing is scheduled and
    the clock is not needed. *)
Theorem previous_clicks_count n : forall s st,
  showing st s ->
  let s' := run (times n [ClickPrevPage]) s in
  showing st s' /\ clock s' = clock s /\
  currentPageIndex s' = Z.max (currentPageIndex s - Z.of_nat n) 0.
Proof.
  induction n as [|n IH]; intros s st Hshow.
  - pose proof Hshow as (_ & _ & [H0 Hn] & _). simpl.
    split; [exact Hshow|]. split; lia.
  - cbv zeta. cbn [times]. rewrite run_events_app.
    destruct (click_previous_effect s st Hshow) as (Hs1 & Hk1 & Hc1).
    change (run [ClickPrevPage] s) with (step ClickPrevPage s).
    destruct (IH _ st Hs1) as (Hs2 & Hk2 & Hc2).
    split; [exact Hs2|]. split; [rewrite Hk2, Hk1; lia|].
    rewrite Hc2, Hc1. lia.
Qed.

(** ** Timers that outlive what they were set for *)

Lemma showError_effect message s :
  showError message s =
    (Ok tt,
     set_timers (timers s ++ [(clock s + 8000, HideError)])
       (set_dom (set_errorHidden false (set_errorText message (dom s))) s)).
Proof. reflexivity. Qed.

Lemma pop_due_first {C} (clock d1 d2 : Z) (c1 c2 : C) :
  d1 <= d2 -> d1 <= clock ->
  pop_due clock [(d1, c1); (d2, c2)] = Some (c1, [(d2, c2)]).
Proof.
  intros H12 Hdue. unfold pop_due. simpl.
  rewrite Z.min_l by exact H12.
  destruct (d1 <=? clock) eqn:Hle; [|lia].
  rewrite Z.eqb_refl. reflexivity.
Qed.

(** X13: the timer that hides the error box is never cancelled.  When a
    second message is shown [d] ms after a first one ([d < 8000]), the
    first message's timer hides the second message when it is only
    [8000 - d] ms old, and the second timer is still pending. *)
Theorem second_error_hidden_early m1 m2 (d : N) s :
  timers s = [] -> Z.of_N d < 8000 ->
  let s1 := step (Elapse d) (exec (showError m1) s) in
  let s2 := exec (showError m2) s1 in
  let s3 := step TimerFires (step (Elapse (8000 - d)) s2) in
  errorText (dom s2) = m2 /\ errorHidden (dom s2) = false /\
  errorText (dom s3) = m2 /\ errorHidden (dom s3) = true /\
  clock s3 = clock s2 + (8000 - Z.of_N d) /\
  timers s3 = [(clock s2 + 8000, HideError)].
Proof.
  intros Hq Hd s1 s2 s3.
  assert (Hsub : Z.of_N (8000 - d) = 8000 - Z.of_N d) by lia.
  subst s3 s2 s1.
  unfold Viewer.step, handle, Viewer.fireTimer, exec.
  rewrite !showError_effect. unfold modify, bind, gets. simpl.
  rewrite Hq. simpl. rewrite Hsub.
  rewrite pop_due_first by lia. simpl.
  repeat split; try reflexivity; lia.
Qed.

Lemma toggle_twice s :
  hasSpeech s = true -> isReadingAloud s = false ->
  Viewer.run nextPage enhanceStoryText false
    [ClickToggleReadAloud; ClickToggleReadAloud] s =
  set_speechQueue []
    (set_isReadingAloud false
       (set_timers (timers s ++ [(clock s + 500, ReadPage)])
          (set_isReadingAloud true s))).
Proof.
  intros Hsp Hr.
  unfold Viewer.run, Viewer.step, handle, toggleReadAloud, startReading,
    stopReading, setTimeout. simpl.
  js_unfold. simpl. rewrite Hr. simpl. rewrite Hsp. reflexivity.
Qed.

Lemma readCurrentPage_frame s :
  isReadingAloud (exec readCurrentPage s) = isReadingAloud s /\
  timers (exec readCurrentPage s) = timers s.
Proof.
  unfold readCurrentPage, cancel, speak. js_unfold. simpl.
  destruct (hasSpeech s); simpl; [|split; reflexivity].
  destruct (currentStory s) as [st|]; simpl; [|split; reflexivity].
  destruct (nonempty (textToRead (currentPageIndex s) st)); simpl;
    split; reflexivity.
Qed.

(** X14: stopping the narration does not cancel the start that is still
    pending.  With the main script's [readCurrentPage] in place, pressing
    the read-aloud button twice within the 500 ms delay leaves
    [isReadingAloud] false, and when the timer runs the page is spoken
    all the same. *)
Theorem stopped_narration_still_speaks s st :
  hasSpeech s = true -> currentStory s = Some st ->
  isReadingAloud s = false -> timers s = [] ->
  nonempty (textToRead (currentPageIndex s) st) = true ->
  let s1 := Viewer.run nextPage enhanceStoryText false
              [ClickToggleReadAloud; ClickToggleReadAloud] s in
  let s2 := Viewer.run nextPage enhanceStoryText false
              [Elapse 500; TimerFires] s1 in
  isReadingAloud s1 = false /\ speechQueue s1 = [] /\
  isReadingAloud s2 = false /\ timers s2 = [] /\
  speechQueue s2 =
    [{| spoken := textToRead (currentPageIndex s) st; by_override := false |}].
Proof.
  intros Hsp Hst Hr Hq Htext s1 s2.
  assert (Hs1 : s1 = set_speechQueue []
                  (set_isReadingAloud false
                     (set_timers [(clock s + 500, ReadPage)]
                        (set_isReadingAloud true s)))).
  { subst s1. rewrite (toggle_twice s Hsp Hr), Hq. reflexivity. }
  assert (Hs2 : s2 = Viewer.step nextPage enhanceStoryText false TimerFires
                   (Viewer.step nextPage enhanceStoryText false
                      (Elapse 500) s1)) by reflexivity.
  clearbody s1 s2. subst s1.
  erewrite sole_timer_runs in Hs2; [| reflexivity | simpl; lia].
  change (Viewer.run_callback nextPage enhanceStoryText false ReadPage)
    with readCurrentPage in Hs2.
  match type of Hs2 with _ = exec readCurrentPage ?s0 =>
    destruct (readCurrentPage_frame s0) as [Hr2 Hq2];
    pose proof (readCurrentPage_speaks s0 st Hsp Hst Htext) as Hsq
  end.
  rewrite <- Hs2 in Hr2, Hq2, Hsq.
  split; [reflexivity|]. split; [reflexivity|].
  split; [exact Hr2|]. split; [exact Hq2 | exact Hsq].
Qed.

(** X15: a page turn in flight when the reader goes back to the form is
    not cancelled either.  Its callback runs after [resetToForm] has
    cleared the story: it moves [currentPageIndex] to 1 and then throws
    in [updateNavigationButtons], which reads [currentStory.pages]. *)
Theorem turn_outlives_story s st r :
  showing st s -> currentPageIndex s < page_count st ->
  pageElementFor (currentPageIndex s) (dom s) = Some r ->
  let s1 := run [ClickNextPage; ClickBackToForm; Elapse 50] s in
  currentStory s1 = None /\ currentPageIndex s1 = 0 /\
  returns (handle nextPage enhanceStoryText voiceScriptLoaded TimerFires) s1
    = false /\
  currentStory (step TimerFires s1) = None /\
  currentPageIndex (step TimerFires s1) = 1 /\
  timers (step TimerFires s1) = [].
Proof.
  intros (Hst & Hq & [H0 Hn] & (Hp & Hnx & Hind)) Hlt Hfind s1. subst s1.
  assert (Hnx' : nextDisabled (dom s) = false).
  { rewrite Hnx. apply Z.eqb_neq. lia. }
  assert (Hlt' : (currentPageIndex s <? page_count st) = true)
    by (apply Z.ltb_lt; exact Hlt).
  unfold Viewer.run, Viewer.step, handle, goToNextPage, resetToForm,
    stopReading, on_dom, setTimeout, Viewer.fireTimer. simpl.
  js_unfold. simpl. rewrite Hnx', Hst. simpl. rewrite Hlt'.
  destruct (isReadingAloud s) eqn:Hr; simpl;
    [destruct (hasSpeech s); simpl|];
    rewrite Hfind; simpl; rewrite ?Hr; simpl; rewrite Hq; simpl;
    rewrite pop_due_single;
    (destruct (clock s + 50 <=? clock s + 50) eqn:Hle; [|lia]);
    unfold Viewer.run_callback, commitFlip, updateNavigationButtons, on_dom;
    js_unfold; simpl; repeat split; reflexivity.
Qed.

End Scripted.

Lemma loaded_showing : showing two_pages loaded.
Proof.
  unfold showing, buttons_agree. vm_compute.
  repeat split; try reflexivity; discriminate.
Qed.

Lemma generation_success_effect_witness :
  traditionalHidden (dom initial) = false /\
  currentStory loaded = Some two_pages /\ currentPageIndex loaded = 0 /\
  dispatched loaded = [two_pages] /\
  length (bookPages (dom loaded)) = 2%nat /\ buttons_agree two_pages loaded.
Proof.
  destruct (generation_success_effect two_pages initial)
    as (_ & Hst & Hi & Hd & _ & _ & _ & _ & _ & _ & _ & _ & _ & Hvis & _).
  destruct (Hvis eq_refl) as (Hp & _ & Hb).
  split; [reflexivity|]. split; [exact Hst|]. split; [exact Hi|].
  split; [exact Hd|]. split; [|exact Hb].
  change (bookPages (dom loaded)) with
    (bookPages (dom (exec (handleGenerateStory_settle (Fulfilled two_pages))
                       initial))).
  rewrite Hp. reflexivity.
Defined.

Lemma displayed_pages_are_found_witness :
  numbered (pages two_pages) /\ traditionalHidden (dom initial) = false /\
  length (bookPages (dom loaded)) = 2%nat /\
  pageElementFor 2 (dom loaded) = Some (PageRef 1).
Proof.
  assert (Hnum : numbered (pages two_pages)).
  { intros [|[|i]] p Hp; simpl in Hp; try discriminate;
      injection Hp as <-; reflexivity. }
  assert (Htrad : traditionalHidden (dom initial) = false) by reflexivity.
  destruct (displayed_pages_are_found two_pages initial Hnum Htrad)
    as (Hlen & Hfind).
  split; [exact Hnum|]. split; [exact Htrad|]. split; [exact Hlen|].
  exact (proj2 (Hfind 1%nat _ eq_refl)).
Defined.

Lemma awaited_next_clicks_witness :
  showing two_pages loaded /\
  showing two_pages (play (times 5 next_turn) loaded) /\
  currentPageIndex (play (times 5 next_turn) loaded) = 2 /\
  currentPageIndex (play (times 1 next_turn) loaded) = 1.
Proof.
  destruct (awaited_next_clicks nextPage_requestNext (fun t => t) false 5
              loaded two_pages loaded_showing) as (Hs & _ & Hc).
  destruct (awaited_next_clicks nextPage_requestNext (fun t => t) false 1
              loaded two_pages loaded_showing) as (_ & _ & Hc1).
  split; [exact loaded_showing|]. split; [exact Hs|].
  split; [exact Hc | exact Hc1].
Defined.

Lemma previous_clicks_count_witness :
  showing two_pages at_end /\ currentPageIndex at_end = 2 /\
  currentPageIndex (play (times 1 [ClickPrevPage]) at_end) = 1 /\
  currentPageIndex (play (times 4 [ClickPrevPage]) at_end) = 0.
Proof.
  assert (Hend : showing two_pages at_end).
  { unfold showing, buttons_agree. vm_compute.
    repeat split; try reflexivity; discriminate. }
  destruct (previous_clicks_count nextPage_requestNext (fun t => t) false 1
              at_end two_pages Hend) as (_ & _ & Hc1).
  destruct (previous_clicks_count nextPage_requestNext (fun t => t) false 4
              at_end two_pages Hend) as (_ & _ & Hc4).
  split; [exact Hend|]. split; [reflexivity|].
  split; [exact Hc1 | exact Hc4].
Defined.

Lemma second_error_hidden_early_witness :
  timers initial = [] /\ Z.of_N 3000 < 8000 /\
  let s1 := step nextPage_requestNext (fun t => t) false (Elapse 3000)
              (exec (showError "Please enter a story prompt") initial) in
  let s2 := exec (showError "Failed to generate story") s1 in
  let s3 := step nextPage_requestNext (fun t => t) false TimerFires
              (step nextPage_requestNext (fun t => t) false
                 (Elapse (8000 - 3000)) s2) in
  errorText (dom s2) = "Failed to generate story" /\
  errorHidden (dom s2) = false /\
  errorText (dom s3) = "Failed to generate story" /\
  errorHidden (dom s3) = true /\
  clock s3 = clock s2 + (8000 - Z.of_N 3000) /\
  timers s3 = [(clock s2 + 8000, HideError)].
Proof.
  assert (Hq : timers initial = []) by (vm_compute; reflexivity).
  assert (Hd : Z.of_N 3000 < 8000) by (vm_compute; reflexivity).
  split; [exact Hq|]. split; [exact Hd|].
  exact (second_error_hidden_early nextPage_requestNext (fun t => t) false
           "Please enter a story prompt" "Failed to generate story"
           3000 initial Hq Hd).
Defined.

Lemma stopped_narration_still_speaks_witness :
  hasSpeech loaded = true /\ currentStory loaded = Some two_pages /\
  isReadingAloud loaded = false /\ timers loaded = [] /\
  nonempty (textToRead (currentPageIndex loaded) two_pages) = true /\
  let s1 := run nextPage_requestNext (fun t => t) false
              [ClickToggleReadAloud; ClickToggleReadAloud] loaded in
  let s2 := run nextPage_requestNext (fun t => t) false
              [Elapse 500; TimerFires] s1 in
  isReadingAloud s1 = false /\ speechQueue s1 = [] /\
  isReadingAloud s2 = false /\ timers s2 = [] /\
  speechQueue s2 =
    [{| spoken := textToRead (currentPageIndex loaded) two_pages;
        by_override := false |}].
Proof.
  assert (H1 : hasSpeech loaded = true) by (vm_compute; reflexivity).
  assert (H2 : currentStory loaded = Some two_pages)
    by (vm_compute; reflexivity).
  assert (H3 : isReadingAloud loaded = false) by (vm_compute; reflexivity).
  assert (H4 : timers loaded = []) by (vm_compute; reflexivity).
  assert (H5 : nonempty (textToRead (currentPageIndex loaded) two_pages) = true)
    by (vm_compute; reflexivity).
  split; [exact H1|]. split; [exact H2|]. split; [exact H3|].
  split; [exact H4|]. split; [exact H5|].
  exact (stopped_narration_still_speaks nextPage_requestNext (fun t => t)
           loaded two_pages H1 H2 H3 H4 H5).
Defined.

Lemma turn_outlives_story_witness :
  showing two_pages loaded /\
  currentPageIndex loaded < page_count two_pages /\
  pageElementFor (currentPageIndex loaded) (dom loaded) = Some CoverRef /\
  let s1 := run nextPage_requestNext (fun t => t) false
              [ClickNextPage; ClickBackToForm; Elapse 50] loaded in
  currentStory s1 = None /\ currentPageIndex s1 = 0 /\
  returns (handle nextPage_requestNext (fun t => t) false TimerFires) s1
    = false /\
  currentStory (step nextPage_requestNext (fun t => t) false TimerFires s1)
    = None /\
  currentPageIndex (step nextPage_requestNext (fun t => t) false TimerFires s1)
    = 1 /\
  timers (step nextPage_requestNext (fun t => t) false TimerFires s1) = [].
Proof.
  assert (Hlt : currentPageIndex loaded < page_count two_pages)
    by (vm_compute; reflexivity).
  assert (Hfind : pageElementFor (currentPageIndex loaded) (dom loaded)
                  = Some CoverRef) by (vm_compute; reflexivity).
  split; [exact loaded_showing|]. split; [exact Hlt|]. split; [exact Hfind|].
  exact (turn_outlives_story nextPage_requestNext (fun t => t) false
           loaded two_pages CoverRef loaded_showing Hlt Hfind).
Defined.

End ViewerMore.

(** * More about the flipbook component *)

Module FlipbookMore.
Import Flipbook.

Lemma storyPagesFrom_length ps : forall i,
  length (storyPagesFrom i ps) = length ps.
Proof.
  induction ps as [|p ps IH]; intros i; simpl; [reflexivity|].
  rewrite IH. reflexivity.
Qed.

Lemma storyPagesFrom_lookup ps : forall i (k : nat) p,
  ps !! k = Some p ->
  storyPagesFrom i ps !! k =
    Some {| heading := Chapter (i + Z.of_nat k + 1); body := text p;
            picture := Some (image_url p);
            pageNumber := i + Z.of_nat k + 2; type := StoryPage |}.
Proof.
  induction ps as [|q ps IH]; intros i k p Hk; [discriminate|].
  destruct k as [|k]; cbn [storyPagesFrom].
  - injection Hk as ->. simpl. rewrite Z.add_0_r. reflexivity.
  - simpl in Hk. change ((?x :: ?l) !! S k) with (l !! k).
    rewrite (IH (i + 1) k p Hk). do 2 f_equal; [f_equal|]; lia.
Qed.

Lemma addStoryPages_pages story first f :
  pages story !! 0%nat = Some first ->
  fpages (exec (addStoryPages story) f) =
    {| heading := Titled (title story);
       body := "A magical story for ages " +:+ age_range story;
       picture := Some (image_url first); pageNumber := 1;
       type := CoverPage |}
    :: storyPagesFrom 0 (pages story)
    ++ [{| heading := Titled "The End!";
           body := "Thank you for reading this magical story! Would you like to create another wonderful tale?";
           picture := None;
           pageNumber := Z.of_nat (length (pages story)) + 2;
           type := EndPage |}].
Proof.
  intros Hfirst. unfold addStoryPages, exec, modify. rewrite Hfirst.
  cbn [snd fpages]. cbn [length]. rewrite storyPagesFrom_length.
  simpl. do 4 f_equal. lia.
Qed.

(** X16: for a story with [n >= 1] pages [addStoryPages] returns and
    replaces whatever the flipbook held by [n + 2] pages: a cover that
    carries the title and the first page's image, one page per story page
    in order, headed "Chapter i" with that page's text and image, and an
    end page without image.  The page at position [k] carries page number
    [k + 1]; [totalPages] is [n + 2] and [currentPage] is 0. *)
Theorem flipbook_pages_are_numbered story f :
  pages story <> [] ->
  let f' := exec (addStoryPages story) f in
  let n := length (pages story) in
  returns (addStoryPages story) f = true /\
  length (fpages f') = (n + 2)%nat /\
  totalPages f' = Z.of_nat n + 2 /\ currentPage f' = 0 /\
  (forall (k : nat) pg, fpages f' !! k = Some pg ->
     pageNumber pg = Z.of_nat k + 1) /\
  (exists pg, fpages f' !! 0%nat = Some pg /\ type pg = CoverPage /\
     heading pg = Titled (title story) /\
     picture pg = image_url <$> (pages story !! 0%nat)) /\
  (forall (i : nat) p, pages story !! i = Some p ->
     fpages f' !! S i =
       Some {| heading := Chapter (Z.of_nat i + 1); body := text p;
               picture := Some (image_url p);
               pageNumber := Z.of_nat i + 2; type := StoryPage |}) /\
  (exists pg, fpages f' !! S n = Some pg /\ type pg = EndPage /\
     picture pg = None).
Proof.
  intros Hne f' n.
  destruct (pages story !! 0%nat) as [first|] eqn:Hfirst;
    [|destruct (pages story); [congruence | discriminate]].
  pose proof (addStoryPages_pages story first f Hfirst) as Hpages.
  fold f' in Hpages.
  assert (Hn : (0 < n)%nat).
  { subst n. destruct (pages story); [discriminate | simpl; lia]. }
  assert (Hlen : length (fpages f') = (n + 2)%nat).
  { rewrite Hpages. cbn [length]. rewrite length_app, storyPagesFrom_length.
    subst n. simpl. lia. }
  split.
  { unfold returns, addStoryPages. rewrite Hfirst. reflexivity. }
  split; [exact Hlen|].
  split.
  { subst f'. unfold addStoryPages, exec, modify.
    rewrite Hfirst. cbn [snd totalPages].
    rewrite length_app. cbn [length]. rewrite storyPagesFrom_length.
    subst n. lia. }
  split.
  { subst f'. unfold addStoryPages, exec. rewrite Hfirst. reflexivity. }
  split.
  { intros k pg Hk. rewrite Hpages in Hk. destruct k as [|k].
    - injection Hk as <-. reflexivity.
    - change ((?x :: ?l) !! S k) with (l !! k) in Hk.
      destruct (decide (k < length (pages story))%nat) as [Hlt|Hge].
      + rewrite lookup_app_l in Hk by (rewrite storyPagesFrom_length; exact Hlt).
        destruct (lookup_lt_is_Some_2 (pages story) k Hlt) as [p Hpk].
        rewrite (storyPagesFrom_lookup _ 0 k p Hpk) in Hk.
        injection Hk as <-. simpl. lia.
      + rewrite lookup_app_r in Hk by (rewrite storyPagesFrom_length; lia).
        rewrite storyPagesFrom_length in Hk.
        destruct (k - length (pages story))%nat as [|m] eqn:Hm;
          [|destruct m; discriminate].
        injection Hk as <-. cbn [pageNumber]. lia. }
  split.
  { rewrite Hpages. eexists. split; [reflexivity|].
    split; [reflexivity|]. split; reflexivity. }
  split.
  { intros i p Hi. rewrite Hpages.
    change ((?x :: ?l) !! S i) with (l !! i).
    rewrite lookup_app_l
      by (rewrite storyPagesFrom_length; eapply lookup_lt_Some; exact Hi).
    rewrite (storyPagesFrom_lookup _ 0 i p Hi). rewrite !Z.add_0_l.
    reflexivity. }
  rewrite Hpages. eexists.
  change ((?x :: ?l) !! S n) with (l !! n).
  rewrite lookup_app_r by (rewrite storyPagesFrom_length; subst n; lia).
  rewrite storyPagesFrom_length. subst n. rewrite Nat.sub_diag.
  split; [reflexivity|]. split; reflexivity.
Qed.

Lemma flipbook_pages_are_numbered_witness :
  pages Viewer.two_pages <> [] /\
  let f' := exec (addStoryPages Viewer.two_pages) mounted_empty in
  length (fpages f') = 4%nat /\ totalPages f' = 4 /\
  (pageNumber <$> fpages f') = [1; 2; 3; 4] /\
  (type <$> fpages f') = [CoverPage; StoryPage; StoryPage; EndPage].
Proof.
  assert (Hne : pages Viewer.two_pages <> []) by discriminate.
  destruct (flipbook_pages_are_numbered Viewer.two_pages mounted_empty Hne)
    as (_ & Hlen & Htot & _).
  split; [exact Hne|]. intros f'.
  split; [exact Hlen|]. split; [exact Htot|].
  split; vm_compute; reflexivity.
Defined.

End FlipbookMore.
